(** * IBPCDC: the Earth-Mover-Distance loss of [utils/loss.py]

    A shallow embedding of [emd_loss], [emdModule] and [emdFunction]
    (forward and backward) from [src/utils/loss.py], followed by
    [begin_analyze] of [generate_train_data/log_analyzer.py], [save_model]
    and [get_checkpoint] of the training scripts, and [TopNet_decoder] of
    [networks/models.py].

    The Python code allocates tensors, mutates them in place through the
    compiled extension [emd] and raises exceptions, so the embedding is a
    state-and-exception monad over a store of tensor objects.  Floating
    point arithmetic is kept abstract (class [Scalar]): every theorem holds
    for any interpretation of the arithmetic operations, IEEE single
    precision included.  The default dtype of the process is a parameter
    as well (class [TorchDefaults]). *)

From Stdlib Require Import ZArith QArith Qround String Ascii Lia.
From stdpp Require Import base tactics option list strings pretty gmap.

Open Scope Z_scope.
Open Scope nat_scope.

(** ** Scalars *)

(** The operations the code and the kernels perform on floating point
    values.  No law is assumed about them. *)
Class Scalar (F : Type) := {
  fzero : F;
  fadd : F -> F -> F;
  fsub : F -> F -> F;
  fmul : F -> F -> F;
  fopp : F -> F;
  fltb : F -> F -> bool;
  (* conversion of an integer, as in [int_tensor.float()] or the literal 2 *)
  of_Z : Z -> F;
  (* conversion of a Python number such as the literal [0.005] *)
  of_Q : Q -> F;
  (* rounding to single precision, [tensor.float()] on a wider tensor *)
  cast32 : F -> F;
  (* the reduction performed by [torch.mean] *)
  tmean : list F -> F
}.

(** Exact integer arithmetic, used to run the model on concrete inputs. *)
#[global] Instance Z_scalar : Scalar Z := {|
  fzero := 0%Z;
  fadd := Z.add;
  fsub := Z.sub;
  fmul := Z.mul;
  fopp := Z.opp;
  fltb := Z.ltb;
  of_Z := fun z => z;
  of_Q := fun q => Qfloor q;
  cast32 := fun z => z;
  tmean := fun l => (foldr Z.add 0 l / Z.of_nat (length l))%Z
|}.

(** ** Tensors, the object store and exceptions *)

Inductive dtype := Float16 | Float32 | Float64 | Int32 | Int64.
(** Where a tensor lives: in host memory, on the current CUDA device of the
    process (the one [device='cuda'] and [.cuda()] denote), or on another
    CUDA device. *)
Inductive device := Cpu | Cuda | CudaPeer (index : nat).

#[global] Instance dtype_eq_dec : EqDecision dtype.
Proof. solve_decision. Defined.
#[global] Instance device_eq_dec : EqDecision device.
Proof. solve_decision. Defined.

Definition is_float (d : dtype) : bool :=
  match d with Float16 | Float32 | Float64 => true | _ => false end.

(** [torch.get_default_dtype()], a setting of the process that
    [torch.zeros] reads when it is called without [dtype]:
    [torch.float32] unless [torch.set_default_dtype] has been called, which
    accepts floating point types only. *)
Class TorchDefaults := {
  torch_default_dtype : dtype;
  torch_default_is_float : is_float torch_default_dtype = true
}.

(** Python exceptions raised on the paths modelled here.  [assert c]
    without a message raises [AssertionError()] (no argument). *)
Inductive exn :=
  | AssertionError (msg : option string)
  | ValueError
  | RuntimeError.

Inductive result (A : Type) :=
  | Ok (a : A)
  | Err (e : exn).
Arguments Ok {A} a.
Arguments Err {A} e.

(** int32 arithmetic wraps around. *)
Definition wrap32 (z : Z) : Z := ((z + 2 ^ 31) mod 2 ^ 32 - 2 ^ 31)%Z.

Definition loc := nat.

Section WithScalar.
Context {F : Type} `{Scalar F} `{TorchDefaults}.

(** Row-major contents of a tensor. *)
Inductive storage :=
  | FloatData (xs : list F)
  | IntData (zs : list Z).

Record tensor := {
  t_dtype : dtype;
  t_device : device;
  t_contig : bool;
  t_requires_grad : bool;
  t_shape : list nat;
  t_data : storage
}.

(** The store: every tensor object ever created, addressed by
    its creation index.  Objects are never freed in the model. *)
Record world := { heap : list tensor }.

Definition M (A : Type) : Type := world -> result A * world.

#[global] Instance M_ret : MRet M := fun A a w => (Ok a, w).
#[global] Instance M_bind : MBind M := fun A B f m w =>
  match m w with
  | (Ok a, w') => f a w'
  | (Err e, w') => (Err e, w')
  end.

Definition run {A} (m : M A) (w : world) : result A * world := m w.

Definition raise {A} (e : exn) : M A := fun w => (Err e, w).

(** A new object; its reference is returned. *)
Definition alloc (t : tensor) : M loc :=
  fun w => (Ok (length (heap w)), {| heap := heap w ++ [t] |}).

Definition deref (l : loc) : M tensor :=
  fun w => match heap w !! l with
           | Some t => (Ok t, w)
           | None => (Err RuntimeError, w)
           end.

(** In-place update of an existing object. *)
Definition store (l : loc) (t : tensor) : M unit :=
  fun w => (Ok tt, {| heap := <[l := t]> (heap w) |}).

(** [assert c] *)
Definition py_assert (c : bool) : M unit :=
  if c then mret tt else raise (AssertionError None).

(** ** The torch operations used by [loss.py] *)

Definition numel (shape : list nat) : nat := foldr Nat.mul 1 shape.

(** The tensor [torch.zeros(d1, ..., dk, device=dev, dtype=dt)] creates;
    without [dtype] the default dtype is used. *)
Definition zeros_tensor (shape : list nat) (dev : device) (dt : option dtype)
  : tensor :=
  let d := default torch_default_dtype dt in
  {| t_dtype := d; t_device := dev; t_contig := true;
     t_requires_grad := false; t_shape := shape;
     t_data := if is_float d
               then FloatData (replicate (numel shape) fzero)
               else IntData (replicate (numel shape) 0%Z) |}.

Definition torch_zeros (shape : list nat) (dev : device) (dt : option dtype)
  : M loc :=
  alloc (zeros_tensor shape dev dt).

(** A conversion method returns the object itself when it already has the
    requested property, and a new object otherwise.  The conversions are
    called inside [forward] and [backward] of an [autograd.Function] only,
    which [apply] and the autograd engine run with autograd switched off
    (nothing in the repository asks for [create_graph]): the new object
    does not require a gradient, whatever the object it is made from
    does. *)
Definition convert (ok : tensor -> bool) (f : tensor -> tensor) (l : loc)
  : M loc :=
  t ← deref l;
  if ok t then mret l else alloc (f t).

Definition as_contiguous (t : tensor) : tensor :=
  {| t_dtype := t_dtype t; t_device := t_device t; t_contig := true;
     t_requires_grad := false; t_shape := t_shape t;
     t_data := t_data t |}.

(** [x.contiguous()] *)
Definition contiguous : loc -> M loc := convert t_contig as_contiguous.

Definition to_float32 (s : storage) : storage :=
  match s with
  | FloatData xs => FloatData (cast32 <$> xs)
  | IntData zs => FloatData (of_Z <$> zs)
  end.

Definition as_float (t : tensor) : tensor :=
  {| t_dtype := Float32; t_device := t_device t; t_contig := true;
     t_requires_grad := false; t_shape := t_shape t;
     t_data := to_float32 (t_data t) |}.

(** [x.float()]: conversion to [torch.float32] *)
Definition float_ : loc -> M loc :=
  convert (fun t => bool_decide (t_dtype t = Float32)) as_float.

Definition as_cuda (t : tensor) : tensor :=
  {| t_dtype := t_dtype t; t_device := Cuda; t_contig := true;
     t_requires_grad := false; t_shape := t_shape t;
     t_data := t_data t |}.

(** [x.cuda()]: onto the current CUDA device *)
Definition cuda : loc -> M loc :=
  convert (fun t => bool_decide (t_device t = Cuda)) as_cuda.

(** [x - k] for a tensor [x] and a Python integer [k]: a new tensor of the
    dtype of [x]; int32 arithmetic wraps around. *)
Definition minus_scalar (k : Z) (t : tensor) : tensor :=
  {| t_dtype := t_dtype t; t_device := t_device t; t_contig := true;
     t_requires_grad := t_requires_grad t; t_shape := t_shape t;
     t_data := match t_data t with
               | IntData zs => IntData ((fun z => wrap32 (z - k)) <$> zs)
               | FloatData xs => FloatData ((fun x => fsub x (of_Z k)) <$> xs)
               end |}.

Definition sub_scalar (l : loc) (k : Z) : M loc :=
  t ← deref l; alloc (minus_scalar k t).

(** [b, n, _ = x.size()]: unpacking fails unless [x] has three
    dimensions. *)
Definition size3 (l : loc) : M (nat * nat) :=
  t ← deref l;
  match t_shape t with
  | [b; n; _] => mret (b, n)
  | _ => raise ValueError
  end.

(** [x.size()] *)
Definition size (l : loc) : M (list nat) :=
  t ← deref l; mret (t_shape t).

(** [torch.mean(x)]: a new zero-dimensional tensor; integer tensors are
    rejected. *)
Definition torch_mean (l : loc) : M loc :=
  t ← deref l;
  match t_data t with
  | FloatData xs =>
      alloc {| t_dtype := t_dtype t; t_device := t_device t; t_contig := true;
               t_requires_grad := t_requires_grad t; t_shape := [];
               t_data := FloatData [tmean xs] |}
  | IntData _ => raise RuntimeError
  end.

(** ** The compiled extension [emd]

    [import emd] binds a compiled module with two entry points.  Both
    receive references to tensors and work in place.  The Python code is
    embedded over an arbitrary such module. *)

(** The tensors of [emd.forward(...)], in call order. *)
Record fwd_args := {
  ka_xyz1 : loc; ka_xyz2 : loc; ka_dist : loc; ka_assignment : loc;
  ka_price : loc; ka_assignment_inv : loc; ka_bid : loc;
  ka_bid_increments : loc; ka_max_increments : loc; ka_unass_idx : loc;
  ka_unass_cnt : loc; ka_unass_cnt_sum : loc; ka_cnt_tmp : loc;
  ka_max_idx : loc
}.

(** The tensors of [emd.backward(...)], in call order. *)
Record bwd_args := {
  kb_xyz1 : loc; kb_xyz2 : loc; kb_gradxyz1 : loc; kb_graddist : loc;
  kb_assignment : loc
}.

Record emd_ext := {
  emd_forward : fwd_args -> Q -> Z -> M unit;
  emd_backward : bwd_args -> M unit
}.

(** ** [emdFunction] *)

(** The autograd context of one [apply]. *)
Record ctx := {
  saved_tensors : list loc;
  needs_input_grad : list bool
}.

Definition save_for_backward (c : ctx) (ts : list loc) : ctx :=
  {| saved_tensors := ts; needs_input_grad := needs_input_grad c |}.

(** The literals [1024] and [512] of [forward]. *)
Definition block_size : nat := 1024.
Definition max_batch : nat := 512.

(** [emdFunction.forward(ctx, xyz1, xyz2, eps, iters)].  The updated
    context is returned next to [(dist, assignment)]. *)
Definition emdFunction_forward (emd : emd_ext) (c : ctx)
    (xyz1 xyz2 : loc) (eps : Q) (iters : Z) : M (ctx * (loc * loc)) :=
  '(batchsize, n) ← size3 xyz1;
  '(batchsize2, m) ← size3 xyz2;
  py_assert (n =? m);;
  (* xyz1.size()[0] == xyz2.size()[0] *)
  py_assert (batchsize =? batchsize2);;
  py_assert (n mod block_size =? 0);;
  py_assert (batchsize <=? max_batch);;
  xyz1 ← (x ← contiguous xyz1; x ← float_ x; cuda x);
  xyz2 ← (x ← contiguous xyz2; x ← float_ x; cuda x);
  dist ← (z ← torch_zeros [batchsize; n] Cuda None; contiguous z);
  assignment ← (z ← torch_zeros [batchsize; n] Cuda (Some Int32);
                z ← contiguous z; sub_scalar z 1);
  assignment_inv ← (z ← torch_zeros [batchsize; m] Cuda (Some Int32);
                    z ← contiguous z; sub_scalar z 1);
  price ← (z ← torch_zeros [batchsize; m] Cuda None; contiguous z);
  bid ← (z ← torch_zeros [batchsize; n] Cuda (Some Int32); contiguous z);
  bid_increments ← (z ← torch_zeros [batchsize; n] Cuda None; contiguous z);
  max_increments ← (z ← torch_zeros [batchsize; m] Cuda None; contiguous z);
  unass_idx ← (z ← torch_zeros [batchsize * n] Cuda (Some Int32);
               contiguous z);
  max_idx ← (z ← torch_zeros [batchsize * m] Cuda (Some Int32);
             contiguous z);
  unass_cnt ← (z ← torch_zeros [max_batch] Cuda (Some Int32); contiguous z);
  unass_cnt_sum ← (z ← torch_zeros [max_batch] Cuda (Some Int32); contiguous z);
  cnt_tmp ← (z ← torch_zeros [max_batch] Cuda (Some Int32); contiguous z);
  emd_forward emd
    {| ka_xyz1 := xyz1; ka_xyz2 := xyz2; ka_dist := dist;
       ka_assignment := assignment; ka_price := price;
       ka_assignment_inv := assignment_inv; ka_bid := bid;
       ka_bid_increments := bid_increments;
       ka_max_increments := max_increments; ka_unass_idx := unass_idx;
       ka_unass_cnt := unass_cnt; ka_unass_cnt_sum := unass_cnt_sum;
       ka_cnt_tmp := cnt_tmp; ka_max_idx := max_idx |} eps iters;;
  mret (save_for_backward c [xyz1; xyz2; assignment], (dist, assignment)).

(** [emdFunction.backward(ctx, graddist, gradidx)], returning
    [(gradxyz1, gradxyz2, None, None)]. *)
Definition emdFunction_backward (emd : emd_ext) (c : ctx)
    (graddist : loc) (gradidx : option loc)
  : M (loc * loc * option loc * option loc) :=
  match saved_tensors c with
  | [xyz1; xyz2; assignment] =>
      graddist ← contiguous graddist;
      gradxyz1 ← (s ← size xyz1; z ← torch_zeros s Cuda None; contiguous z);
      gradxyz2 ← (s ← size xyz2; z ← torch_zeros s Cuda None; contiguous z);
      emd_backward emd
        {| kb_xyz1 := xyz1; kb_xyz2 := xyz2; kb_gradxyz1 := gradxyz1;
           kb_graddist := graddist; kb_assignment := assignment |};;
      mret (gradxyz1, gradxyz2, None, None)
  | _ => raise ValueError
  end.

(** [emdFunction.apply]: a fresh context that records which inputs
    require a gradient, then [forward]. *)
Definition emdFunction_apply (emd : emd_ext)
    (xyz1 xyz2 : loc) (eps : Q) (iters : Z) : M (ctx * (loc * loc)) :=
  t1 ← deref xyz1;
  t2 ← deref xyz2;
  emdFunction_forward emd
    {| saved_tensors := [];
       needs_input_grad :=
         [t_requires_grad t1; t_requires_grad t2; false; false] |}
    xyz1 xyz2 eps iters.

(** ** [emdModule] and [emd_loss] *)

(** [emdModule.forward(self, input1, input2, eps=0.005, iters=50)];
    an omitted keyword argument is [None]. *)
Definition emdModule_forward (emd : emd_ext) (input1 input2 : loc)
    (eps : option Q) (iters : option Z) : M (ctx * (loc * loc)) :=
  emdFunction_apply emd input1 input2
    (default (5 # 1000)%Q eps) (default 50%Z iters).

(** [emd_loss(output, gt)] *)
Definition emd_loss (emd : emd_ext) (output gt : loc) : M loc :=
  r ← emdModule_forward emd output gt None None;
  (* [0] of the returned pair *)
  let dists := fst (snd r) in
  torch_mean dists.

(** ** The kernels of [emd]

    The compiled extension is not part of the Python sources; its two entry
    points, and everything they are built from, are modelled from the
    specification of the matcher (sections 4.1 and 4.2). *)

Definition point : Type := F * F * F.

(** Entry [k] of a buffer; reads outside the buffer give zero. *)
Definition fget (xs : list F) (k : nat) : F := default fzero (xs !! k).

(** Point [i] of a row-major array of 3-D coordinates. *)
Definition get_point (xs : list F) (i : nat) : point :=
  (fget xs (3 * i), fget xs (3 * i + 1), fget xs (3 * i + 2)).

(** Modelled from the spec: the squared Euclidean distance
    [||p - q||^2] of the missing kernel. *)
Definition sqdist (p q : point) : F :=
  let '(px, py, pz) := p in
  let '(qx, qy, qz) := q in
  fadd (fadd (fmul (fsub px qx) (fsub px qx)) (fmul (fsub py qy) (fsub py qy)))
       (fmul (fsub pz qz) (fsub pz qz)).

(** Modelled from the spec: the state the missing kernel keeps for one
    batch element (section 3 and section 4.1, step 1). *)
Record auction := {
  au_assignment : list Z;
  au_assignment_inv : list Z;
  au_price : list F;
  au_bid : list Z;
  au_bid_increments : list F;
  au_max_increments : list F
}.

Section Auction.
(** The [noise_or_regularizer] term of the cost, which the specification
    leaves open. *)
Variable reg : nat -> nat -> F.
Variable n : nat.
Variable eps : F.
Variables x1 x2 : list F.

(** Modelled from the spec: the cost of the missing kernel,
    [cost(i,j) = ||xyz1[i] - xyz2[j]||^2 + eps * noise_or_regularizer]. *)
Definition cost (i j : nat) : F :=
  fadd (sqdist (get_point x1 i) (get_point x2 j)) (fmul eps (reg i j)).

(** Modelled from the spec: the cost-minus-price of candidate [j]. *)
Definition adjusted (price : list F) (i j : nat) : F :=
  fsub (cost i j) (fget price j).

(** Modelled from the spec: one step of the scan of the missing kernel
    over the candidates, all of B.  It keeps the best candidate so far (the
    lowest adjusted cost; on equal cost the lower index) with its adjusted
    cost, and the second-best adjusted cost. *)
Definition scan_step (c : nat -> F) (acc : option (nat * F * option F))
    (j : nat) : option (nat * F * option F) :=
  match acc with
  | None => Some (j, c j, None)
  | Some (bj, bc, sec) =>
      if fltb (c j) bc then Some (j, c j, Some bc)
      else Some (bj, bc,
                 Some (match sec with
                       | Some s => if fltb (c j) s then c j else s
                       | None => c j
                       end))
  end.

Definition best_two (c : nat -> F) : option (nat * F * option F) :=
  foldl (scan_step c) None (seq 0 n).

(** Modelled from the spec: the bid of point [i] in the missing kernel,
    its best candidate and the gap between the best and the second-best
    adjusted cost (zero when there is a single candidate). *)
Definition bid_of (price : list F) (i : nat) : option (nat * F) :=
  match best_two (adjusted price i) with
  | Some (bj, bc, sec) =>
      Some (bj, match sec with Some s => fsub s bc | None => fzero end)
  | None => None
  end.

(** Point [i] of A is currently unassigned. *)
Definition unassigned (asg : list Z) (i : nat) : bool :=
  bool_decide (asg !! i = Some (-1)%Z).

Definition place_bid (asg : list Z) (price : list F)
    (bs : list Z * list F) (i : nat) : list Z * list F :=
  if unassigned asg i then
    match bid_of price i with
    | Some (j, inc) => (<[i := Z.of_nat j]> (fst bs), <[i := inc]> (snd bs))
    | None => bs
    end
  else bs.

(** Modelled from the spec: step 2 of the missing kernel, every currently
    unassigned point of A places its bid in [bid] and [bid_increments]. *)
Definition place_bids (asg : list Z) (price : list F)
    (bs : list Z * list F) : list Z * list F :=
  foldl (place_bid asg price) bs (seq 0 n).

(** The points of A that are unassigned when the round starts. *)
Definition unassigned_idx (asg : list Z) : list nat :=
  filter (fun i => asg !! i = Some (-1)%Z) (seq 0 n).

(** Modelled from the spec: arbitration of the missing kernel, the highest
    increment so far; the lowest index wins ties. *)
Definition higher (incs : list F) (best : option (nat * F)) (i : nat)
  : option (nat * F) :=
  match best with
  | None => Some (i, fget incs i)
  | Some (bi, binc) =>
      if fltb binc (fget incs i) then Some (i, fget incs i) else best
  end.

(** Modelled from the spec: the winner, in the missing kernel, among the
    bidders of this round for point [j] of B. *)
Definition winner_of (unass : list nat) (bid : list Z) (incs : list F)
    (j : nat) : option (nat * nat * F) :=
  (fun r => (j, fst r, snd r)) <$>
    foldl (higher incs) None
      (filter (fun i => bid !! i = Some (Z.of_nat j)) unass).

(** Modelled from the spec: the round barrier of the missing kernel; all
    bids are collected first, then there is one winner per point of B that
    received a bid. *)
Definition winners (asg : list Z) (bid : list Z) (incs : list F)
  : list (nat * nat * F) :=
  omap (winner_of (unassigned_idx asg) bid incs) (seq 0 n).

(** Modelled from the spec: step 3 of the missing kernel for one winner
    [(j, i, inc)]; the previous occupant of [j] is unassigned, then
    [assignment[i] = j] and [assignment_inv[j] = i]. *)
Definition award_one (ai : list Z * list Z) (w : nat * nat * F)
  : list Z * list Z :=
  let '(j, i, _) := w in
  let asg := match snd ai !! j with
             | Some prev =>
                 if (0 <=? prev)%Z then <[Z.to_nat prev := (-1)%Z]> (fst ai)
                 else fst ai
             | None => fst ai
             end in
  (<[i := Z.of_nat j]> asg, <[j := Z.of_nat i]> (snd ai)).

(** Modelled from the spec: step 3 of the missing kernel for the price,
    [price[j] += max_increment]. *)
Definition raise_price (pm : list F * list F) (w : nat * nat * F)
  : list F * list F :=
  let '(j, _, inc) := w in
  (<[j := fadd (fget (fst pm) j) inc]> (fst pm), <[j := inc]> (snd pm)).

(** Modelled from the spec: one round of the missing kernel, steps 2
    and 3. *)
Definition round (st : auction) : auction :=
  let bs := place_bids (au_assignment st) (au_price st)
              (au_bid st, au_bid_increments st) in
  let ws := winners (au_assignment st) (fst bs) (snd bs) in
  let ai := foldl award_one (au_assignment st, au_assignment_inv st) ws in
  let pm := foldl raise_price (au_price st, au_max_increments st) ws in
  {| au_assignment := fst ai; au_assignment_inv := snd ai;
     au_price := fst pm; au_bid := fst bs; au_bid_increments := snd bs;
     au_max_increments := snd pm |}.

(** Every point of A is assigned. *)
Definition all_assigned (asg : list Z) : bool :=
  match unassigned_idx asg with [] => true | _ => false end.

(** Modelled from the spec: step 4 of the missing kernel, rounds until
    every point of A is assigned or [iters] rounds have elapsed. *)
Fixpoint run_rounds (iters : nat) (st : auction) : auction :=
  match iters with
  | O => st
  | S k => if all_assigned (au_assignment st) then st
           else run_rounds k (round st)
  end.

(** Modelled from the spec: step 5 of the missing kernel, the squared
    distance of every matched point; the entry of an unmatched point keeps
    the value it was allocated with. *)
Definition final_dist (asg : list Z) (dist : list F) : list F :=
  imap (fun i d =>
          match asg !! i with
          | Some v => if (0 <=? v)%Z
                      then sqdist (get_point x1 i) (get_point x2 (Z.to_nat v))
                      else d
          | None => d
          end) dist.

(** Modelled from the spec: the missing kernel on one batch element,
    steps 2 to 5. *)
Definition auction_batch (iters : nat) (st : auction) (dist : list F)
  : auction * list F :=
  let st' := run_rounds iters st in
  (st', final_dist (au_assignment st') dist).

End Auction.

Definition float_data (l : loc) : M (list F) :=
  t ← deref l;
  match t_data t with
  | FloatData xs => mret xs
  | IntData _ => raise RuntimeError
  end.

Definition int_data (l : loc) : M (list Z) :=
  t ← deref l;
  match t_data t with
  | IntData zs => mret zs
  | FloatData _ => raise RuntimeError
  end.

Definition with_data (t : tensor) (s : storage) : tensor :=
  {| t_dtype := t_dtype t; t_device := t_device t; t_contig := t_contig t;
     t_requires_grad := t_requires_grad t; t_shape := t_shape t;
     t_data := s |}.

(** Overwrite the contents of an existing tensor. *)
Definition write_data (l : loc) (s : storage) : M unit :=
  t ← deref l; store l (with_data t s).

(** Row [b] of a row-major array whose rows have [w] entries. *)
Definition row {A} (w b : nat) (l : list A) : list A :=
  take w (drop (b * w) l).

(** Modelled from the spec: the entry point [emd.forward] of the compiled
    extension, which is not among the Python sources.  Every batch element
    runs its own auction (section 4.1, steps 2 to 5) on its rows of the
    buffers, in place. *)
Definition emd_forward_spec (reg : nat -> nat -> F) (a : fwd_args)
    (eps : Q) (iters : Z) : M unit :=
  '(bsz, n) ← size3 (ka_xyz1 a);
  x1 ← float_data (ka_xyz1 a);
  x2 ← float_data (ka_xyz2 a);
  dist ← float_data (ka_dist a);
  asg ← int_data (ka_assignment a);
  price ← float_data (ka_price a);
  inv ← int_data (ka_assignment_inv a);
  bid ← int_data (ka_bid a);
  incs ← float_data (ka_bid_increments a);
  maxinc ← float_data (ka_max_increments a);
  let outs :=
    (fun b =>
       auction_batch reg n (of_Q eps) (row (3 * n) b x1) (row (3 * n) b x2)
         (Z.to_nat iters)
         {| au_assignment := row n b asg; au_assignment_inv := row n b inv;
            au_price := row n b price; au_bid := row n b bid;
            au_bid_increments := row n b incs;
            au_max_increments := row n b maxinc |}
         (row n b dist)) <$> seq 0 bsz in
  write_data (ka_dist a) (FloatData (concat (snd <$> outs)));;
  write_data (ka_assignment a)
    (IntData (concat ((fun o => au_assignment (fst o)) <$> outs)));;
  write_data (ka_price a)
    (FloatData (concat ((fun o => au_price (fst o)) <$> outs)));;
  write_data (ka_assignment_inv a)
    (IntData (concat ((fun o => au_assignment_inv (fst o)) <$> outs)));;
  write_data (ka_bid a)
    (IntData (concat ((fun o => au_bid (fst o)) <$> outs)));;
  write_data (ka_bid_increments a)
    (FloatData (concat ((fun o => au_bid_increments (fst o)) <$> outs)));;
  write_data (ka_max_increments a)
    (FloatData (concat ((fun o => au_max_increments (fst o)) <$> outs))).

(** Modelled from the spec: in the missing backward kernel, the
    contribution of A-point [p] (a flat point index of the batch),
    coordinate [k], matched to [v]:
    [grad_dist[i] * 2 * (xyz1[i] - xyz2[j])]. *)
Definition contribution (n : nat) (x1 x2 gd : list F) (p k : nat) (v : Z)
  : F :=
  fmul (fmul (fget gd p) (of_Z 2))
       (fsub (fget x1 (3 * p + k))
             (fget x2 (3 * (p / n * n + Z.to_nat v) + k))).

(** Modelled from the spec: [grad_xyz1] of the missing backward kernel;
    the entries of unmatched points are left as they are. *)
Definition grad1 (n : nat) (x1 x2 gd : list F) (asg : list Z)
    (g1 : list F) : list F :=
  imap (fun idx old =>
          match asg !! (idx / 3) with
          | Some v => if (0 <=? v)%Z
                      then contribution n x1 x2 gd (idx / 3) (idx mod 3) v
                      else old
          | None => old
          end) g1.

(** Modelled from the spec: in the missing backward kernel, the negated
    contribution of point [p], accumulated at its partner. *)
Definition route2 (n : nat) (x1 x2 gd : list F) (asg : list Z)
    (g2 : list F) (p : nat) : list F :=
  match asg !! p with
  | Some v =>
      if (0 <=? v)%Z then
        foldl (fun g k =>
                 let t := 3 * (p / n * n + Z.to_nat v) + k in
                 <[t := fadd (fget g t) (fopp (contribution n x1 x2 gd p k v))]> g)
              g2 [0; 1; 2]
      else g2
  | None => g2
  end.

(** Modelled from the spec: the entry point [emd.backward] of the compiled
    extension, which is not among the Python sources (section 4.2).  The
    assignment is read as a constant.  The gradient buffer of the second
    set is optional: it is filled only when the caller hands one over. *)
Definition emd_backward_spec (a : bwd_args) (gradxyz2 : option loc)
  : M unit :=
  '(bsz, n) ← size3 (kb_xyz1 a);
  x1 ← float_data (kb_xyz1 a);
  x2 ← float_data (kb_xyz2 a);
  g1 ← float_data (kb_gradxyz1 a);
  gd ← float_data (kb_graddist a);
  asg ← int_data (kb_assignment a);
  write_data (kb_gradxyz1 a) (FloatData (grad1 n x1 x2 gd asg g1));;
  match gradxyz2 with
  | Some l2 =>
      g2 ← float_data l2;
      write_data l2
        (FloatData (foldl (route2 n x1 x2 gd asg) g2 (seq 0 (bsz * n))))
  | None => mret tt
  end.

(** The extension as [loss.py] binds it: [emd.backward] is called with
    five tensors, none of them a gradient buffer for the second set. *)
Definition emd_spec (reg : nat -> nat -> F) : emd_ext :=
  {| emd_forward := emd_forward_spec reg;
     emd_backward := fun a => emd_backward_spec a None |}.

(** ** The state in which [forward] enters the kernel *)

(** A tensor whose dtype and contents agree. *)
Definition tensor_ok (t : tensor) : bool :=
  match t_data t with
  | FloatData _ => is_float (t_dtype t)
  | IntData _ => negb (is_float (t_dtype t))
  end.

(** The tensor denoted by [x.contiguous().float().cuda()] inside
    [forward]: [x] itself when no step has to convert, and otherwise a new
    tensor, contiguous, of dtype [torch.float32], on the current CUDA
    device and not requiring a gradient. *)
Definition conv (t : tensor) : tensor :=
  let t1 := if t_contig t then t else as_contiguous t in
  let t2 := if bool_decide (t_dtype t1 = Float32) then t1 else as_float t1 in
  if bool_decide (t_device t2 = Cuda) then t2 else as_cuda t2.

(** The objects [forward] creates between its assertions and the call of
    [emd.forward], in creation order, for inputs of sizes [(b, n, _)] and
    [(_, m, _)]. *)
Definition solver_buffers (b n m : nat) : list tensor :=
  [ zeros_tensor [b; n] Cuda None;                                (* dist *)
    zeros_tensor [b; n] Cuda (Some Int32);
    minus_scalar 1 (zeros_tensor [b; n] Cuda (Some Int32));       (* assignment *)
    zeros_tensor [b; m] Cuda (Some Int32);
    minus_scalar 1 (zeros_tensor [b; m] Cuda (Some Int32));       (* assignment_inv *)
    zeros_tensor [b; m] Cuda None;                                (* price *)
    zeros_tensor [b; n] Cuda (Some Int32);                        (* bid *)
    zeros_tensor [b; n] Cuda None;                                (* bid_increments *)
    zeros_tensor [b; m] Cuda None;                                (* max_increments *)
    zeros_tensor [b * n] Cuda (Some Int32);                       (* unass_idx *)
    zeros_tensor [b * m] Cuda (Some Int32);                       (* max_idx *)
    zeros_tensor [max_batch] Cuda (Some Int32);                   (* unass_cnt *)
    zeros_tensor [max_batch] Cuda (Some Int32);                   (* unass_cnt_sum *)
    zeros_tensor [max_batch] Cuda (Some Int32) ].                 (* cnt_tmp *)

(** The references handed to [emd.forward] when the first of these
    objects is created at index [k]. *)
Definition solver_args (x1 x2 k : loc) : fwd_args :=
  {| ka_xyz1 := x1; ka_xyz2 := x2; ka_dist := k; ka_assignment := k + 2;
     ka_price := k + 5; ka_assignment_inv := k + 4; ka_bid := k + 6;
     ka_bid_increments := k + 7; ka_max_increments := k + 8;
     ka_unass_idx := k + 9; ka_unass_cnt := k + 11;
     ka_unass_cnt_sum := k + 12; ka_cnt_tmp := k + 13;
     ka_max_idx := k + 10 |}.

(** [forward], started in [w], calls [emd.forward] on the tensors [a] with
    the parameters [eps'] and [iters'] in the store [w1], whatever the
    extension does, and then returns [a]'s [dist] and [assignment]. *)
Definition enters_kernel (c : ctx) (l1 l2 : loc) (eps : Q) (iters : Z)
    (w : world) (a : fwd_args) (eps' : Q) (iters' : Z) (w1 : world) : Prop :=
  forall emd : emd_ext,
    run (emdFunction_forward emd c l1 l2 eps iters) w =
    match run (emd_forward emd a eps' iters') w1 with
    | (Ok _, w2) =>
        (Ok (save_for_backward c [ka_xyz1 a; ka_xyz2 a; ka_assignment a],
             (ka_dist a, ka_assignment a)), w2)
    | (Err e, w2) => (Err e, w2)
    end.

(** The invariant of the auction of one batch element: [assignment] and
    [assignment_inv] have [n] entries each and mirror each other. *)
Definition matching (n : nat) (asg inv : list Z) : Prop :=
  length asg = n /\ length inv = n
  /\ (forall i v, asg !! i = Some v ->
        v = (-1)%Z
        \/ ((0 <= v < Z.of_nat n)%Z /\ inv !! Z.to_nat v = Some (Z.of_nat i)))
  /\ (forall j u, inv !! j = Some u ->
        u = (-1)%Z
        \/ ((0 <= u < Z.of_nat n)%Z /\ asg !! Z.to_nat u = Some (Z.of_nat j))).

(** The auctions [emd_forward_spec] runs on the buffers [forward] creates
    for a batch of [b] sets of [n] points with coordinates [xs1], [xs2]:
    one result per batch element. *)
Definition solver_results (reg : nat -> nat -> F) (b n : nat) (eps : Q)
    (iters : Z) (xs1 xs2 : list F) : list (auction * list F) :=
  (fun bi =>
     auction_batch reg n (of_Q eps) (row (3 * n) bi xs1) (row (3 * n) bi xs2)
       (Z.to_nat iters)
       {| au_assignment := row n bi (replicate (numel [b; n]) (-1)%Z);
          au_assignment_inv := row n bi (replicate (numel [b; n]) (-1)%Z);
          au_price := row n bi (replicate (numel [b; n]) fzero);
          au_bid := row n bi (replicate (numel [b; n]) 0%Z);
          au_bid_increments := row n bi (replicate (numel [b; n]) fzero);
          au_max_increments := row n bi (replicate (numel [b; n]) fzero) |}
       (row n bi (replicate (numel [b; n]) fzero))) <$> seq 0 b.

(** The exception a run ends with, if any. *)
Definition error_of {A} (r : result A * world) : option exn :=
  match r with
  | (Err e, _) => Some e
  | (Ok _, _) => None
  end.

End WithScalar.

Arguments block_size : simpl never.
Arguments max_batch : simpl never.

(** * Concrete inputs

    Stores with integer-valued tensors on which the model is run, in a
    process that has not changed torch's default dtype. *)

#[global] Instance float32_defaults : TorchDefaults :=
  {| torch_default_dtype := Float32; torch_default_is_float := eq_refl |}.

Definition ex_points (v : Z) (b n : nat) (rg : bool) : tensor (F:=Z) :=
  {| t_dtype := Float32; t_device := Cuda; t_contig := true;
     t_requires_grad := rg; t_shape := [b; n; 3];
     t_data := FloatData (replicate (b * n * 3) v) |}.

(** One batch element of 1024 points: a valid input pair. *)
Definition ex_valid_world : world (F:=Z) :=
  {| heap := [ex_points 1 1 1024 true; ex_points 0 1 1024 false] |}.

(** 1024 points against 2048 points. *)
Definition ex_mismatch_world : world (F:=Z) :=
  {| heap := [ex_points 1 1 1024 true; ex_points 0 1 2048 false] |}.

(** Two batch elements against one. *)
Definition ex_batch_mismatch_world : world (F:=Z) :=
  {| heap := [ex_points 1 2 1024 true; ex_points 0 1 1024 false] |}.

(** A first input in double precision, in host memory, not contiguous and
    requiring a gradient, against a second input that needs no
    conversion. *)
Definition ex_double_points : tensor (F:=Z) :=
  {| t_dtype := Float64; t_device := Cpu; t_contig := false;
     t_requires_grad := true; t_shape := [1; 1024; 3];
     t_data := FloatData (replicate (1 * 1024 * 3) 1%Z) |}.
Definition ex_double_world : world (F:=Z) :=
  {| heap := [ex_double_points; ex_points 0 1 1024 false] |}.

(** 513 batch elements, one more than the maximum. *)
Definition ex_batch_world : world (F:=Z) :=
  {| heap := [ex_points 1 513 1024 true; ex_points 0 513 1024 false] |}.

Definition ex_ctx : ctx :=
  {| saved_tensors := []; needs_input_grad := [true; false; false; false] |}.

Definition ex_reg : nat -> nat -> Z := fun _ _ => 0%Z.

(** The state a forward call leaves for [backward] when every point [i] is
    matched to point [i], with an incoming gradient of 1 everywhere; both
    inputs require a gradient. *)
Definition ex_assignment : tensor (F:=Z) :=
  {| t_dtype := Int32; t_device := Cuda; t_contig := true;
     t_requires_grad := false; t_shape := [1; 1024];
     t_data := IntData (Z.of_nat <$> seq 0 1024) |}.

Definition ex_graddist : tensor (F:=Z) :=
  {| t_dtype := Float32; t_device := Cuda; t_contig := true;
     t_requires_grad := false; t_shape := [1; 1024];
     t_data := FloatData (replicate 1024 1%Z) |}.

Definition ex_backward_world : world (F:=Z) :=
  {| heap := [ex_points 1 1 1024 true; ex_points 0 1 1024 true;
              ex_assignment; ex_graddist] |}.

(** Three points, the first matched to point 2 and the third to point 0,
    with a [graddist] that is not contiguous. *)
Definition ex_small_backward_world : world (F:=Z) :=
  {| heap :=
       [ {| t_dtype := Float32; t_device := Cuda; t_contig := true;
            t_requires_grad := true; t_shape := [1; 3; 3];
            t_data := FloatData [1; 2; 3; 4; 5; 6; 7; 8; 9]%Z |};
         {| t_dtype := Float32; t_device := Cuda; t_contig := true;
            t_requires_grad := true; t_shape := [1; 3; 3];
            t_data := FloatData [0; 0; 0; 1; 1; 1; 2; 2; 2]%Z |};
         {| t_dtype := Int32; t_device := Cuda; t_contig := true;
            t_requires_grad := false; t_shape := [1; 3];
            t_data := IntData [2; -1; 0]%Z |};
         {| t_dtype := Float32; t_device := Cuda; t_contig := false;
            t_requires_grad := false; t_shape := [1; 3];
            t_data := FloatData [1; 10; 100]%Z |} ] |}.

(** Two empty point sets per batch element, two batch elements. *)
Definition ex_empty_world : world (F:=Z) :=
  {| heap := [ex_points 1 2 0 true; ex_points 0 2 0 false] |}.

(** Four points on a line against four shifted points, nothing assigned
    yet. *)
Definition ex_line1 : list Z := [0; 0; 0; 10; 0; 0; 20; 0; 0; 30; 0; 0]%Z.
Definition ex_line2 : list Z := [29; 0; 0; 1; 0; 0; 11; 0; 0; 19; 0; 0]%Z.
Definition ex_auction : auction (F:=Z) :=
  {| au_assignment := replicate 4 (-1)%Z;
     au_assignment_inv := replicate 4 (-1)%Z;
     au_price := replicate 4 0%Z; au_bid := replicate 4 0%Z;
     au_bid_increments := replicate 4 0%Z;
     au_max_increments := replicate 4 0%Z |}.

Definition ex_backward_ctx : ctx :=
  {| saved_tensors := [0; 1; 2];
     needs_input_grad := [true; true; false; false] |}.

(** * Further definitions for [loss.py] *)

(** A tensor that [x.contiguous().float().cuda()] returns as it is:
    contiguous, of dtype [torch.float32] and on the current CUDA device. *)
Definition ready {F : Type} (t : tensor (F:=F)) : bool :=
  t_contig t && bool_decide (t_dtype t = Float32)
  && bool_decide (t_device t = Cuda).

(** * Files, strings and logging

    [generate_train_data/log_analyzer.py] and the checkpoint functions of
    the training scripts read and write files and log records.  They are
    embedded in a state monad over the part of the operating system they
    touch; an exception ends the run and leaves the state as it was when
    it was raised. *)

(** The exceptions of the operating system and of the interpreter that
    this code can raise ([ReError] is [re.error]), and those that a torch
    operation raises. *)
Inductive py_error :=
  | FileNotFoundError
  | NotADirectoryError
  | IsADirectoryError
  | FileExistsError
  | AttributeError
  | TypeError
  | UnpicklingError
  | IndexError
  | ReError
  | TorchError (e : exn).

(** A call returns, raises, or (for a loop run on fuel) is cut off. *)
Inductive outcome (A : Type) :=
  | Done (a : A)
  | Raise (e : py_error)
  | OutOfFuel.
Arguments Done {A} a.
Arguments Raise {A} e.
Arguments OutOfFuel {A}.

Definition St (S A : Type) : Type := S -> outcome A * S.

#[global] Instance St_ret {S} : MRet (St S) := fun A a st => (Done a, st).
#[global] Instance St_bind {S} : MBind (St S) := fun A B f m st =>
  match m st with
  | (Done a, st') => f a st'
  | (Raise e, st') => (Raise e, st')
  | (OutOfFuel, st') => (OutOfFuel, st')
  end.

(** [raise e] *)
Definition throw {S A} (e : py_error) : St S A := fun st => (Raise e, st).

Definition newline : ascii := "010"%char.

(** [s.split(sep)] for a separator of one character. *)
Fixpoint split_on (sep : ascii) (s : string) : list string :=
  match s with
  | EmptyString => [EmptyString]
  | String c r =>
      if Ascii.eqb c sep then EmptyString :: split_on sep r
      else match split_on sep r with
           | p :: ps => String c p :: ps
           | [] => [String c EmptyString]
           end
  end.

(** [parts[-1]] and [parts[0]] of a list that [split] returned. *)
Definition last_part (parts : list string) : string :=
  default EmptyString (last parts).
Definition first_part (parts : list string) : string :=
  default EmptyString (head parts).

(** [f.readline()] on the text that is left: the line with its newline,
    and the rest. At the end of the file the line is empty. *)
Fixpoint readline (s : string) : string * string :=
  match s with
  | EmptyString => (EmptyString, EmptyString)
  | String c r =>
      if Ascii.eqb c newline then (String c EmptyString, r)
      else (String c (fst (readline r)), snd (readline r))
  end.

(** [c in s] *)
Fixpoint occurs (c : ascii) (s : string) : bool :=
  match s with
  | EmptyString => false
  | String a r => Ascii.eqb a c || occurs c r
  end.

(** ** [log_analyzer.py] *)

Module LogAnalyzer.

(** An entry of the directory: a file with its text as [open(.., 'r')]
    decodes it, or a directory. *)
Inductive dentry :=
  | RegularFile (text : string)
  | Directory.

(** The module's [logger]: [None] until the script configures it, then the
    records it has been given. *)
Definition logger : Type := option (list string).

(** [logger.info(msg)] *)
Definition logger_info (msg : string) : St logger unit :=
  fun lg => match lg with
            | Some records => (Done tt, Some (records ++ [msg]))
            | None => (Raise AttributeError, None)
            end.

Section Analyze.
(** [re.match(patten, line)] compiles the pattern first.  For a pattern
    that is no regular expression this raises, whatever the line is:
    [re_compile_error] gives the exception, [None] for a pattern that
    compiles.  [re_match] is the truth value of the result for a pattern
    that compiles. *)
Variable re_compile_error : string -> option py_error.
Variable re_match : string -> string -> bool.

Definition py_re_match (patten line : string) : St logger bool :=
  match re_compile_error patten with
  | Some e => throw e
  | None => mret (re_match patten line)
  end.

(** The loop [while line: ...] over one open file: [line] is the line read
    last and [rest] what the file still holds. *)
Fixpoint scan (fuel : nat) (filename patten line rest : string) (flag : bool)
  : St logger unit :=
  match fuel with
  | O => fun lg => (OutOfFuel, lg)
  | S fuel' =>
      if decide (line = EmptyString) then mret tt
      else
        matched ← py_re_match patten line;
        flag' ← (if (matched : bool) then
                   (if flag then mret tt
                    else logger_info EmptyString;; logger_info filename);;
                   logger_info (first_part (split_on newline line));;
                   mret true
                 else mret flag);
        scan fuel' filename patten (fst (readline rest)) (snd (readline rest))
          flag'
  end.

(** The body of [with open(...) as f]. *)
Definition analyze_file (filename patten text : string) : St logger unit :=
  scan (S (String.length text)) filename patten
    (fst (readline text)) (snd (readline text)) false.

(** [filename.split('.')[-1] == "log"] *)
Definition selected (filename : string) : bool :=
  bool_decide (last_part (split_on "." filename) = "log"%string).

(** [begin_analyze(log_dir, patten)], on the entries of [log_dir] in the
    order in which [os.listdir] returns them. *)
Fixpoint begin_analyze (log_dir : list (string * dentry)) (patten : string)
  : St logger unit :=
  match log_dir with
  | [] => mret tt
  | (filename, e) :: more =>
      (if negb (selected filename) then mret tt
       else match e with
            | Directory => throw IsADirectoryError
            | RegularFile text => analyze_file filename patten text
            end);;
      begin_analyze more patten
  end.

(** *** What a run reports

    A description of the records of a run that does not follow the loop:
    the lines of each selected file that match, under the name of the
    file. *)

(** The lines of a text, each with its newline. *)
Fixpoint lines (s : string) : list string :=
  match s with
  | EmptyString => []
  | String c r =>
      if Ascii.eqb c newline then String c EmptyString :: lines r
      else match lines r with
           | l :: ls => String c l :: ls
           | [] => [String c EmptyString]
           end
  end.

(** A line without its newline. *)
Fixpoint before_newline (s : string) : string :=
  match s with
  | EmptyString => EmptyString
  | String c r => if Ascii.eqb c newline then EmptyString
                  else String c (before_newline r)
  end.

(** The matching lines of a text. *)
Definition matches (patten text : string) : list string :=
  before_newline <$> filter (fun l => re_match patten l = true) (lines text).

(** The records for one file: none when no line matches, otherwise an
    empty record, the name of the file and the matching lines. *)
Definition file_report (filename patten text : string) : list string :=
  match matches patten text with
  | [] => []
  | ms => EmptyString :: filename :: ms
  end.

Definition entry_report (patten : string) (e : string * dentry) : list string :=
  match snd e with
  | RegularFile text =>
      if selected (fst e) then file_report (fst e) patten text else []
  | Directory => []
  end.

Definition report (log_dir : list (string * dentry)) (patten : string)
  : list string :=
  concat (entry_report patten <$> log_dir).

End Analyze.
End LogAnalyzer.


(** ** Checkpoints: [save_model] and [get_checkpoint]

    The two functions are the same in [train/PointAttN_C3d/train.py] and
    [train/SnowFlakeNet_C3d/train.py]. *)

Module Checkpoint.

(** A configuration value as [json.load] delivers it; a dictionary is a
    list of entries in which the first entry of a key is the one that
    counts. *)
#[warnings="-register-all"]
Inductive json :=
  | JNull
  | JBool (b : bool)
  | JInt (z : Z)
  | JFloat (q : Q)
  | JStr (s : string)
  | JList (l : list json)
  | JObj (kvs : list (string * json)).

(** [d.get(key)] on the entries of a dictionary: [None] without the
    key. *)
Fixpoint assoc (key : string) (kvs : list (string * json)) : json :=
  match kvs with
  | [] => JNull
  | (k, v) :: more => if String.eqb k key then v else assoc key more
  end.

(** [bool(v)] *)
Definition truthy (v : json) : bool :=
  match v with
  | JNull => false
  | JBool b => b
  | JInt z => negb (Z.eqb z 0)
  | JFloat q => negb (Qeq_bool q 0)
  | JStr s => negb (String.eqb s EmptyString)
  | JList l => match l with [] => false | _ => true end
  | JObj kvs => match kvs with [] => false | _ => true end
  end.

(** [s.startswith('/')] and [s.endswith('/')] *)
Definition starts_with_sep (s : string) : bool :=
  match s with
  | String c _ => Ascii.eqb c "/"
  | EmptyString => false
  end.

Fixpoint ends_with_sep (s : string) : bool :=
  match s with
  | EmptyString => false
  | String c EmptyString => Ascii.eqb c "/"
  | String _ r => ends_with_sep r
  end.

(** [posixpath.join(a, b)] on two strings. *)
Definition path_join (a b : string) : string :=
  if starts_with_sep b then b
  else if String.eqb a EmptyString || ends_with_sep a then a +:+ b
  else a +:+ String "/" b.

(** The name of the checkpoint file of an epoch,
    ["epoch_{}.pth".format(e)]. *)
Definition epoch_file (e : string) : string :=
  "epoch_" +:+ e +:+ ".pth".

(** A path component that names an entry: not empty, not [.] or [..],
    and without a separator. *)
Definition plain (name : string) : bool :=
  negb (occurs "/" name) && negb (String.eqb name EmptyString)
  && negb (String.eqb name ".") && negb (String.eqb name "..").

Section Model.
(** A state dictionary and the objects that have one. *)
Context {SD : Type} {Obj : Type}.
Variable state_dict : Obj -> SD.

(** The dictionary [save_model] stores. *)
Record checkpoint := {
  ck_epoch : Z;
  ck_model : SD;
  ck_lr_schedule : SD;
  ck_optimizer : SD
}.

(** What [torch.load] makes of a stored checkpoint for a [map_location]. *)
Variable torch_map : string -> checkpoint -> outcome checkpoint.
(** [str(v)] of a float, a list or a dictionary. *)
Variable py_repr : json -> string.

Inductive file_data :=
  | Pickled (ck : checkpoint)
  | Raw (bytes : string).

Inductive fnode :=
  | FDir
  | FFile (data : file_data).

(** The file system, keyed by the components of absolute paths (there are
    no symbolic links, and every entry may be read and written); the
    working directory; the records of the module's logger, which is [None]
    until it is configured. *)
Record os_state := {
  fs : gmap (list string) fnode;
  cwd : list string;
  log : option (list string)
}.

Definition with_fs (st : os_state) (f : gmap (list string) fnode) : os_state :=
  {| fs := f; cwd := cwd st; log := log st |}.

Definition logger_info (msg : string) : St os_state unit :=
  fun st => match log st with
            | Some records =>
                (Done tt, {| fs := fs st; cwd := cwd st;
                             log := Some (records ++ [msg]) |})
            | None => (Raise AttributeError, st)
            end.

(** [d.get(key)]; only a dictionary has the method. *)
Definition py_get (d : json) (key : string) : St os_state json :=
  match d with
  | JObj kvs => mret (assoc key kvs)
  | _ => throw AttributeError
  end.

(** [str(v)], as [format] inserts it. *)
Definition py_str (v : json) : string :=
  match v with
  | JNull => "None"
  | JBool true => "True"
  | JBool false => "False"
  | JInt z => pretty z
  | JStr s => s
  | _ => py_repr v
  end.

(** [os.path.join(a, b)]: both arguments have to be strings. *)
Definition os_path_join (a b : json) : St os_state string :=
  match a, b with
  | JStr a, JStr b => mret (path_join a b)
  | _, _ => throw TypeError
  end.

(** Path resolution.  An empty component or [.] stays, [..] goes up, a
    name goes down; going on from a place requires a directory there. *)
Fixpoint walk (f : gmap (list string) fnode) (cur : list string)
    (comps : list string) : outcome (list string) :=
  match comps with
  | [] => Done cur
  | c :: cs =>
      if String.eqb c EmptyString then walk f cur cs
      else match f !! cur with
           | Some FDir =>
               walk f (if String.eqb c "." then cur
                       else if String.eqb c ".." then removelast cur
                       else cur ++ [c]) cs
           | Some (FFile _) => Raise NotADirectoryError
           | None => Raise FileNotFoundError
           end
  end.

Definition resolve (st : os_state) (path : string) : outcome (list string) :=
  if String.eqb path EmptyString then Raise FileNotFoundError
  else walk (fs st) (if starts_with_sep path then [] else cwd st)
         (split_on "/" path).

(** [os.path.isdir(path)] *)
Definition os_path_isdir (path : string) : St os_state bool :=
  fun st => match resolve st path with
            | Done p =>
                (Done match fs st !! p with Some FDir => true | _ => false end,
                 st)
            | _ => (Done false, st)
            end.

(** [os.mkdir(path)]: one directory, in a directory that exists. *)
Definition os_mkdir (path : string) : St os_state unit :=
  fun st => match resolve st path with
            | Done p =>
                match fs st !! p with
                | Some _ => (Raise FileExistsError, st)
                | None =>
                    match fs st !! removelast p with
                    | Some FDir => (Done tt, with_fs st (<[p := FDir]> (fs st)))
                    | Some (FFile _) => (Raise NotADirectoryError, st)
                    | None => (Raise FileNotFoundError, st)
                    end
                end
            | Raise e => (Raise e, st)
            | OutOfFuel => (OutOfFuel, st)
            end.

(** [torch.save(ck, path)] *)
Definition torch_save (ck : checkpoint) (path : string) : St os_state unit :=
  fun st => match resolve st path with
            | Done p =>
                match fs st !! p with
                | Some FDir => (Raise IsADirectoryError, st)
                | _ =>
                    match fs st !! removelast p with
                    | Some FDir =>
                        (Done tt,
                         with_fs st (<[p := FFile (Pickled ck)]> (fs st)))
                    | Some (FFile _) => (Raise NotADirectoryError, st)
                    | None => (Raise FileNotFoundError, st)
                    end
                end
            | Raise e => (Raise e, st)
            | OutOfFuel => (OutOfFuel, st)
            end.

(** [torch.load(path, map_location=ml)] *)
Definition torch_load (path ml : string) : St os_state checkpoint :=
  fun st => match resolve st path with
            | Done p =>
                match fs st !! p with
                | Some (FFile (Pickled ck)) => (torch_map ml ck, st)
                | Some (FFile (Raw _)) => (Raise UnpicklingError, st)
                | Some FDir => (Raise IsADirectoryError, st)
                | None => (Raise FileNotFoundError, st)
                end
            | Raise e => (Raise e, st)
            | OutOfFuel => (OutOfFuel, st)
            end.

(** [save_model(specs, model, lr_schedule, optimizer, epoch)] *)
Definition save_model (specs : json) (model lr_schedule optimizer : Obj)
    (epoch : Z) : St os_state unit :=
  para_save_dir ← py_get specs "ParaSaveDir";
  tag ← py_get specs "TAG";
  para_save_path ← os_path_join para_save_dir tag;
  isdir ← os_path_isdir para_save_path;
  (if negb isdir then os_mkdir para_save_path else mret tt);;
  let checkpoint :=
    {| ck_epoch := epoch; ck_model := state_dict model;
       ck_lr_schedule := state_dict lr_schedule;
       ck_optimizer := state_dict optimizer |} in
  let checkpoint_filename :=
    path_join para_save_path (epoch_file (pretty epoch)) in
  torch_save checkpoint checkpoint_filename.

(** [get_checkpoint(specs)] *)
Definition get_checkpoint (specs : json) : St os_state (option checkpoint) :=
  device ← py_get specs "Device";
  train_options ← py_get specs "TrainOptions";
  continue_train ← py_get train_options "ContinueTrain";
  if negb (truthy continue_train) then mret None
  else
    train_options ← py_get specs "TrainOptions";
    continue_from_epoch ← py_get train_options "ContinueFromEpoch";
    para_save_dir ← py_get specs "ParaSaveDir";
    tag ← py_get specs "TAG";
    para_save_path ← os_path_join para_save_dir tag;
    let checkpoint_path :=
      path_join para_save_path (epoch_file (py_str continue_from_epoch)) in
    logger_info ("load checkpoint from " +:+ checkpoint_path);;
    checkpoint ← torch_load checkpoint_path ("cuda:" +:+ py_str device);
    mret (Some checkpoint).

End Model.
End Checkpoint.

(** ** The tree decoder of [networks/models.py]

    [TopNet_decoder] is the same class in [networks/models.py] and in
    [networks/model_Transformer_TopNet_1obj_no_ibs.py], up to the default
    value of [arch].  Tensors are kept abstract; a module of the tree is
    the function it computes, and may raise. *)

#[global] Instance outcome_ret : MRet outcome := @Done.
#[global] Instance outcome_bind : MBind outcome := fun A B f m =>
  match m with
  | Done a => f a
  | Raise e => Raise e
  | OutOfFuel => OutOfFuel
  end.

Module TopNet.
Section Decoder.
Context {T : Type}.

(** A module ([mlp] or [final_mlp]) as its [forward]. *)
Definition net : Type := T -> outcome T.

(** [torch.cat(tensors, dim)] *)
Variable torch_cat : list T -> nat -> outcome T.
(** [mlp(in_num, out_num)] and [final_mlp(in_num, out_num)]: every call
    creates a module with weights of its own, so the modules of a class
    are told apart by the number of modules the class created before. *)
Variable mlp : nat -> nat -> nat -> net.
Variable final_mlp : nat -> nat -> nat -> net.

Record decoder := {
  arch : list Z;
  level_num : nat;
  level_1 : list net;
  level_2 : list net;
  level_3 : list net;
  level_4 : list net
}.

(** [arch[k]] *)
Definition item (arch : list Z) (k : nat) : outcome Z :=
  match arch !! k with
  | Some a => Done a
  | None => Raise IndexError
  end.

(** [for _ in range(n): level.append(make(..))], when [created] modules
    exist already. *)
Definition modules (make : nat -> net) (created : nat) (n : Z) : list net :=
  make <$> seq created (Z.to_nat n).

(** [TopNet_decoder.__init__] *)
Definition init (arch : list Z) : outcome decoder :=
  a0 ← item arch 0;
  let level_1 := modules (mlp 512 8) 0 a0 in
  a1 ← item arch 1;
  let level_2 := modules (mlp (512 + 8) 8) (length level_1) a1 in
  a2 ← item arch 2;
  let level_3 :=
    modules (mlp (512 + 8) 8) (length level_1 + length level_2) a2 in
  a3 ← item arch 3;
  let level_4 := modules (final_mlp (512 + 8) 3) 0 a3 in
  mret {| arch := arch; level_num := length arch;
          level_1 := level_1; level_2 := level_2;
          level_3 := level_3; level_4 := level_4 |}.

(** The body of the first three loops, [torch.cat([net(feat), x], dim=1)],
    and of the last one, [net(feat)]. *)
Definition node (x : T) (n : net) (feat : T) : outcome T :=
  y ← n feat; torch_cat [y; x] 1.
Definition leaf (n : net) (feat : T) : outcome T := n feat.

(** [for net in level: features.append(body(net, feat))] *)
Fixpoint children (body : net -> T -> outcome T) (level : list net)
    (feat : T) : outcome (list T) :=
  match level with
  | [] => mret []
  | n :: more =>
      c ← body n feat;
      cs ← children body more feat;
      mret (c :: cs)
  end.

(** [for feat in features: for net in level: ...] *)
Fixpoint expand (body : net -> T -> outcome T) (level : list net)
    (features : list T) : outcome (list T) :=
  match features with
  | [] => mret []
  | feat :: more =>
      cs ← children body level feat;
      rest ← expand body level more;
      mret (cs ++ rest)
  end.

(** [TopNet_decoder.forward] *)
Definition forward (d : decoder) (x : T) : outcome T :=
  features_1 ← children (node x) (level_1 d) x;
  features_2 ← expand (node x) (level_2 d) features_1;
  features_3 ← expand (node x) (level_3 d) features_2;
  features_4 ← expand leaf (level_4 d) features_3;
  torch_cat features_4 2.

End Decoder.

(** The default [arch] of [networks/models.py] and of
    [networks/model_Transformer_TopNet_1obj_no_ibs.py]. *)
Definition default_arch : list Z := [4; 4; 8; 8]%Z.
Definition default_arch_no_ibs : list Z := [4; 8; 8; 8]%Z.

End TopNet.

(** ** Concrete inputs for the log analyzer and the checkpoints *)

(** [re.match] for a pattern without special characters: the line starts
    with the pattern.  The pattern [(] is no regular expression, the other
    patterns used below compile. *)
Definition literal_match (patten line : string) : bool :=
  String.prefix patten line.
Definition ex_compile_error (patten : string) : option py_error :=
  if String.eqb patten "(" then Some ReError else None.

(** A text from its lines. *)
Definition ex_text (ls : list string) : string :=
  fold_right (fun l r => l +:+ String newline r) EmptyString ls.

(** Two log files, one of them without a matching line, a file that is no
    log file, and a directory whose name does not end in [.log]. *)
Definition ex_log_dir : list (string * LogAnalyzer.dentry) :=
  [ ("a.log"%string,
     LogAnalyzer.RegularFile (ex_text ["ERROR x"; "ok"; "ERROR y"]%string));
    ("b.txt"%string, LogAnalyzer.RegularFile (ex_text ["ERROR z"%string]));
    ("old.log"%string, LogAnalyzer.RegularFile (ex_text ["fine"%string]));
    ("logs"%string, LogAnalyzer.Directory) ].

(** An empty log file and a file that is no log file. *)
Definition ex_log_empty : list (string * LogAnalyzer.dentry) :=
  [ ("empty.log"%string, LogAnalyzer.RegularFile EmptyString);
    ("b.txt"%string, LogAnalyzer.RegularFile (ex_text ["ERROR z"%string])) ].

(** A log file after a directory whose name ends in [.log]. *)
Definition ex_log_after : list (string * LogAnalyzer.dentry) :=
  [ ("z.log"%string, LogAnalyzer.RegularFile (ex_text ["ERROR w"%string])) ].

(** Objects are named, and the state dictionary of an object is its name
    with a mark; [torch.load] returns what was stored. *)
Definition ex_state_dict (o : string) : string := "state of " +:+ o.
Definition ex_torch_map (ml : string)
    (ck : Checkpoint.checkpoint (SD:=string))
  : outcome (Checkpoint.checkpoint (SD:=string)) := Done ck.
Definition ex_py_repr (v : Checkpoint.json) : string := "?".

(** A configuration that continues the run [run1] from epoch 3. *)
Definition ex_config : list (string * Checkpoint.json) :=
  [ ("Device"%string, Checkpoint.JInt 0);
    ("ParaSaveDir"%string, Checkpoint.JStr "ckpt");
    ("TAG"%string, Checkpoint.JStr "run1");
    ("TrainOptions"%string,
     Checkpoint.JObj [ ("ContinueTrain"%string, Checkpoint.JBool true);
                       ("ContinueFromEpoch"%string, Checkpoint.JInt 3) ]) ].

(** A file system with the directory [/home/ckpt], seen from [/home], and
    a logger without records. *)
Definition ex_os : Checkpoint.os_state (SD:=string) :=
  {| Checkpoint.fs :=
       {[ [] := Checkpoint.FDir; ["home"%string] := Checkpoint.FDir;
          ["home"; "ckpt"]%string := Checkpoint.FDir ]};
     Checkpoint.cwd := ["home"%string];
     Checkpoint.log := Some [] |}.

(** The same without [/home/ckpt]. *)
Definition ex_os_bare : Checkpoint.os_state (SD:=string) :=
  {| Checkpoint.fs :=
       {[ [] := Checkpoint.FDir; ["home"%string] := Checkpoint.FDir ]};
     Checkpoint.cwd := ["home"%string];
     Checkpoint.log := Some [] |}.
(** [ex_os] with the directory of the run, and no checkpoint in it. *)
Definition ex_os_run : Checkpoint.os_state (SD:=string) :=
  {| Checkpoint.fs :=
       {[ [] := Checkpoint.FDir; ["home"%string] := Checkpoint.FDir;
          ["home"; "ckpt"]%string := Checkpoint.FDir;
          ["home"; "ckpt"; "run1"]%string := Checkpoint.FDir ]};
     Checkpoint.cwd := ["home"%string];
     Checkpoint.log := Some [] |}.

(** [ex_os] after the checkpoint of epoch 3 is saved, and after the one
    of epoch 4 is saved as well. *)
Definition ex_os_saved : Checkpoint.os_state (SD:=string) :=
  snd (Checkpoint.save_model ex_state_dict (Checkpoint.JObj ex_config)
         "net" "sched" "adam" 3%Z ex_os).
Definition ex_os_saved_twice : Checkpoint.os_state (SD:=string) :=
  snd (Checkpoint.save_model ex_state_dict (Checkpoint.JObj ex_config)
         "net4" "sched4" "adam4" 4%Z ex_os_saved).

(** The checkpoint of epoch 3, and the state after it is loaded again. *)
Definition ex_checkpoint : Checkpoint.checkpoint (SD:=string) :=
  {| Checkpoint.ck_epoch := 3%Z;
     Checkpoint.ck_model := "state of net"%string;
     Checkpoint.ck_lr_schedule := "state of sched"%string;
     Checkpoint.ck_optimizer := "state of adam"%string |}.
Definition ex_os_loaded : Checkpoint.os_state (SD:=string) :=
  snd (Checkpoint.get_checkpoint ex_torch_map ex_py_repr
         (Checkpoint.JObj ex_config) ex_os_saved).

(** ** Concrete inputs for the tree decoder

    Tensors as their shapes.  [Conv1d(in, out, 1)] maps [(b, in, l)] to
    [(b, out, l)], [relu] keeps the shape, and [mlp] and [final_mlp] are
    three convolutions through 256 and 64 channels. *)
Definition ex_conv1d (in_channels out_channels : nat) (shape : list nat)
  : outcome (list nat) :=
  match shape with
  | [b; c; l] =>
      if Nat.eqb c in_channels then Done [b; out_channels; l]
      else Raise (TorchError RuntimeError)
  | [c; l] =>
      if Nat.eqb c in_channels then Done [out_channels; l]
      else Raise (TorchError RuntimeError)
  | _ => Raise (TorchError RuntimeError)
  end.

Definition ex_mlp (in_num out_num created : nat) : TopNet.net (T:=list nat) :=
  fun shape =>
    s1 ← ex_conv1d in_num 256 shape;
    s2 ← ex_conv1d 256 64 s1;
    ex_conv1d 64 out_num s2.

(** [torch.cat] on shapes that agree outside [dim]. *)
Definition ex_cat (shapes : list (list nat)) (dim : nat)
  : outcome (list nat) :=
  match shapes with
  | [] => Raise (TorchError RuntimeError)
  | s :: _ =>
      if forallb (fun u => bool_decide (dim < length u)
                           && bool_decide (<[dim := 0]> u = <[dim := 0]> s))
           shapes
      then Done (<[dim := sum_list ((fun u => default 0 (u !! dim))
                                    <$> shapes)]> s)
      else Raise (TorchError RuntimeError)
  end.

(** The decoder of [model_Transformer_TopNet_1obj_no_ibs.py] with its
    default [arch], and a feature of two batch elements. *)
Definition ex_decoder : TopNet.decoder (T:=list nat) :=
  match TopNet.init ex_mlp ex_mlp TopNet.default_arch_no_ibs with
  | Done d => d
  | _ => {| TopNet.arch := []; TopNet.level_num := 0;
            TopNet.level_1 := []; TopNet.level_2 := [];
            TopNet.level_3 := []; TopNet.level_4 := [] |}
  end.
Definition ex_feature : list nat := [2; 512; 1].

(** * Properties *)

Section Proofs.
Context {F : Type} `{Scalar F} `{TorchDefaults}.
Implicit Types (t : tensor (F:=F)) (h ext : list (tensor (F:=F))).
Implicit Types (w : world (F:=F)) (l : loc).

(** ** Running the monad *)

Lemma run_bind {A B} (m : M A) (f : A -> M B) w :
  run (m ≫= f) w =
  match run m w with
  | (Ok a, w') => run (f a) w'
  | (Err e, w') => (Err e, w')
  end.
Proof. reflexivity. Qed.

Lemma run_ret {A} (a : A) w : run (mret a) w = (Ok a, w).
Proof. reflexivity. Qed.

Lemma run_deref l t h :
  h !! l = Some t -> run (deref l) {| heap := h |} = (Ok t, {| heap := h |}).
Proof. intros E. unfold run, deref. cbn. by rewrite E. Qed.

Lemma run_alloc t h :
  run (alloc t) {| heap := h |} = (Ok (length h), {| heap := h ++ [t] |}).
Proof. reflexivity. Qed.

Lemma lookup_fresh h t : (h ++ [t]) !! length h = Some t.
Proof. rewrite lookup_app_r by lia. by rewrite Nat.sub_diag. Qed.

Lemma run_size3 l t h b n c :
  h !! l = Some t -> t_shape t = [b; n; c] ->
  run (size3 l) {| heap := h |} = (Ok (b, n), {| heap := h |}).
Proof.
  intros E S. unfold size3. rewrite run_bind, (run_deref _ _ _ E).
  by rewrite S.
Qed.

Lemma run_convert ok f l t h :
  h !! l = Some t ->
  exists l' ext,
    run (convert ok f l) {| heap := h |} = (Ok l', {| heap := h ++ ext |})
    /\ (h ++ ext) !! l' = Some (if ok t then t else f t).
Proof.
  intros E. unfold convert. rewrite run_bind, (run_deref _ _ _ E).
  destruct (ok t).
  - exists l, []. rewrite app_nil_r. by rewrite run_ret.
  - exists (length h), [f t]. split; [apply run_alloc | apply lookup_fresh].
Qed.

Lemma run_conv l t h :
  h !! l = Some t ->
  exists l' ext,
    run (x ← contiguous l; x ← float_ x; cuda x) {| heap := h |}
    = (Ok l', {| heap := h ++ ext |})
    /\ (h ++ ext) !! l' = Some (conv t).
Proof.
  intros E.
  destruct (run_convert t_contig as_contiguous l t h E) as (l1 & e1 & R1 & E1).
  destruct (run_convert (fun t => bool_decide (t_dtype t = Float32)) as_float
              l1 _ _ E1) as (l2 & e2 & R2 & E2).
  destruct (run_convert (fun t => bool_decide (t_device t = Cuda)) as_cuda
              l2 _ _ E2) as (l3 & e3 & R3 & E3).
  exists l3, (e1 ++ e2 ++ e3).
  rewrite !app_assoc. split; [|exact E3].
  rewrite run_bind. unfold contiguous. rewrite R1.
  rewrite run_bind. unfold float_. rewrite R2. exact R3.
Qed.

Lemma run_zeros shape dev dt h :
  run (z ← torch_zeros shape dev dt; contiguous z) {| heap := h |}
  = (Ok (length h), {| heap := h ++ [zeros_tensor shape dev dt] |}).
Proof.
  unfold torch_zeros. rewrite run_bind, run_alloc.
  unfold contiguous, convert.
  by rewrite run_bind, (run_deref _ _ _ (lookup_fresh _ _)).
Qed.

Lemma run_zeros_minus shape dev dt k h :
  run (z ← torch_zeros shape dev dt; z ← contiguous z; sub_scalar z k)
      {| heap := h |}
  = (Ok (length h + 1),
     {| heap := h ++ [zeros_tensor shape dev dt;
                      minus_scalar k (zeros_tensor shape dev dt)] |}).
Proof.
  unfold torch_zeros. rewrite run_bind, run_alloc.
  unfold contiguous, convert.
  rewrite run_bind, run_bind, (run_deref _ _ _ (lookup_fresh _ _)).
  cbn [t_contig zeros_tensor]. rewrite run_ret.
  unfold sub_scalar.
  rewrite run_bind, (run_deref _ _ _ (lookup_fresh _ _)), run_alloc.
  by rewrite length_app, <- app_assoc.
Qed.

(** ** [forward] up to the call of the kernel *)

Lemma run_assert_true w : run (py_assert true) w = (Ok tt, w).
Proof. reflexivity. Qed.

(** With inputs that pass the four assertions, [forward] converts the two
    inputs, creates [solver_buffers] and enters the kernel. *)
Lemma forward_enters_kernel l1 l2 h t1 t2 b n c1 c2 :
  h !! l1 = Some t1 -> h !! l2 = Some t2 ->
  t_shape t1 = [b; n; c1] -> t_shape t2 = [b; n; c2] ->
  n mod block_size = 0 -> b <= max_batch ->
  exists x1 x2 ext,
    (forall c eps iters,
       enters_kernel c l1 l2 eps iters {| heap := h |}
         (solver_args x1 x2 (length (h ++ ext))) eps iters
         {| heap := (h ++ ext) ++ solver_buffers b n n |})
    /\ (h ++ ext) !! x1 = Some (conv t1)
    /\ (h ++ ext) !! x2 = Some (conv t2).
Proof.
  intros E1 E2 S1 S2 Hn Hb.
  destruct (run_conv l1 t1 h E1) as (x1 & e1 & R1 & X1).
  destruct (run_conv l2 t2 (h ++ e1) (lookup_app_l_Some _ _ _ _ E2))
    as (x2 & e2 & R2 & X2).
  exists x1, x2, (e1 ++ e2). rewrite app_assoc.
  split; [|split; [by apply lookup_app_l_Some | exact X2]].
  intros c eps iters emd. unfold emdFunction_forward.
  rewrite run_bind, (run_size3 _ _ _ _ _ _ E1 S1).
  rewrite run_bind, (run_size3 _ _ _ _ _ _ E2 S2).
  rewrite Nat.eqb_refl, Nat.eqb_refl, Hn, Nat.eqb_refl, (leb_correct _ _ Hb).
  do 4 (rewrite run_bind, run_assert_true).
  rewrite run_bind, R1. rewrite run_bind, R2.
  set (k := (h ++ e1) ++ e2).
  rewrite run_bind, run_zeros.
  rewrite run_bind, run_zeros_minus.
  rewrite run_bind, run_zeros_minus.
  do 9 (rewrite run_bind, run_zeros).
  rewrite run_bind.
  repeat rewrite <- (app_assoc k). cbn [app].
  rewrite !length_app. cbn [length].
  replace (length k + 1 + 1) with (length k + 2) by lia.
  replace (length k + 3 + 1) with (length k + 4) by lia.
  unfold solver_args, solver_buffers.
  reflexivity.
Qed.

Lemma lookup_app_add h ext i : (h ++ ext) !! (length h + i) = ext !! i.
Proof. rewrite lookup_app_r by lia. f_equal. lia. Qed.

Lemma numel2 (b n : nat) : numel [b; n] = b * n.
Proof. unfold numel. cbn [foldr]. lia. Qed.

(** ** The assertions of [forward] *)

(** Any violated assertion ends [forward] with [AssertionError()] in the
    store it was started in. *)
Lemma forward_checks_fail emd c l1 l2 eps iters w t1 t2 b1 n c1 b2 m c2 :
  heap w !! l1 = Some t1 -> heap w !! l2 = Some t2 ->
  t_shape t1 = [b1; n; c1] -> t_shape t2 = [b2; m; c2] ->
  n <> m \/ b1 <> b2 \/ n mod block_size <> 0 \/ max_batch < b1 ->
  run (emdFunction_forward emd c l1 l2 eps iters) w
  = (Err (AssertionError None), w).
Proof.
  destruct w as [h]. cbn [heap]. intros E1 E2 S1 S2 Hbad.
  unfold emdFunction_forward.
  rewrite run_bind, (run_size3 _ _ _ _ _ _ E1 S1).
  rewrite run_bind, (run_size3 _ _ _ _ _ _ E2 S2).
  rewrite run_bind.
  destruct (Nat.eqb_spec n m) as [->|Hnm]; [|reflexivity].
  rewrite run_assert_true, run_bind.
  destruct (Nat.eqb_spec b1 b2) as [->|Hbb]; [|reflexivity].
  rewrite run_assert_true, run_bind.
  destruct (Nat.eqb_spec (m mod block_size) 0) as [Hm|Hm]; [|reflexivity].
  rewrite run_assert_true, run_bind.
  destruct (Nat.leb_spec b2 max_batch) as [Hb|Hb]; [|reflexivity].
  exfalso. destruct Hbad as [?|[?|[?|?]]]; try done; lia.
Qed.

(** C4: inputs that violate a shape precondition (N differs, the batch
    dimensions differ, N is not a multiple of 1024, or the batch size
    exceeds 512) make [forward] fail with the store exactly as it was:
    no buffer has been allocated, the kernel has not run, and no result
    is returned. *)
Theorem forward_fails_before_allocation
    emd c l1 l2 eps iters w t1 t2 b1 n c1 b2 m c2 :
  heap w !! l1 = Some t1 -> heap w !! l2 = Some t2 ->
  t_shape t1 = [b1; n; c1] -> t_shape t2 = [b2; m; c2] ->
  n <> m \/ b1 <> b2 \/ n mod block_size <> 0 \/ max_batch < b1 ->
  exists e,
    run (emdFunction_forward emd c l1 l2 eps iters) w = (Err e, w).
Proof.
  intros. exists (AssertionError None). by eapply forward_checks_fail.
Qed.

(** C5 (amended): every violation of a precondition (a mismatch of N, a
    mismatch of the batch size, an N that is not a multiple of the block
    size, a batch size above the maximum) is signalled by the same
    exception, [AssertionError()] without a message: for any two calls
    that each violate some precondition, whichever it is, the exceptions
    coincide, so the exception does not tell the failure modes apart. *)
Theorem forward_errors_coincide
    emd c l1 l2 eps iters w t1 t2 b1 n c1 b2 m c2
    c' l1' l2' eps' iters' w' t1' t2' b1' n' c1' b2' m' c2' :
  heap w !! l1 = Some t1 -> heap w !! l2 = Some t2 ->
  t_shape t1 = [b1; n; c1] -> t_shape t2 = [b2; m; c2] ->
  n <> m \/ b1 <> b2 \/ n mod block_size <> 0 \/ max_batch < b1 ->
  heap w' !! l1' = Some t1' -> heap w' !! l2' = Some t2' ->
  t_shape t1' = [b1'; n'; c1'] -> t_shape t2' = [b2'; m'; c2'] ->
  n' <> m' \/ b1' <> b2' \/ n' mod block_size <> 0 \/ max_batch < b1' ->
  error_of (run (emdFunction_forward emd c l1 l2 eps iters) w)
  = Some (AssertionError None)
  /\ error_of (run (emdFunction_forward emd c' l1' l2' eps' iters') w')
     = Some (AssertionError None)
  /\ error_of (run (emdFunction_forward emd c l1 l2 eps iters) w)
     = error_of (run (emdFunction_forward emd c' l1' l2' eps' iters') w').
Proof.
  intros E1 E2 S1 S2 Hbad E1' E2' S1' S2' Hbad'.
  erewrite !forward_checks_fail by done. done.
Qed.

(** ** The state at the call of the kernel *)

Lemma minus_one_zeros (k : nat) :
  (fun z => wrap32 (z - 1)) <$> replicate k 0%Z = replicate k (-1)%Z.
Proof. by rewrite fmap_replicate. Qed.


Lemma conv_shape t : t_shape (conv t) = t_shape t.
Proof.
  unfold conv. repeat case_bool_decide; destruct (t_contig t); done.
Qed.

Lemma conv_float_data t :
  tensor_ok t = true -> exists xs, t_data (conv t) = FloatData xs.
Proof.
  unfold conv, tensor_ok. intros Hok.
  repeat case_bool_decide; destruct (t_contig t); cbn in *;
    destruct (t_data t), (t_dtype t); cbn in *; try done; eauto.
Qed.

(** C7: when the kernel is entered, before any round has run,
    [assignment] is -1 at each of the batch x N entries, [assignment_inv]
    is -1 at each of the batch x N entries of set B, and [price] is zero
    at each of them. *)
Theorem forward_initial_state c l1 l2 eps iters w t1 t2 b n c1 c2 :
  heap w !! l1 = Some t1 -> heap w !! l2 = Some t2 ->
  t_shape t1 = [b; n; c1] -> t_shape t2 = [b; n; c2] ->
  n mod block_size = 0 -> b <= max_batch ->
  exists a w1 ta ti tp,
    enters_kernel c l1 l2 eps iters w a eps iters w1
    /\ heap w1 !! ka_assignment a = Some ta
    /\ t_shape ta = [b; n]
    /\ t_data ta = IntData (replicate (b * n) (-1)%Z)
    /\ heap w1 !! ka_assignment_inv a = Some ti
    /\ t_shape ti = [b; n]
    /\ t_data ti = IntData (replicate (b * n) (-1)%Z)
    /\ heap w1 !! ka_price a = Some tp
    /\ t_shape tp = [b; n]
    /\ t_data tp = FloatData (replicate (b * n) fzero).
Proof.
  destruct w as [h]. cbn [heap]. intros E1 E2 S1 S2 Hn Hb.
  destruct (forward_enters_kernel l1 l2 h t1 t2 b n c1 c2)
    as (x1 & x2 & ext & K & _); try done.
  eexists _, _, _, _, _. split; [apply K|].
  cbn [heap solver_args ka_assignment ka_assignment_inv ka_price].
  rewrite !lookup_app_add.
  cbn [solver_buffers lookup list_lookup].
  rewrite <- (numel2 b n).
  repeat (split; [reflexivity|]); repeat split;
    cbn -[wrap32 numel replicate];
    by rewrite ?minus_one_zeros, ?torch_default_is_float.
Qed.



Lemma run_apply emd l1 l2 eps iters w t1 t2 :
  heap w !! l1 = Some t1 -> heap w !! l2 = Some t2 ->
  run (emdFunction_apply emd l1 l2 eps iters) w
  = run (emdFunction_forward emd
           {| saved_tensors := [];
              needs_input_grad :=
                [t_requires_grad t1; t_requires_grad t2; false; false] |}
           l1 l2 eps iters) w.
Proof.
  destruct w as [h]. cbn [heap]. intros E1 E2. unfold emdFunction_apply.
  by rewrite run_bind, (run_deref _ _ _ E1), run_bind, (run_deref _ _ _ E2).
Qed.

(** C8: called without [eps] and [iters], [emdModule.forward] enters the
    kernel with [eps = 0.005] and [iters = 50]; called with values for
    them, it enters the kernel with exactly these values. *)
Theorem module_forward_parameters l1 l2 w t1 t2 b n c1 c2 :
  heap w !! l1 = Some t1 -> heap w !! l2 = Some t2 ->
  t_shape t1 = [b; n; c1] -> t_shape t2 = [b; n; c2] ->
  n mod block_size = 0 -> b <= max_batch ->
  exists c a w1,
    (forall emd : emd_ext,
       run (emdModule_forward emd l1 l2 None None) w
       = run (emdFunction_forward emd c l1 l2 (5 # 1000)%Q 50%Z) w)
    /\ enters_kernel c l1 l2 (5 # 1000)%Q 50%Z w a (5 # 1000)%Q 50%Z w1
    /\ forall (eps : Q) (iters : Z),
         (forall emd : emd_ext,
            run (emdModule_forward emd l1 l2 (Some eps) (Some iters)) w
            = run (emdFunction_forward emd c l1 l2 eps iters) w)
         /\ enters_kernel c l1 l2 eps iters w a eps iters w1.
Proof.
  intros E1 E2 S1 S2 Hn Hb.
  destruct w as [h]. cbn [heap] in *.
  destruct (forward_enters_kernel l1 l2 h t1 t2 b n c1 c2)
    as (x1 & x2 & ext & K & _); try done.
  eexists _, _, _.
  split; [|split; [apply K|]].
  - intros emd. unfold emdModule_forward. by apply run_apply.
  - intros eps iters. split; [|apply K].
    intros emd. unfold emdModule_forward. by apply run_apply.
Qed.

(** ** The auction keeps the matching consistent *)

Lemma matching_init n :
  matching n (replicate n (-1)%Z) (replicate n (-1)%Z).
Proof.
  unfold matching. rewrite !length_replicate. repeat split.
  - intros i v [-> _]%lookup_replicate. by left.
  - intros i v [-> _]%lookup_replicate. by left.
Qed.

Lemma matching_range n asg inv i v :
  matching n asg inv -> asg !! i = Some v ->
  v = (-1)%Z \/ (0 <= v < Z.of_nat n)%Z.
Proof. intros (_ & _ & Ha & _) E. destruct (Ha i v E) as [|[? _]]; auto. Qed.

Lemma matching_injective n asg inv i1 i2 v :
  matching n asg inv -> asg !! i1 = Some v -> asg !! i2 = Some v ->
  v <> (-1)%Z -> i1 = i2.
Proof.
  intros (_ & _ & Ha & _) E1 E2 Hv.
  destruct (Ha i1 v E1) as [|[_ I1]]; [done|].
  destruct (Ha i2 v E2) as [|[_ I2]]; [done|].
  rewrite I1 in I2. injection I2. lia.
Qed.

(** The previous occupant of [j] is vacated. *)
Lemma vacate_lookup (asg inv : list Z) j i0 :
  match inv !! j with
  | Some prev =>
      if (0 <=? prev)%Z then <[Z.to_nat prev := (-1)%Z]> asg else asg
  | None => asg
  end !! i0
  = match asg !! i0 with
    | Some v => if bool_decide (inv !! j = Some (Z.of_nat i0))
                then Some (-1)%Z else Some v
    | None => None
    end.
Proof.
  destruct (inv !! j) as [prev|] eqn:Ej.
  - destruct (Z.leb_spec 0 prev) as [Hp|Hp].
    + destruct (decide (Z.to_nat prev = i0)) as [<-|Hne].
      * rewrite Z2Nat.id by done. rewrite bool_decide_eq_true_2 by done.
        destruct (asg !! Z.to_nat prev) eqn:E.
        -- apply list_lookup_insert_eq. by eapply lookup_lt_Some.
        -- apply lookup_ge_None. rewrite length_insert.
           by apply lookup_ge_None.
      * rewrite list_lookup_insert_ne by done.
        rewrite bool_decide_eq_false_2; [by destruct (asg !! i0)|].
        intros [= ->]. rewrite Nat2Z.id in Hne. done.
    + rewrite bool_decide_eq_false_2; [by destruct (asg !! i0)|].
      intros [= ->]. lia.
  - rewrite bool_decide_eq_false_2 by done. by destruct (asg !! i0).
Qed.

Lemma award_one_matching n (asg inv : list Z) (j i : nat) (inc : F) :
  matching n asg inv -> j < n -> i < n -> asg !! i = Some (-1)%Z ->
  matching n (fst (award_one (asg, inv) (j, i, inc)))
             (snd (award_one (asg, inv) (j, i, inc))).
Proof.
  intros (La & Li & Ha & Hi) Hj Hin Ei.
  unfold award_one. cbn [fst snd].
  set (asg1 := match inv !! j with
               | Some prev => _ | None => _ end).
  assert (L1 : length asg1 = n).
  { unfold asg1. destruct (inv !! j); [destruct (0 <=? _)%Z|];
      by rewrite ?length_insert. }
  assert (V : forall i0, asg1 !! i0 =
            match asg !! i0 with
            | Some v => if bool_decide (inv !! j = Some (Z.of_nat i0))
                        then Some (-1)%Z else Some v
            | None => None
            end) by (intros; apply vacate_lookup).
  unfold matching. rewrite !length_insert. repeat split; [done..| |].
  - intros i0 v E.
    destruct (decide (i = i0)) as [<-|Hne].
    + rewrite list_lookup_insert_eq in E by lia. injection E as <-.
      right. split; [lia|]. rewrite Nat2Z.id.
      apply list_lookup_insert_eq. lia.
    + rewrite list_lookup_insert_ne in E by done. rewrite V in E.
      destruct (asg !! i0) as [v0|] eqn:E0; [|done].
      case_bool_decide as Hocc; [left; congruence|].
      injection E as <-.
      destruct (Ha i0 v0 E0) as [|[Hr Hv]]; [by left|right].
      split; [done|].
      rewrite list_lookup_insert_ne; [done|].
      intros Hj0. rewrite <- Hj0 in Hv. done.
  - intros j0 u E.
    destruct (decide (j = j0)) as [<-|Hne].
    + rewrite list_lookup_insert_eq in E by lia. injection E as <-.
      right. split; [lia|]. rewrite Nat2Z.id.
      apply list_lookup_insert_eq. lia.
    + rewrite list_lookup_insert_ne in E by done.
      destruct (Hi j0 u E) as [|[Hr Hu]]; [by left|right].
      split; [done|].
      rewrite list_lookup_insert_ne;
        [|intros Hiu; rewrite Hiu, Hu in Ei; injection Ei; lia].
      rewrite V, Hu. rewrite bool_decide_eq_false_2; [done|].
      intros Hj'. destruct (Hi j _ Hj') as [|[_ Hu']]; [lia|].
      rewrite Nat2Z.id in Hu'. rewrite Hu in Hu'. injection Hu'. lia.
Qed.

Lemma award_one_keeps_unassigned (asg inv : list Z) (j i i' : nat) (inc : F) :
  i' <> i -> asg !! i' = Some (-1)%Z ->
  fst (award_one (asg, inv) (j, i, inc)) !! i' = Some (-1)%Z.
Proof.
  intros Hne E. unfold award_one. cbn [fst snd].
  rewrite list_lookup_insert_ne by done.
  rewrite vacate_lookup, E. by case_bool_decide.
Qed.

(** Awarding to winners that are pairwise distinct and unassigned keeps
    the matching consistent; two winners may even name the same [j]. *)
Lemma award_all_matching n (ws : list (nat * nat * F)) (asg inv : list Z) :
  matching n asg inv ->
  NoDup ((fun r => snd (fst r)) <$> ws) ->
  (forall j i inc, (j, i, inc) ∈ ws ->
     j < n /\ i < n /\ asg !! i = Some (-1)%Z) ->
  matching n (fst (foldl award_one (asg, inv) ws))
             (snd (foldl award_one (asg, inv) ws)).
Proof.
  revert asg inv.
  induction ws as [|[[j i] inc] ws IH]; intros asg inv Hm Hnd Hws; [done|].
  cbn [foldl].
  destruct (Hws j i inc) as (Hj & Hi & Ei); [left|].
  rewrite fmap_cons in Hnd. apply NoDup_cons in Hnd as [Hnotin Hnd].
  destruct (award_one (asg, inv) (j, i, inc)) as [asg' inv'] eqn:Ea.
  apply IH; [| done |].
  - replace asg' with (fst (award_one (asg, inv) (j, i, inc)))
      by (by rewrite Ea).
    replace inv' with (snd (award_one (asg, inv) (j, i, inc)))
      by (by rewrite Ea).
    by apply award_one_matching.
  - intros j' i' inc' Hin.
    destruct (Hws j' i' inc') as (Hj' & Hi' & Ei'); [by right|].
    split; [done|split; [done|]].
    replace asg' with (fst (award_one (asg, inv) (j, i, inc)))
      by (by rewrite Ea).
    apply award_one_keeps_unassigned; [|done].
    intros ->. apply Hnotin.
    apply list_elem_of_fmap. by exists (j', i, inc').
Qed.

Lemma higher_elem (incs : list F) (l : list nat) acc i x :
  foldl (higher incs) acc l = Some (i, x) ->
  acc = Some (i, x) \/ i ∈ l.
Proof.
  revert acc. induction l as [|k l IH]; intros acc E; [by left|].
  cbn [foldl] in E. destruct (IH _ E) as [Hacc|Hin].
  - unfold higher in Hacc. destruct acc as [[bi binc]|].
    + destruct (fltb binc (fget incs k)).
      * injection Hacc as -> _. right. left.
      * by left.
    + injection Hacc as -> _. right. left.
  - right. by right.
Qed.

Lemma winner_of_spec n (asg bid : list Z) (incs : list F) j j' i inc :
  winner_of (unassigned_idx n asg) bid incs j = Some (j', i, inc) ->
  j' = j /\ i < n /\ asg !! i = Some (-1)%Z
  /\ bid !! i = Some (Z.of_nat j).
Proof.
  unfold winner_of. intros E.
  apply fmap_Some in E as ([i0 x] & E & [= -> -> ->]).
  cbn [fst snd] in *.
  apply higher_elem in E as [|Hin]; [done|].
  apply list_elem_of_filter in Hin as [Hb Hin].
  apply list_elem_of_filter in Hin as [Hu Hin].
  apply elem_of_seq in Hin. repeat split; [lia|done..].
Qed.

Lemma NoDup_omap_proj {A B C} (f : A -> option B) (g : B -> C) (l : list A) :
  NoDup l ->
  (forall x y bx by_, x ∈ l -> y ∈ l -> f x = Some bx -> f y = Some by_ ->
     g bx = g by_ -> x = y) ->
  NoDup (g <$> omap f l).
Proof.
  induction 1 as [|x l Hx Hnd IH]; intros Hinj; [constructor|].
  cbn [omap list_omap].
  assert (IH' : NoDup (g <$> omap f l)).
  { apply IH. intros ? ? ? ? ? ?. apply Hinj; by right. }
  destruct (f x) as [bx|] eqn:Ex; [|done].
  rewrite fmap_cons. apply NoDup_cons. split; [|done].
  intros Hin. apply list_elem_of_fmap in Hin as (by_ & Hg & Hin).
  apply list_elem_of_omap in Hin as (y & Hy & Ey).
  apply Hx. rewrite (Hinj x y bx by_); [done|left|by right|done..].
Qed.

Lemma winners_spec n (asg bid : list Z) (incs : list F) :
  NoDup ((fun r => snd (fst r)) <$> winners n asg bid incs)
  /\ forall j i inc, (j, i, inc) ∈ winners n asg bid incs ->
       j < n /\ i < n /\ asg !! i = Some (-1)%Z.
Proof.
  unfold winners. split.
  - apply NoDup_omap_proj; [apply NoDup_seq|].
    intros j1 j2 [[j1' i1] x1] [[j2' i2] x2] _ _ E1 E2. cbn [fst snd].
    intros ->.
    apply winner_of_spec in E1 as (_ & _ & _ & B1).
    apply winner_of_spec in E2 as (_ & _ & _ & B2).
    rewrite B1 in B2. injection B2. lia.
  - intros j i inc Hin.
    apply list_elem_of_omap in Hin as (j0 & Hj0 & E).
    apply winner_of_spec in E as (-> & Hi & Ei & _).
    apply elem_of_seq in Hj0. repeat split; [lia|done..].
Qed.

Lemma round_matching reg n eps x1 x2 (st : auction) :
  matching n (au_assignment st) (au_assignment_inv st) ->
  matching n (au_assignment (round reg n eps x1 x2 st))
             (au_assignment_inv (round reg n eps x1 x2 st)).
Proof.
  intros Hm. unfold round. cbn [au_assignment au_assignment_inv].
  apply award_all_matching; [done|apply winners_spec..].
Qed.

Lemma run_rounds_matching reg n eps x1 x2 iters (st : auction) :
  matching n (au_assignment st) (au_assignment_inv st) ->
  matching n (au_assignment (run_rounds reg n eps x1 x2 iters st))
             (au_assignment_inv (run_rounds reg n eps x1 x2 iters st)).
Proof.
  revert st. induction iters as [|k IH]; intros st Hm; [done|].
  cbn [run_rounds]. destruct (all_assigned _ _); [done|].
  by apply IH, round_matching.
Qed.

(** ** The kernel on the buffers of [forward] *)

Lemma run_float_data l t xs h :
  h !! l = Some t -> t_data t = FloatData xs ->
  run (float_data l) {| heap := h |} = (Ok xs, {| heap := h |}).
Proof.
  intros E D. unfold float_data.
  by rewrite run_bind, (run_deref _ _ _ E), D.
Qed.

Lemma run_int_data l t zs h :
  h !! l = Some t -> t_data t = IntData zs ->
  run (int_data l) {| heap := h |} = (Ok zs, {| heap := h |}).
Proof.
  intros E D. unfold int_data.
  by rewrite run_bind, (run_deref _ _ _ E), D.
Qed.

Lemma run_write_data l t s h :
  h !! l = Some t ->
  run (write_data l s) {| heap := h |}
  = (Ok tt, {| heap := <[l := with_data t s]> h |}).
Proof.
  intros E. unfold write_data. by rewrite run_bind, (run_deref _ _ _ E).
Qed.

Lemma lookup_app_len h ext : (h ++ ext) !! length h = ext !! 0.
Proof. by rewrite <- (lookup_app_add h ext 0), Nat.add_0_r. Qed.

Lemma insert_app_len h ext t :
  <[length h := t]> (h ++ ext) = h ++ <[0 := t]> ext.
Proof. by rewrite <- (insert_app_r h ext 0), Nat.add_0_r. Qed.

Lemma zeros_default_data shape dev :
  t_data (zeros_tensor shape dev None)
  = FloatData (replicate (numel shape) fzero).
Proof.
  unfold zeros_tensor. cbn [default t_data]. by rewrite torch_default_is_float.
Qed.

(** The kernel succeeds on the buffers [forward] hands over; it leaves
    every other object alone and stores the distances and the assignment
    of [solver_results]. *)
Lemma kernel_forward_run reg x1 x2 k b n c1 tx1 tx2 xs1 xs2 eps iters :
  k !! x1 = Some tx1 -> k !! x2 = Some tx2 ->
  t_shape tx1 = [b; n; c1] ->
  t_data tx1 = FloatData xs1 -> t_data tx2 = FloatData xs2 ->
  exists ext',
    run (emd_forward_spec reg (solver_args x1 x2 (length k)) eps iters)
        {| heap := k ++ solver_buffers b n n |}
    = (Ok tt, {| heap := k ++ ext' |})
    /\ ext' !! 0
       = Some (with_data (zeros_tensor [b; n] Cuda None)
                 (FloatData
                    (concat (snd <$>
                       solver_results reg b n eps iters xs1 xs2))))
    /\ ext' !! 2
       = Some (with_data
                 (minus_scalar 1 (zeros_tensor [b; n] Cuda (Some Int32)))
                 (IntData
                    (concat ((fun o => au_assignment (fst o)) <$>
                       solver_results reg b n eps iters xs1 xs2)))).
Proof.
  intros E1 E2 S1 D1 D2.
  eexists. unfold emd_forward_spec, solver_args.
  cbn [ka_xyz1 ka_xyz2 ka_dist ka_assignment ka_price ka_assignment_inv
       ka_bid ka_bid_increments ka_max_increments].
  rewrite run_bind,
    (run_size3 _ _ _ _ _ _ (lookup_app_l_Some _ _ _ _ E1) S1).
  rewrite run_bind,
    (run_float_data _ _ _ _ (lookup_app_l_Some _ _ _ _ E1) D1).
  rewrite run_bind,
    (run_float_data _ _ _ _ (lookup_app_l_Some _ _ _ _ E2) D2).
  rewrite run_bind.
  erewrite run_float_data;
    [|by rewrite lookup_app_len|apply zeros_default_data].
  rewrite run_bind.
  erewrite run_int_data;
    [|by rewrite lookup_app_add|cbn -[wrap32 numel replicate]; reflexivity].
  rewrite run_bind.
  erewrite run_float_data;
    [|by rewrite lookup_app_add|apply zeros_default_data].
  rewrite run_bind.
  erewrite run_int_data;
    [|by rewrite lookup_app_add|cbn -[wrap32 numel replicate]; reflexivity].
  rewrite run_bind.
  erewrite run_int_data; [|by rewrite lookup_app_add|reflexivity].
  rewrite run_bind.
  erewrite run_float_data;
    [|by rewrite lookup_app_add|apply zeros_default_data].
  rewrite run_bind.
  erewrite run_float_data;
    [|by rewrite lookup_app_add|apply zeros_default_data].
  rewrite !minus_one_zeros.
  fold (solver_results reg b n eps iters xs1 xs2).
  unfold solver_buffers.
  rewrite run_bind.
  erewrite run_write_data by (by rewrite lookup_app_len).
  rewrite insert_app_len. cbn [insert list_insert].
  do 5 (rewrite run_bind;
        erewrite run_write_data by (by rewrite lookup_app_add);
        rewrite insert_app_r; cbn [insert list_insert]).
  erewrite run_write_data by (by rewrite lookup_app_add).
  rewrite insert_app_r. cbn [insert list_insert].
  split; [reflexivity|]. split; reflexivity.
Qed.

(** ** Rows of a row-major array *)

Lemma row_replicate {A} (b n bi : nat) (x : A) :
  bi < b -> row n bi (replicate (b * n) x) = replicate n x.
Proof.
  intros Hb. unfold row. rewrite drop_replicate, take_replicate.
  f_equal. nia.
Qed.

Lemma concat_uniform_length {A} (n : nat) (ls : list (list A)) :
  Forall (fun r => length r = n) ls -> length (concat ls) = length ls * n.
Proof.
  induction 1 as [|r ls Hr _ IH]; [done|].
  cbn [concat length]. rewrite length_app, IH, Hr. lia.
Qed.

Lemma lookup_concat_uniform {A} (n : nat) (ls : list (list A)) bi i :
  Forall (fun r => length r = n) ls -> i < n ->
  concat ls !! (bi * n + i) = ls !! bi ≫= (fun r => r !! i).
Proof.
  intros Hls Hi. revert bi.
  induction Hls as [|r ls Hr _ IH]; intros bi; [done|].
  cbn [concat]. destruct bi as [|bi].
  - cbn. rewrite lookup_app_l by lia. done.
  - rewrite lookup_app_r by (rewrite Hr; cbn; lia).
    replace (S bi * n + i - length r) with (bi * n + i) by (rewrite Hr; lia).
    by rewrite IH.
Qed.

Lemma Forall_concat_rows {A} (P : A -> Prop) (ls : list (list A)) :
  Forall (Forall P) ls -> Forall P (concat ls).
Proof.
  induction 1 as [|r ls Hr _ IH]; [constructor|].
  cbn [concat]. by apply Forall_app.
Qed.

(** Every batch element ends its auction with a consistent matching. *)
Lemma solver_results_matching reg b n eps iters xs1 xs2 :
  Forall (fun o => matching n (au_assignment (fst o))
                     (au_assignment_inv (fst o)))
         (solver_results reg b n eps iters xs1 xs2).
Proof.
  unfold solver_results. apply Forall_fmap, Forall_seq.
  intros bi [_ Hbi]. cbn [compose auction_batch fst].
  apply run_rounds_matching. cbn [au_assignment au_assignment_inv].
  rewrite numel2, row_replicate by lia. apply matching_init.
Qed.

(** C1: on every valid input pair [forward] returns an [assignment] of
    batch x N entries, each of them -1 or an index in [0, N), and within a
    batch element no index of B is assigned to two points of A. *)
Theorem forward_assignment_injective
    reg c l1 l2 eps iters w t1 t2 b n c1 c2 :
  heap w !! l1 = Some t1 -> heap w !! l2 = Some t2 ->
  tensor_ok t1 = true -> tensor_ok t2 = true ->
  t_shape t1 = [b; n; c1] -> t_shape t2 = [b; n; c2] ->
  n mod block_size = 0 -> b <= max_batch ->
  exists c' ld la w' ta zs,
    run (emdFunction_forward (emd_spec reg) c l1 l2 eps iters) w
    = (Ok (c', (ld, la)), w')
    /\ heap w' !! la = Some ta
    /\ t_shape ta = [b; n]
    /\ t_data ta = IntData zs
    /\ length zs = b * n
    /\ (forall k v, zs !! k = Some v ->
          v = (-1)%Z \/ (0 <= v < Z.of_nat n)%Z)
    /\ (forall bi i1 i2 v, bi < b -> i1 < n -> i2 < n ->
          zs !! (bi * n + i1) = Some v -> zs !! (bi * n + i2) = Some v ->
          v <> (-1)%Z -> i1 = i2).
Proof.
  destruct w as [h]. cbn [heap]. intros E1 E2 O1 O2 S1 S2 Hn Hb.
  destruct (forward_enters_kernel l1 l2 h t1 t2 b n c1 c2)
    as (x1 & x2 & ext & K & X1 & X2); try done.
  destruct (conv_float_data t1 O1) as [xs1 D1].
  destruct (conv_float_data t2 O2) as [xs2 D2].
  destruct (kernel_forward_run reg x1 x2 (h ++ ext) b n c1 _ _ xs1 xs2
              eps iters X1 X2) as (ext' & R & _ & A);
    [by rewrite conv_shape|done..|].
  pose proof (solver_results_matching reg b n eps iters xs1 xs2) as Hm.
  set (outs := solver_results reg b n eps iters xs1 xs2) in *.
  assert (Hlen : Forall (fun r => length r = n)
                   ((fun o => au_assignment (fst o)) <$> outs)).
  { apply Forall_fmap. eapply Forall_impl; [exact Hm|].
    by intros o (? & _). }
  eexists _, _, _, _, _, _. split.
  { rewrite (K c eps iters (emd_spec reg)).
    cbn [emd_spec emd_forward]. rewrite R. reflexivity. }
  cbn [solver_args ka_assignment heap].
  rewrite lookup_app_add, A.
  split; [reflexivity|]. split; [reflexivity|]. split; [reflexivity|].
  split; [|split].
  - rewrite (concat_uniform_length n) by done.
    rewrite length_fmap. unfold outs, solver_results.
    by rewrite length_fmap, length_seq.
  - apply Forall_lookup, Forall_concat_rows, Forall_fmap.
    eapply Forall_impl; [exact Hm|].
    intros o Ho. apply Forall_lookup. intros i v E.
    eapply matching_range; [exact Ho|exact E].
  - intros bi i1 i2 v Hbi Hi1 Hi2.
    rewrite !(lookup_concat_uniform n) by done.
    rewrite list_lookup_fmap.
    destruct (outs !! bi) as [o|] eqn:Eo; [|done]. cbn.
    apply (matching_injective n _ (au_assignment_inv (fst o))).
    by eapply Forall_lookup_1 in Hm.
Qed.

(** ** Fresh solver state *)

Lemma solver_args_fresh x1 x2 k :
  let a := solver_args x1 x2 k in
  [ka_dist a; ka_assignment a; ka_price a; ka_assignment_inv a; ka_bid a;
   ka_bid_increments a; ka_max_increments a; ka_unass_idx a; ka_unass_cnt a;
   ka_unass_cnt_sum a; ka_cnt_tmp a; ka_max_idx a]
  = (fun i => k + i) <$> [0; 2; 5; 4; 6; 7; 8; 9; 11; 12; 13; 10].
Proof. cbn. by rewrite Nat.add_0_r. Qed.

(** C6: every buffer [forward] hands to the kernel is an object created by
    this call (it does not exist in the store the call starts in, and no
    two of them are the same object), [price] starts at zero, and the call
    leaves every object that existed before it exactly as it was, both
    before the kernel runs and when the call returns. *)
Theorem forward_allocates_fresh reg c l1 l2 eps iters w t1 t2 b n c1 c2 :
  heap w !! l1 = Some t1 -> heap w !! l2 = Some t2 ->
  tensor_ok t1 = true -> tensor_ok t2 = true ->
  t_shape t1 = [b; n; c1] -> t_shape t2 = [b; n; c2] ->
  n mod block_size = 0 -> b <= max_batch ->
  exists a w1 out w',
    let bufs :=
      [ka_dist a; ka_assignment a; ka_price a; ka_assignment_inv a;
       ka_bid a; ka_bid_increments a; ka_max_increments a; ka_unass_idx a;
       ka_unass_cnt a; ka_unass_cnt_sum a; ka_cnt_tmp a; ka_max_idx a] in
    enters_kernel c l1 l2 eps iters w a eps iters w1
    /\ Forall (fun l => length (heap w) <= l < length (heap w1)) bufs
    /\ NoDup bufs
    /\ (t_data <$> heap w1 !! ka_price a)
       = Some (FloatData (replicate (b * n) fzero))
    /\ (forall l t, heap w !! l = Some t -> heap w1 !! l = Some t)
    /\ run (emdFunction_forward (emd_spec reg) c l1 l2 eps iters) w
       = (Ok out, w')
    /\ (forall l t, heap w !! l = Some t -> heap w' !! l = Some t).
Proof.
  destruct w as [h]. cbn [heap]. intros E1 E2 O1 O2 S1 S2 Hn Hb.
  destruct (forward_enters_kernel l1 l2 h t1 t2 b n c1 c2)
    as (x1 & x2 & ext & K & X1 & X2); try done.
  destruct (conv_float_data t1 O1) as [xs1 D1].
  destruct (conv_float_data t2 O2) as [xs2 D2].
  destruct (kernel_forward_run reg x1 x2 (h ++ ext) b n c1 _ _ xs1 xs2
              eps iters X1 X2) as (ext' & R & _ & _);
    [by rewrite conv_shape|done..|].
  eexists _, _, _, _. cbn zeta. split; [apply K|].
  rewrite solver_args_fresh. cbn [heap].
  split; [|split; [|split; [|split; [|split]]]].
  - apply Forall_fmap, Forall_forall. intros i Hi. cbn [compose].
    rewrite !length_app. cbn [length solver_buffers].
    assert (i < 14); [|lia].
    repeat (apply elem_of_cons in Hi as [->|Hi]; [lia|]).
    by apply elem_of_nil in Hi.
  - apply NoDup_fmap_2; [intros ? ? ?; lia|].
    by apply (bool_decide_unpack _).
  - cbn [solver_args ka_price]. rewrite lookup_app_add.
    cbn [solver_buffers lookup list_lookup fmap option_fmap option_map].
    rewrite zeros_default_data. cbn. by rewrite Nat.mul_1_r.
  - intros l t E. by apply lookup_app_l_Some, lookup_app_l_Some.
  - rewrite (K c eps iters (emd_spec reg)).
    cbn [emd_spec emd_forward]. rewrite R. reflexivity.
  - intros l t E. by apply lookup_app_l_Some, lookup_app_l_Some.
Qed.

(** ** [emd_loss] *)

Lemma solver_results_dist_length reg b n eps iters xs1 xs2 :
  Forall (fun o => length (snd o) = n)
         (solver_results reg b n eps iters xs1 xs2).
Proof.
  unfold solver_results. apply Forall_fmap, Forall_seq.
  intros bi [_ Hbi]. cbn [compose auction_batch snd]. unfold final_dist.
  rewrite length_imap, numel2, row_replicate by lia.
  apply length_replicate.
Qed.

Lemma run_torch_mean l t xs h :
  h !! l = Some t -> t_data t = FloatData xs ->
  run (torch_mean l) {| heap := h |}
  = (Ok (length h),
     {| heap := h ++ [ {| t_dtype := t_dtype t; t_device := t_device t;
                          t_contig := true;
                          t_requires_grad := t_requires_grad t;
                          t_shape := []; t_data := FloatData [tmean xs] |} ]
     |}).
Proof.
  intros E D. unfold torch_mean.
  by rewrite run_bind, (run_deref _ _ _ E), D.
Qed.

(** C10: on valid inputs [emd_loss(output, gt)] runs [forward] once with
    [eps = 0.005] and [iters = 50] and returns a scalar tensor holding the
    mean of the batch x N entries of [dist]; it does not read
    [assignment]: whatever that tensor holds, the same value results. *)
Theorem emd_loss_is_mean_dist reg l1 l2 w t1 t2 b n c1 c2 :
  heap w !! l1 = Some t1 -> heap w !! l2 = Some t2 ->
  tensor_ok t1 = true -> tensor_ok t2 = true ->
  t_shape t1 = [b; n; c1] -> t_shape t2 = [b; n; c2] ->
  n mod block_size = 0 -> b <= max_batch ->
  exists c c' ld la w1 td xs lm w' tm,
    (forall emd : emd_ext,
       run (emd_loss emd l1 l2) w
       = run (r ← emdFunction_forward emd c l1 l2 (5 # 1000)%Q 50%Z;
              torch_mean (fst (snd r))) w)
    /\ run (emdFunction_forward (emd_spec reg) c l1 l2 (5 # 1000)%Q 50%Z) w
       = (Ok (c', (ld, la)), w1)
    /\ heap w1 !! ld = Some td
    /\ t_shape td = [b; n]
    /\ t_data td = FloatData xs
    /\ length xs = b * n
    /\ run (emd_loss (emd_spec reg) l1 l2) w = (Ok lm, w')
    /\ w' = {| heap := heap w1 ++ [tm] |}
    /\ heap w' !! lm = Some tm
    /\ t_shape tm = []
    /\ t_data tm = FloatData [tmean xs]
    /\ forall ta',
         run (torch_mean ld) {| heap := <[la := ta']> (heap w1) |}
         = (Ok lm, {| heap := <[la := ta']> (heap w1) ++ [tm] |}).
Proof.
  destruct w as [h]. cbn [heap]. intros E1 E2 O1 O2 S1 S2 Hn Hb.
  destruct (forward_enters_kernel l1 l2 h t1 t2 b n c1 c2)
    as (x1 & x2 & ext & K & X1 & X2); try done.
  destruct (conv_float_data t1 O1) as [xs1 D1].
  destruct (conv_float_data t2 O2) as [xs2 D2].
  destruct (kernel_forward_run reg x1 x2 (h ++ ext) b n c1 _ _ xs1 xs2
              (5 # 1000)%Q 50%Z X1 X2) as (ext' & R & Dd & _);
    [by rewrite conv_shape|done..|].
  set (c := {| saved_tensors := [];
               needs_input_grad :=
                 [t_requires_grad t1; t_requires_grad t2; false; false] |}).
  assert (Rf : run (emdFunction_forward (emd_spec reg) c l1 l2
                      (5 # 1000)%Q 50%Z) {| heap := h |}
               = (Ok (save_for_backward c
                        [x1; x2; length (h ++ ext) + 2],
                      (length (h ++ ext), length (h ++ ext) + 2)),
                  {| heap := (h ++ ext) ++ ext' |})).
  { rewrite (K c _ _ (emd_spec reg)).
    cbn [emd_spec emd_forward]. by rewrite R. }
  assert (Ed : ((h ++ ext) ++ ext') !! length (h ++ ext) = Some
            (with_data (zeros_tensor [b; n] Cuda None)
               (FloatData (concat (snd <$>
                  solver_results reg b n (5 # 1000)%Q 50%Z xs1 xs2)))))
    by (by rewrite lookup_app_len).
  eexists c, _, _, _, _, _, _, _, _, _.
  split.
  { intros emd. unfold emd_loss, emdModule_forward.
    by rewrite !run_bind, (run_apply _ _ _ _ _ _ t1 t2). }
  split; [exact Rf|]. cbn [heap].
  split; [exact Ed|]. split; [reflexivity|]. split; [reflexivity|].
  split.
  { rewrite (concat_uniform_length n).
    - unfold solver_results. by rewrite !length_fmap, length_seq.
    - apply Forall_fmap, solver_results_dist_length. }
  split.
  { unfold emd_loss, emdModule_forward.
    rewrite run_bind, (run_apply _ _ _ _ _ _ t1 t2) by done.
    fold c. cbn [default]. rewrite Rf. cbn [fst snd].
    by apply run_torch_mean. }
  split; [reflexivity|]. split; [apply lookup_fresh|].
  split; [reflexivity|]. split; [reflexivity|].
  intros ta'.
  erewrite run_torch_mean; [|rewrite list_lookup_insert_ne by lia; exact Ed
                            |reflexivity].
  by rewrite length_insert.
Qed.

(** ** [backward] *)

Lemma run_size l t h :
  h !! l = Some t ->
  run (size l) {| heap := h |} = (Ok (t_shape t), {| heap := h |}).
Proof.
  intros E. unfold size. by rewrite run_bind, (run_deref _ _ _ E).
Qed.

Lemma run_contiguous l t h :
  h !! l = Some t ->
  run (contiguous l) {| heap := h |}
  = (Ok (if t_contig t then l else length h),
     {| heap := h ++ (if t_contig t then [] else [as_contiguous t]) |}).
Proof.
  intros E. unfold contiguous, convert.
  rewrite run_bind, (run_deref _ _ _ E).
  destruct (t_contig t); [|reflexivity].
  by rewrite app_nil_r.
Qed.

(** The whole of [backward] with the modelled kernel: the store grows by
    the contiguous copy of [graddist] (if one is needed) and by the two
    gradient tensors, of which only the first is written to. *)
Lemma backward_run reg c lg gidx h x1 x2 la t1 t2 ta tg b n c1 xs1 xs2 zs gs :
  saved_tensors c = [x1; x2; la] ->
  h !! x1 = Some t1 -> h !! x2 = Some t2 -> h !! la = Some ta ->
  h !! lg = Some tg ->
  t_shape t1 = [b; n; c1] ->
  t_data t1 = FloatData xs1 -> t_data t2 = FloatData xs2 ->
  t_data ta = IntData zs -> t_data tg = FloatData gs ->
  let k := h ++ (if t_contig tg then [] else [as_contiguous tg]) in
  run (emdFunction_backward (emd_spec reg) c lg gidx) {| heap := h |}
  = (Ok (length k, length k + 1, None, None),
     {| heap :=
          k ++ [ with_data (zeros_tensor [b; n; c1] Cuda None)
                   (FloatData
                      (grad1 n xs1 xs2 gs zs
                         (replicate (numel [b; n; c1]) fzero)));
                 zeros_tensor (t_shape t2) Cuda None ] |}).
Proof.
  intros Hc E1 E2 Ea Eg S1 D1 D2 Da Dg k.
  unfold emdFunction_backward. rewrite Hc.
  rewrite run_bind, (run_contiguous _ _ _ Eg). fold k.
  set (lg' := if t_contig tg then lg else length h).
  assert (Eg' : exists tg', k !! lg' = Some tg' /\ t_data tg' = FloatData gs).
  { unfold k, lg'. destruct (t_contig tg).
    - exists tg. by rewrite app_nil_r.
    - exists (as_contiguous tg). split; [apply lookup_fresh|done]. }
  destruct Eg' as (tg' & Eg' & Dg').
  assert (K1 : k !! x1 = Some t1) by (by apply lookup_app_l_Some).
  assert (K2 : k !! x2 = Some t2) by (by apply lookup_app_l_Some).
  assert (Ka : k !! la = Some ta) by (by apply lookup_app_l_Some).
  rewrite run_bind, run_bind, (run_size _ _ _ K1), S1, run_zeros.
  rewrite run_bind, run_bind,
    (run_size _ _ _ (lookup_app_l_Some _ _ _ _ K2)), run_zeros.
  rewrite <- app_assoc. cbn [app]. rewrite length_app. cbn [length].
  rewrite run_bind. cbn [emd_spec emd_backward].
  unfold emd_backward_spec.
  cbn [kb_xyz1 kb_xyz2 kb_gradxyz1 kb_graddist kb_assignment].
  rewrite run_bind,
    (run_size3 _ _ _ _ _ _ (lookup_app_l_Some _ _ _ _ K1) S1).
  rewrite run_bind,
    (run_float_data _ _ _ _ (lookup_app_l_Some _ _ _ _ K1) D1).
  rewrite run_bind,
    (run_float_data _ _ _ _ (lookup_app_l_Some _ _ _ _ K2) D2).
  rewrite run_bind.
  erewrite run_float_data;
    [|by rewrite lookup_app_len|apply zeros_default_data].
  rewrite run_bind,
    (run_float_data _ _ _ _ (lookup_app_l_Some _ _ _ _ Eg') Dg').
  rewrite run_bind,
    (run_int_data _ _ _ _ (lookup_app_l_Some _ _ _ _ Ka) Da).
  rewrite run_bind.
  erewrite run_write_data by (by rewrite lookup_app_len).
  rewrite insert_app_len. cbn [insert list_insert].
  reflexivity.
Qed.

Lemma div3 (p k : nat) : k < 3 -> (3 * p + k) / 3 = p /\ (3 * p + k) mod 3 = k.
Proof.
  intros Hk. split.
  - symmetry. apply (Nat.div_unique _ 3 p k); lia.
  - symmetry. apply (Nat.mod_unique _ 3 p k); lia.
Qed.

Lemma div_row (n bi i : nat) : i < n -> (bi * n + i) / n * n = bi * n.
Proof.
  intros Hi. f_equal. symmetry. apply (Nat.div_unique _ n bi i); lia.
Qed.

(** What a successful [forward] leaves behind is a saved state as
    [backward] expects it: the two converted inputs and the assignment. *)
Lemma forward_saved_state reg c l1 l2 eps iters w t1 t2 b n c1 c2 :
  heap w !! l1 = Some t1 -> heap w !! l2 = Some t2 ->
  tensor_ok t1 = true -> tensor_ok t2 = true ->
  t_shape t1 = [b; n; c1] -> t_shape t2 = [b; n; c2] ->
  n mod block_size = 0 -> b <= max_batch ->
  exists c' ld la w' x1 x2 tx1 tx2 ta xs1 xs2 zs,
    run (emdFunction_forward (emd_spec reg) c l1 l2 eps iters) w
    = (Ok (c', (ld, la)), w')
    /\ saved_tensors c' = [x1; x2; la]
    /\ heap w' !! x1 = Some tx1 /\ heap w' !! x2 = Some tx2
    /\ heap w' !! la = Some ta
    /\ t_shape tx1 = [b; n; c1]
    /\ t_data tx1 = FloatData xs1 /\ t_data tx2 = FloatData xs2
    /\ t_data ta = IntData zs.
Proof.
  destruct w as [h]. cbn [heap]. intros E1 E2 O1 O2 S1 S2 Hn Hb.
  destruct (forward_enters_kernel l1 l2 h t1 t2 b n c1 c2)
    as (x1 & x2 & ext & K & X1 & X2); try done.
  destruct (conv_float_data t1 O1) as [xs1 D1].
  destruct (conv_float_data t2 O2) as [xs2 D2].
  destruct (kernel_forward_run reg x1 x2 (h ++ ext) b n c1 _ _ xs1 xs2
              eps iters X1 X2) as (ext' & R & _ & A);
    [by rewrite conv_shape|done..|].
  eexists _, _, _, _, x1, x2, _, _, _, xs1, xs2, _. split.
  { rewrite (K c eps iters (emd_spec reg)).
    cbn [emd_spec emd_forward]. rewrite R. reflexivity. }
  cbn [heap solver_args ka_xyz1 ka_xyz2 ka_assignment save_for_backward
       saved_tensors].
  split; [reflexivity|].
  split; [by apply lookup_app_l_Some|].
  split; [by apply lookup_app_l_Some|].
  split; [by rewrite lookup_app_add|].
  split; [by rewrite conv_shape|]. done.
Qed.

(** C2: after [backward], for every point [i] of A of batch element [bi]
    that the saved assignment matches to [j = assignment[i] >= 0], each
    coordinate [k] of [grad_xyz1[i]] is
    [grad_dist[i] * 2 * (xyz1[i][k] - xyz2[j][k])], the assignment being
    read as a constant; every unmatched point (assignment -1) has a zero
    gradient. *)
Theorem backward_grad_xyz1
    reg c lg gidx w x1 x2 la t1 t2 ta tg b n xs1 xs2 zs gs :
  saved_tensors c = [x1; x2; la] ->
  heap w !! x1 = Some t1 -> heap w !! x2 = Some t2 ->
  heap w !! la = Some ta -> heap w !! lg = Some tg ->
  t_shape t1 = [b; n; 3] ->
  t_data t1 = FloatData xs1 -> t_data t2 = FloatData xs2 ->
  t_data ta = IntData zs -> t_data tg = FloatData gs ->
  exists g1 g2 w' tg1 gx,
    run (emdFunction_backward (emd_spec reg) c lg gidx) w
    = (Ok (g1, g2, None, None), w')
    /\ heap w' !! g1 = Some tg1
    /\ t_shape tg1 = [b; n; 3]
    /\ t_data tg1 = FloatData gx
    /\ length gx = b * n * 3
    /\ forall bi i k, bi < b -> i < n -> k < 3 ->
         (forall v, zs !! (bi * n + i) = Some v -> (0 <= v)%Z ->
            gx !! (3 * (bi * n + i) + k)
            = Some (fmul (fmul (fget gs (bi * n + i)) (of_Z 2))
                      (fsub (fget xs1 (3 * (bi * n + i) + k))
                            (fget xs2 (3 * (bi * n + Z.to_nat v) + k)))))
         /\ (zs !! (bi * n + i) = Some (-1)%Z ->
             gx !! (3 * (bi * n + i) + k) = Some fzero).
Proof.
  destruct w as [h]. cbn [heap]. intros Hc E1 E2 Ea Eg S1 D1 D2 Da Dg.
  pose proof (backward_run reg c lg gidx h x1 x2 la t1 t2 ta tg b n 3
                xs1 xs2 zs gs Hc E1 E2 Ea Eg S1 D1 D2 Da Dg) as R.
  cbn zeta in R.
  eexists _, _, _, _, _. split; [exact R|]. cbn [heap].
  split; [by rewrite lookup_app_len|].
  split; [reflexivity|]. split; [reflexivity|].
  assert (Hnum : numel [b; n; 3] = b * n * 3)
    by (unfold numel; cbn [foldr]; lia).
  unfold grad1. rewrite Hnum. split.
  { by rewrite length_imap, length_replicate. }
  intros bi i k Hbi Hi Hk.
  assert (Hidx : 3 * (bi * n + i) + k < b * n * 3) by nia.
  destruct (div3 (bi * n + i) k Hk) as [Hd Hm].
  rewrite list_lookup_imap, (lookup_replicate_2 _ _ _ Hidx), Hd, Hm.
  cbn [fmap option_fmap option_map]. split.
  - intros v -> Hv. apply Z.leb_le in Hv. rewrite Hv.
    unfold contribution. by rewrite div_row.
  - intros ->. done.
Qed.

(** C3 (amended): the [grad_xyz2] that [backward] returns is a tensor of
    the shape of [xyz2] that is zero everywhere, whatever [grad_dist] and
    the assignment are and whether or not the context asks for a gradient
    of the second set: no contribution is routed to it. *)
Theorem backward_grad_xyz2_zero
    reg c lg gidx w x1 x2 la t1 t2 ta tg b n c1 xs1 xs2 zs gs :
  saved_tensors c = [x1; x2; la] ->
  heap w !! x1 = Some t1 -> heap w !! x2 = Some t2 ->
  heap w !! la = Some ta -> heap w !! lg = Some tg ->
  t_shape t1 = [b; n; c1] ->
  t_data t1 = FloatData xs1 -> t_data t2 = FloatData xs2 ->
  t_data ta = IntData zs -> t_data tg = FloatData gs ->
  exists g1 g2 w' tg2,
    run (emdFunction_backward (emd_spec reg) c lg gidx) w
    = (Ok (g1, g2, None, None), w')
    /\ heap w' !! g2 = Some tg2
    /\ t_shape tg2 = t_shape t2
    /\ t_data tg2 = FloatData (replicate (numel (t_shape t2)) fzero).
Proof.
  destruct w as [h]. cbn [heap]. intros Hc E1 E2 Ea Eg S1 D1 D2 Da Dg.
  pose proof (backward_run reg c lg gidx h x1 x2 la t1 t2 ta tg b n c1
                xs1 xs2 zs gs Hc E1 E2 Ea Eg S1 D1 D2 Da Dg) as R.
  cbn zeta in R.
  eexists _, _, _, _. split; [exact R|]. cbn [heap].
  split; [by rewrite lookup_app_add|].
  split; [reflexivity|apply zeros_default_data].
Qed.

End Proofs.

(** * The model on concrete inputs *)

(** One round on four points: every point bids for its nearest partner
    with the gap to the second nearest, and all four bids win. *)
Example round_line :
  round ex_reg 4 0%Z ex_line1 ex_line2 ex_auction
  = {| au_assignment := [1; 2; 3; 0]%Z;
       au_assignment_inv := [3; 0; 1; 2]%Z;
       au_price := [120; 120; 80; 80]%Z;
       au_bid := [1; 2; 3; 0]%Z;
       au_bid_increments := [120; 80; 80; 120]%Z;
       au_max_increments := [120; 120; 80; 80]%Z |}.
Proof. reflexivity. Qed.

(** Points 0 and 1 both bid for point 3 of B and the higher increment
    wins.  In the second run point 1 of A is assigned already, so its stale
    bid does not count; points 0 and 2 tie and the lower index wins. *)
Example winners_arbitration :
  winners 4 [-1; -1; -1; -1]%Z [3; 3; 1; 0]%Z [5; 7; 1; 2]%Z
  = [(0, 3, 2%Z); (1, 2, 1%Z); (3, 1, 7%Z)]
  /\ winners 4 [-1; 2; -1; -1]%Z [3; 3; 3; 0]%Z [5; 7; 5; 2]%Z
     = [(0, 3, 2%Z); (3, 0, 5%Z)].
Proof. split; reflexivity. Qed.

(** [forward] on empty point sets: sixteen objects exist afterwards, the
    two inputs and the fourteen created by the call. *)
Example forward_empty :
  let r := run (emdFunction_forward (emd_spec ex_reg) ex_ctx 0 1
                  (5 # 1000)%Q 50%Z) ex_empty_world in
  fst r = Ok ({| saved_tensors := [0; 1; 4];
                 needs_input_grad := [true; false; false; false] |}, (2, 4))
  /\ length (heap (snd r)) = 16.
Proof. split; vm_compute; reflexivity. Qed.

(** [backward] on three points: the matched points 0 and 2 receive
    [grad_dist * 2 * (xyz1 - xyz2)], the unmatched point 1 receives zero,
    and the second gradient is zero. *)
Example backward_small :
  let r := run (emdFunction_backward (emd_spec ex_reg) ex_backward_ctx 3 None)
             ex_small_backward_world in
  fst r = Ok (5, 6, None, None)
  /\ (t_data <$> heap (snd r) !! 5)
     = Some (FloatData [-2; 0; 2; 0; 0; 0; 1400; 1600; 1800]%Z)
  /\ (t_data <$> heap (snd r) !! 6)
     = Some (FloatData [0; 0; 0; 0; 0; 0; 0; 0; 0]%Z).
Proof. repeat split; vm_compute; reflexivity. Qed.

(** * The theorems on concrete inputs *)

Lemma forward_assignment_injective_witness :
  exists c' ld la w' ta zs,
    run (emdFunction_forward (emd_spec ex_reg) ex_ctx 0 1 (5 # 1000)%Q 50%Z)
        ex_valid_world
    = (Ok (c', (ld, la)), w')
    /\ heap w' !! la = Some ta
    /\ t_shape ta = [1; 1024]
    /\ t_data ta = IntData zs
    /\ length zs = 1 * 1024
    /\ (forall k v, zs !! k = Some v ->
          v = (-1)%Z \/ (0 <= v < Z.of_nat 1024)%Z)
    /\ (forall bi i1 i2 v, bi < 1 -> i1 < 1024 -> i2 < 1024 ->
          zs !! (bi * 1024 + i1) = Some v -> zs !! (bi * 1024 + i2) = Some v ->
          v <> (-1)%Z -> i1 = i2).
Proof.
  apply (forward_assignment_injective ex_reg ex_ctx 0 1 (5 # 1000)%Q 50%Z
           ex_valid_world (ex_points 1 1 1024 true)
           (ex_points 0 1 1024 false) 1 1024 3 3);
    try reflexivity.
  unfold max_batch. lia.
Defined.

Lemma backward_grad_xyz1_witness :
  exists g1 g2 w' tg1 gx,
    run (emdFunction_backward (emd_spec ex_reg) ex_backward_ctx 3 None)
        ex_backward_world
    = (Ok (g1, g2, None, None), w')
    /\ heap w' !! g1 = Some tg1
    /\ t_shape tg1 = [1; 1024; 3]
    /\ t_data tg1 = FloatData gx
    /\ length gx = 1 * 1024 * 3
    /\ forall bi i k, bi < 1 -> i < 1024 -> k < 3 ->
         (forall v, (Z.of_nat <$> seq 0 1024) !! (bi * 1024 + i) = Some v ->
            (0 <= v)%Z ->
            gx !! (3 * (bi * 1024 + i) + k)
            = Some (fmul (fmul (fget (replicate 1024 1%Z) (bi * 1024 + i))
                            (of_Z 2))
                      (fsub (fget (replicate (1 * 1024 * 3) 1%Z)
                               (3 * (bi * 1024 + i) + k))
                            (fget (replicate (1 * 1024 * 3) 0%Z)
                               (3 * (bi * 1024 + Z.to_nat v) + k)))))
         /\ ((Z.of_nat <$> seq 0 1024) !! (bi * 1024 + i) = Some (-1)%Z ->
             gx !! (3 * (bi * 1024 + i) + k) = Some fzero).
Proof.
  apply (backward_grad_xyz1 ex_reg ex_backward_ctx 3 None ex_backward_world
           0 1 2 (ex_points 1 1 1024 true) (ex_points 0 1 1024 true)
           ex_assignment ex_graddist 1 1024);
    reflexivity.
Defined.

(** C3, counterexample: both inputs require a gradient, point 0 of A is
    matched to point 0 of B, [grad_dist[0] = 1], [xyz1[0] = (1,1,1)] and
    [xyz2[0] = (0,0,0)], so the routed contribution to the first
    coordinate of [grad_xyz2[0]] would be [-(1 * 2 * (1 - 0)) = -2]; the
    returned entry is 0. *)
Lemma backward_grad_xyz2_not_routed :
  exists g1 g2 w' tg2 gx2,
    needs_input_grad ex_backward_ctx !! 1 = Some true
    /\ (Z.of_nat <$> seq 0 1024) !! 0 = Some 0%Z
    /\ run (emdFunction_backward (emd_spec ex_reg) ex_backward_ctx 3 None)
           ex_backward_world
       = (Ok (g1, g2, None, None), w')
    /\ heap w' !! g2 = Some tg2
    /\ t_data tg2 = FloatData gx2
    /\ gx2 !! 0 = Some 0%Z
    /\ gx2 !! 0
       <> Some (fopp (contribution 1024 (replicate (1 * 1024 * 3) 1%Z)
                        (replicate (1 * 1024 * 3) 0%Z)
                        (replicate 1024 1%Z) 0 0 0)).
Proof.
  pose proof (backward_run ex_reg ex_backward_ctx 3 None
                (heap ex_backward_world) 0 1 2
                (ex_points 1 1 1024 true) (ex_points 0 1 1024 true)
                ex_assignment ex_graddist 1 1024 3 _ _ _ _
                eq_refl eq_refl eq_refl eq_refl eq_refl eq_refl eq_refl
                eq_refl eq_refl eq_refl) as R.
  cbn zeta in R.
  eexists _, _, _, _, _.
  split; [reflexivity|]. split; [reflexivity|].
  split; [exact R|].
  split; [reflexivity|]. split; [reflexivity|].
  split; [reflexivity|]. discriminate.
Qed.

Lemma backward_grad_xyz2_zero_witness :
  exists g1 g2 w' tg2,
    run (emdFunction_backward (emd_spec ex_reg) ex_backward_ctx 3 None)
        ex_backward_world
    = (Ok (g1, g2, None, None), w')
    /\ heap w' !! g2 = Some tg2
    /\ t_shape tg2 = [1; 1024; 3]
    /\ t_data tg2 = FloatData (replicate (numel [1; 1024; 3]) 0%Z).
Proof.
  refine (backward_grad_xyz2_zero ex_reg ex_backward_ctx 3 None
            ex_backward_world 0 1 2 (ex_points 1 1 1024 true)
            (ex_points 0 1 1024 true) ex_assignment ex_graddist 1 1024 3
            _ _ _ _ _ _ _ _ _ _ _ _ _ _);
    reflexivity.
Defined.

Lemma forward_fails_before_allocation_witness :
  exists e,
    run (emdFunction_forward (emd_spec ex_reg) ex_ctx 0 1 (5 # 1000)%Q 50%Z)
        ex_mismatch_world
    = (Err e, ex_mismatch_world).
Proof.
  refine (forward_fails_before_allocation (emd_spec ex_reg) ex_ctx 0 1
            (5 # 1000)%Q 50%Z ex_mismatch_world
            (ex_points 1 1 1024 true) (ex_points 0 1 2048 false)
            1 1024 3 1 2048 3 _ _ _ _ _);
    try reflexivity.
  left. lia.
Defined.

(** C5, counterexample: a call with 1024 against 2048 points and a call
    with 513 batch elements end with the same exception. *)
Lemma forward_errors_not_distinct :
  let shape_error :=
    error_of
      (run (emdFunction_forward (emd_spec ex_reg) ex_ctx 0 1
              (5 # 1000)%Q 50%Z) ex_mismatch_world) in
  let batch_error :=
    error_of
      (run (emdFunction_forward (emd_spec ex_reg) ex_ctx 0 1
              (5 # 1000)%Q 50%Z) ex_batch_world) in
  shape_error = Some (AssertionError None)
  /\ batch_error = Some (AssertionError None)
  /\ shape_error = batch_error.
Proof.
  cbn zeta.
  pose proof (forward_checks_fail (emd_spec ex_reg) ex_ctx 0 1 (5 # 1000)%Q
                50%Z ex_mismatch_world (ex_points 1 1 1024 true)
                (ex_points 0 1 2048 false) 1 1024 3 1 2048 3
                eq_refl eq_refl eq_refl eq_refl ltac:(left; lia)) as R1.
  pose proof (forward_checks_fail (emd_spec ex_reg) ex_ctx 0 1 (5 # 1000)%Q
                50%Z ex_batch_world (ex_points 1 513 1024 true)
                (ex_points 0 513 1024 false) 513 1024 3 513 1024 3
                eq_refl eq_refl eq_refl eq_refl
                ltac:(right; right; right; unfold max_batch; lia)) as R2.
  rewrite R1, R2. cbn [error_of]. repeat split.
Qed.

Lemma forward_errors_coincide_witness :
  error_of
    (run (emdFunction_forward (emd_spec ex_reg) ex_ctx 0 1
            (5 # 1000)%Q 50%Z) ex_batch_mismatch_world)
  = Some (AssertionError None)
  /\ error_of
       (run (emdFunction_forward (emd_spec ex_reg) ex_ctx 0 1
               (5 # 1000)%Q 50%Z) ex_batch_world)
     = Some (AssertionError None)
  /\ error_of
       (run (emdFunction_forward (emd_spec ex_reg) ex_ctx 0 1
               (5 # 1000)%Q 50%Z) ex_batch_mismatch_world)
     = error_of
         (run (emdFunction_forward (emd_spec ex_reg) ex_ctx 0 1
                 (5 # 1000)%Q 50%Z) ex_batch_world).
Proof.
  refine (forward_errors_coincide (emd_spec ex_reg) ex_ctx 0 1
            (5 # 1000)%Q 50%Z ex_batch_mismatch_world
            (ex_points 1 2 1024 true) (ex_points 0 1 1024 false)
            2 1024 3 1 1024 3
            ex_ctx 0 1 (5 # 1000)%Q 50%Z ex_batch_world
            (ex_points 1 513 1024 true) (ex_points 0 513 1024 false)
            513 1024 3 513 1024 3 _ _ _ _ _ _ _ _ _ _);
    try reflexivity.
  - right. left. lia.
  - right. right. right. unfold max_batch. lia.
Defined.

Lemma forward_allocates_fresh_witness :
  exists a w1 out w',
    let bufs :=
      [ka_dist a; ka_assignment a; ka_price a; ka_assignment_inv a;
       ka_bid a; ka_bid_increments a; ka_max_increments a; ka_unass_idx a;
       ka_unass_cnt a; ka_unass_cnt_sum a; ka_cnt_tmp a; ka_max_idx a] in
    enters_kernel ex_ctx 0 1 (5 # 1000)%Q 50%Z ex_valid_world a
      (5 # 1000)%Q 50%Z w1
    /\ Forall (fun l => length (heap ex_valid_world) <= l < length (heap w1))
         bufs
    /\ NoDup bufs
    /\ (t_data <$> heap w1 !! ka_price a)
       = Some (FloatData (replicate (1 * 1024) 0%Z))
    /\ (forall l t, heap ex_valid_world !! l = Some t ->
          heap w1 !! l = Some t)
    /\ run (emdFunction_forward (emd_spec ex_reg) ex_ctx 0 1
              (5 # 1000)%Q 50%Z) ex_valid_world
       = (Ok out, w')
    /\ (forall l t, heap ex_valid_world !! l = Some t ->
          heap w' !! l = Some t).
Proof.
  refine (forward_allocates_fresh ex_reg ex_ctx 0 1 (5 # 1000)%Q 50%Z
            ex_valid_world (ex_points 1 1 1024 true)
            (ex_points 0 1 1024 false) 1 1024 3 3 _ _ _ _ _ _ _ _);
    try reflexivity.
  unfold max_batch. lia.
Defined.

Lemma forward_initial_state_witness :
  exists a w1 ta ti tp,
    enters_kernel ex_ctx 0 1 (5 # 1000)%Q 50%Z ex_valid_world a
      (5 # 1000)%Q 50%Z w1
    /\ heap w1 !! ka_assignment a = Some ta
    /\ t_shape ta = [1; 1024]
    /\ t_data ta = IntData (replicate (1 * 1024) (-1)%Z)
    /\ heap w1 !! ka_assignment_inv a = Some ti
    /\ t_shape ti = [1; 1024]
    /\ t_data ti = IntData (replicate (1 * 1024) (-1)%Z)
    /\ heap w1 !! ka_price a = Some tp
    /\ t_shape tp = [1; 1024]
    /\ t_data tp = FloatData (replicate (1 * 1024) 0%Z).
Proof.
  refine (forward_initial_state ex_ctx 0 1 (5 # 1000)%Q 50%Z
            ex_valid_world (ex_points 1 1 1024 true)
            (ex_points 0 1 1024 false) 1 1024 3 3 _ _ _ _ _ _);
    try reflexivity.
  unfold max_batch. lia.
Defined.

Lemma module_forward_parameters_witness :
  exists c a w1,
    (forall emd : emd_ext,
       run (emdModule_forward emd 0 1 None None) ex_valid_world
       = run (emdFunction_forward emd c 0 1 (5 # 1000)%Q 50%Z)
           ex_valid_world)
    /\ enters_kernel c 0 1 (5 # 1000)%Q 50%Z ex_valid_world a
         (5 # 1000)%Q 50%Z w1
    /\ forall (eps : Q) (iters : Z),
         (forall emd : emd_ext,
            run (emdModule_forward emd 0 1 (Some eps) (Some iters))
                ex_valid_world
            = run (emdFunction_forward emd c 0 1 eps iters) ex_valid_world)
         /\ enters_kernel c 0 1 eps iters ex_valid_world a eps iters w1.
Proof.
  refine (module_forward_parameters 0 1 ex_valid_world
            (ex_points 1 1 1024 true) (ex_points 0 1 1024 false)
            1 1024 3 3 _ _ _ _ _ _);
    try reflexivity.
  unfold max_batch. lia.
Defined.


Lemma emd_loss_is_mean_dist_witness :
  exists c c' ld la w1 td xs lm w' tm,
    (forall emd : emd_ext,
       run (emd_loss emd 0 1) ex_valid_world
       = run (r ← emdFunction_forward emd c 0 1 (5 # 1000)%Q 50%Z;
              torch_mean (fst (snd r))) ex_valid_world)
    /\ run (emdFunction_forward (emd_spec ex_reg) c 0 1 (5 # 1000)%Q 50%Z)
           ex_valid_world
       = (Ok (c', (ld, la)), w1)
    /\ heap w1 !! ld = Some td
    /\ t_shape td = [1; 1024]
    /\ t_data td = FloatData xs
    /\ length xs = 1 * 1024
    /\ run (emd_loss (emd_spec ex_reg) 0 1) ex_valid_world = (Ok lm, w')
    /\ w' = {| heap := heap w1 ++ [tm] |}
    /\ heap w' !! lm = Some tm
    /\ t_shape tm = []
    /\ t_data tm = FloatData [tmean xs]
    /\ forall ta',
         run (torch_mean ld) {| heap := <[la := ta']> (heap w1) |}
         = (Ok lm, {| heap := <[la := ta']> (heap w1) ++ [tm] |}).
Proof.
  refine (emd_loss_is_mean_dist ex_reg 0 1 ex_valid_world
            (ex_points 1 1 1024 true) (ex_points 0 1 1024 false)
            1 1024 3 3 _ _ _ _ _ _ _ _);
    try reflexivity.
  unfold max_batch. lia.
Defined.

(** * Further properties of [loss.py] *)

Section MoreProofs.
Context {F : Type} `{Scalar F} `{TorchDefaults}.
Implicit Types (t : tensor (F:=F)) (h ext : list (tensor (F:=F))).
Implicit Types (w : world (F:=F)) (l : loc).

Lemma conv_ready t : ready t = true -> conv t = t.
Proof.
  unfold ready, conv. intros Hr.
  apply andb_true_iff in Hr as [Hr Hc]. apply andb_true_iff in Hr as [Hk Hd].
  by rewrite Hk, Hd, Hc.
Qed.

Lemma run_convert_same ok f l t h :
  h !! l = Some t -> ok t = true ->
  run (convert ok f l) {| heap := h |} = (Ok l, {| heap := h |}).
Proof.
  intros E Hok. unfold convert.
  by rewrite run_bind, (run_deref _ _ _ E), Hok.
Qed.

Lemma run_convert_new ok f l t h :
  h !! l = Some t -> ok t = false ->
  run (convert ok f l) {| heap := h |}
  = (Ok (length h), {| heap := h ++ [f t] |}).
Proof.
  intros E Hok. unfold convert.
  by rewrite run_bind, (run_deref _ _ _ E), Hok.
Qed.

Lemma run_conv_ready l t h :
  h !! l = Some t -> ready t = true ->
  run (x ← contiguous l; x ← float_ x; cuda x) {| heap := h |}
  = (Ok l, {| heap := h |}).
Proof.
  unfold ready. intros E Hr.
  apply andb_true_iff in Hr as [Hr Hc]. apply andb_true_iff in Hr as [Hk Hd].
  unfold contiguous, float_, cuda.
  rewrite run_bind, (run_convert_same _ _ _ _ _ E Hk).
  rewrite run_bind, (run_convert_same _ _ _ _ _ E Hd).
  by rewrite (run_convert_same _ _ _ _ _ E Hc).
Qed.

(** An input that is not ready is replaced by a new object; the input
    itself stays in the store as it is. *)
Lemma run_conv_copy l t h :
  h !! l = Some t -> ready t = false ->
  exists l' ext,
    run (x ← contiguous l; x ← float_ x; cuda x) {| heap := h |}
    = (Ok l', {| heap := h ++ ext |})
    /\ length h <= l'
    /\ (h ++ ext) !! l' = Some (conv t).
Proof.
  intros E Hr. unfold contiguous, float_, cuda, conv. unfold ready in Hr.
  rewrite run_bind.
  destruct (t_contig t) eqn:Hk;
    [rewrite (run_convert_same _ _ _ _ _ E Hk), run_bind
    |rewrite (run_convert_new _ _ _ _ _ E Hk), run_bind];
    (match goal with
     | |- context [run (convert ?ok _ ?x) {| heap := ?k |}] =>
         let Hd := fresh "Hd" in
         match goal with
         | E' : k !! x = Some ?u |- _ =>
             destruct (ok u) eqn:Hd;
             [rewrite (run_convert_same _ _ _ _ _ E' Hd)
             |rewrite (run_convert_new _ _ _ _ _ E' Hd)]
         | _ =>
             destruct (ok (as_contiguous t)) eqn:Hd;
             [rewrite (run_convert_same _ _ _ _ _ (lookup_fresh _ _) Hd)
             |rewrite (run_convert_new _ _ _ _ _ (lookup_fresh _ _) Hd)]
         end
     end);
    cbn beta in *;
    (match goal with
     | |- context [run (convert ?ok _ ?x) {| heap := ?k |}] =>
         let Hc := fresh "Hc" in
         match goal with
         | E' : k !! x = Some ?u |- _ =>
             destruct (ok u) eqn:Hc;
             [rewrite (run_convert_same _ _ _ _ _ E' Hc)
             |rewrite (run_convert_new _ _ _ _ _ E' Hc)]
         | |- context [run (convert ok _ (length ?k0)) {| heap := ?k0 ++ [?u] |}] =>
             destruct (ok u) eqn:Hc;
             [rewrite (run_convert_same _ _ _ _ _ (lookup_fresh _ _) Hc)
             |rewrite (run_convert_new _ _ _ _ _ (lookup_fresh _ _) Hc)]
         end
     end);
    cbn beta in *; try done;
    rewrite <- ?app_assoc; cbn [app];
    (eexists _, _; split; [reflexivity|]);
    rewrite ?Hd, ?Hc;
    (split; [rewrite ?length_app; lia|]);
    rewrite ?length_app; cbn [length];
    rewrite ?lookup_app_add, ?lookup_app_len; reflexivity.
Qed.

Lemma run_conv_cases l t h :
  h !! l = Some t ->
  exists l' ext,
    run (x ← contiguous l; x ← float_ x; cuda x) {| heap := h |}
    = (Ok l', {| heap := h ++ ext |})
    /\ (h ++ ext) !! l' = Some (conv t)
    /\ (ready t = true -> l' = l /\ ext = [])
    /\ (ready t = false -> length h <= l').
Proof.
  intros E. destruct (ready t) eqn:Hr.
  - exists l, []. rewrite app_nil_r, (conv_ready _ Hr).
    split; [by apply (run_conv_ready l t h)|]. done.
  - destruct (run_conv_copy l t h E Hr) as (l' & ext & R & Hl & X).
    exists l', ext. done.
Qed.

Lemma forward_enters_kernel_with l1 l2 h t1 t2 b n c1 c2 x1 e1 x2 e2 :
  h !! l1 = Some t1 -> h !! l2 = Some t2 ->
  t_shape t1 = [b; n; c1] -> t_shape t2 = [b; n; c2] ->
  n mod block_size = 0 -> b <= max_batch ->
  run (x ← contiguous l1; x ← float_ x; cuda x) {| heap := h |}
  = (Ok x1, {| heap := h ++ e1 |}) ->
  run (x ← contiguous l2; x ← float_ x; cuda x) {| heap := h ++ e1 |}
  = (Ok x2, {| heap := (h ++ e1) ++ e2 |}) ->
  forall c eps iters,
    enters_kernel c l1 l2 eps iters {| heap := h |}
      (solver_args x1 x2 (length ((h ++ e1) ++ e2))) eps iters
      {| heap := ((h ++ e1) ++ e2) ++ solver_buffers b n n |}.
Proof.
  intros E1 E2 S1 S2 Hn Hb R1 R2 c eps iters emd.
  unfold emdFunction_forward.
  rewrite run_bind, (run_size3 _ _ _ _ _ _ E1 S1).
  rewrite run_bind, (run_size3 _ _ _ _ _ _ E2 S2).
  rewrite Nat.eqb_refl, Nat.eqb_refl, Hn, Nat.eqb_refl, (leb_correct _ _ Hb).
  do 4 (rewrite run_bind, run_assert_true).
  rewrite run_bind, R1. rewrite run_bind, R2.
  set (k := (h ++ e1) ++ e2).
  rewrite run_bind, run_zeros.
  rewrite run_bind, run_zeros_minus.
  rewrite run_bind, run_zeros_minus.
  do 9 (rewrite run_bind, run_zeros).
  rewrite run_bind.
  repeat rewrite <- (app_assoc k). cbn [app].
  rewrite !length_app. cbn [length].
  replace (length k + 1 + 1) with (length k + 2) by lia.
  replace (length k + 3 + 1) with (length k + 4) by lia.
  reflexivity.
Qed.

Lemma conv_form t :
  t_contig (conv t) = true /\ t_dtype (conv t) = Float32
  /\ t_device (conv t) = Cuda.
Proof.
  unfold conv. destruct (t_contig t) eqn:Hc; cbn zeta;
    repeat (case_bool_decide; cbn [as_float as_cuda as_contiguous t_dtype
                                   t_device t_contig] in * );
    done.
Qed.

Lemma conv_new_no_grad t :
  ready t = false -> t_requires_grad (conv t) = false.
Proof.
  unfold ready, conv. intros Hr.
  destruct (t_contig t) eqn:Hc; cbn zeta;
    repeat (case_bool_decide; cbn [as_float as_cuda as_contiguous t_dtype
                                   t_device t_requires_grad] in * );
    done.
Qed.

(** X1: [forward] hands an input to the kernel, and saves it for
    [backward], as the very same object exactly when the input is already
    a contiguous float32 tensor on the current CUDA device; otherwise the
    kernel gets a converted new object, which does not require a gradient
    even when the input does (autograd is off inside [forward]).  The
    inputs themselves are still in the store as they were.  With two
    inputs that need no conversion the store at the call of the kernel is
    the initial store plus the fourteen solver objects. *)
Theorem forward_input_aliasing l1 l2 w t1 t2 b n c1 c2 :
  heap w !! l1 = Some t1 -> heap w !! l2 = Some t2 ->
  t_shape t1 = [b; n; c1] -> t_shape t2 = [b; n; c2] ->
  n mod block_size = 0 -> b <= max_batch ->
  exists a w1 x1 x2,
    (forall c eps iters, enters_kernel c l1 l2 eps iters w a eps iters w1)
    /\ heap w1 !! l1 = Some t1 /\ heap w1 !! l2 = Some t2
    /\ heap w1 !! ka_xyz1 a = Some x1 /\ x1 = conv t1
    /\ heap w1 !! ka_xyz2 a = Some x2 /\ x2 = conv t2
    /\ (ready t1 = true -> ka_xyz1 a = l1)
    /\ (ready t2 = true -> ka_xyz2 a = l2)
    /\ (ready t1 = false ->
        length (heap w) <= ka_xyz1 a /\ t_requires_grad x1 = false)
    /\ (ready t2 = false ->
        length (heap w) <= ka_xyz2 a /\ t_requires_grad x2 = false)
    /\ Forall (fun x => t_contig x = true /\ t_dtype x = Float32
                        /\ t_device x = Cuda) [x1; x2]
    /\ (ready t1 = true -> ready t2 = true ->
        heap w1 = heap w ++ solver_buffers b n n).
Proof.
  destruct w as [h]. cbn [heap]. intros E1 E2 S1 S2 Hn Hb.
  destruct (run_conv_cases l1 t1 h E1) as (x1 & e1 & R1 & X1 & Y1 & N1).
  destruct (run_conv_cases l2 t2 (h ++ e1) (lookup_app_l_Some _ _ _ _ E2))
    as (x2 & e2 & R2 & X2 & Y2 & N2).
  exists (solver_args x1 x2 (length ((h ++ e1) ++ e2))),
    {| heap := ((h ++ e1) ++ e2) ++ solver_buffers b n n |},
    (conv t1), (conv t2).
  split.
  { by apply (forward_enters_kernel_with l1 l2 h t1 t2 b n c1 c2 x1 e1 x2 e2). }
  cbn [heap solver_args ka_xyz1 ka_xyz2].
  split; [by do 3 apply lookup_app_l_Some|].
  split; [by do 3 apply lookup_app_l_Some|].
  split; [by do 2 apply lookup_app_l_Some|]. split; [done|].
  split; [by apply lookup_app_l_Some|]. split; [done|].
  split; [by intros [-> _]%Y1|].
  split; [by intros [-> _]%Y2|].
  split; [intros Hr; split; [by apply N1|by apply conv_new_no_grad]|].
  split.
  { intros Hr. split; [|by apply conv_new_no_grad].
    specialize (N2 Hr). rewrite length_app in N2. lia. }
  split.
  { repeat apply Forall_cons_2; try apply Forall_nil_2; apply conv_form. }
  intros [_ ->]%Y1 [_ ->]%Y2. by rewrite !app_nil_r.
Qed.

Lemma run_size3_bad l t h :
  h !! l = Some t -> length (t_shape t) <> 3 ->
  run (size3 l) {| heap := h |} = (Err ValueError, {| heap := h |}).
Proof.
  intros E Hlen. unfold size3. rewrite run_bind, (run_deref _ _ _ E).
  by destruct (t_shape t) as [|? [|? [|? [|? ?]]]].
Qed.

(** X2: an input that does not have exactly three dimensions makes
    [forward] fail with [ValueError] when its size is unpacked, before any
    assertion is evaluated and with the store as it was. *)
Theorem forward_rejects_rank emd c l1 l2 eps iters w t1 t2 :
  heap w !! l1 = Some t1 -> heap w !! l2 = Some t2 ->
  length (t_shape t1) <> 3 \/ length (t_shape t2) <> 3 ->
  run (emdFunction_forward emd c l1 l2 eps iters) w = (Err ValueError, w).
Proof.
  destruct w as [h]. cbn [heap]. intros E1 E2 Hrank.
  unfold emdFunction_forward. rewrite run_bind.
  destruct (decide (length (t_shape t1) = 3)) as [L1|L1].
  - destruct (t_shape t1) as [|b1 [|n1 [|c1 [|? ?]]]] eqn:S1; try done.
    rewrite (run_size3 _ _ _ _ _ _ E1 S1), run_bind.
    destruct Hrank as [?|L2]; [done|].
    by rewrite (run_size3_bad _ _ _ E2 L2).
  - by rewrite (run_size3_bad _ _ _ E1 L1).
Qed.

(** X3: [emd_loss] on inputs that violate a precondition of [forward]
    raises the same [AssertionError] and leaves the store as it was: no
    mean is computed and nothing is created. *)
Theorem emd_loss_rejects emd l1 l2 w t1 t2 b1 n c1 b2 m c2 :
  heap w !! l1 = Some t1 -> heap w !! l2 = Some t2 ->
  t_shape t1 = [b1; n; c1] -> t_shape t2 = [b2; m; c2] ->
  n <> m \/ b1 <> b2 \/ n mod block_size <> 0 \/ max_batch < b1 ->
  run (emd_loss emd l1 l2) w = (Err (AssertionError None), w).
Proof.
  intros E1 E2 S1 S2 Hbad. unfold emd_loss, emdModule_forward.
  rewrite run_bind, (run_apply _ _ _ _ _ _ t1 t2) by done.
  by erewrite forward_checks_fail.
Qed.

(** [backward] with a context that does not hold exactly three saved
    tensors fails with [ValueError] when they are unpacked; nothing is
    created and the kernel is not called. *)
Lemma backward_without_saved_state emd c lg gidx w :
  length (saved_tensors c) <> 3 ->
  run (emdFunction_backward emd c lg gidx) w = (Err ValueError, w).
Proof.
  intros Hlen. unfold emdFunction_backward.
  destruct (saved_tensors c) as [|x1 [|x2 [|la [|? ?]]]]; try reflexivity.
  done.
Qed.

(** X4: after a successful [forward] on sets of 3-D points, [backward]
    with the saved context and any floating point [graddist] of the store
    succeeds: it returns two new gradient tensors of the shapes of the two
    point sets and leaves every existing object, the saved tensors
    included, as it was. *)
Theorem forward_then_backward reg c l1 l2 eps iters w t1 t2 b n c2 :
  heap w !! l1 = Some t1 -> heap w !! l2 = Some t2 ->
  tensor_ok t1 = true -> tensor_ok t2 = true ->
  t_shape t1 = [b; n; 3] -> t_shape t2 = [b; n; c2] ->
  n mod block_size = 0 -> b <= max_batch ->
  exists c' ld la w',
    run (emdFunction_forward (emd_spec reg) c l1 l2 eps iters) w
    = (Ok (c', (ld, la)), w')
    /\ forall lg tg gs gidx,
         heap w' !! lg = Some tg -> t_data tg = FloatData gs ->
         exists g1 g2 w'' tg1 tg2,
           run (emdFunction_backward (emd_spec reg) c' lg gidx) w'
           = (Ok (g1, g2, None, None), w'')
           /\ length (heap w') <= g1 /\ length (heap w') <= g2 /\ g1 <> g2
           /\ heap w'' !! g1 = Some tg1 /\ t_shape tg1 = [b; n; 3]
           /\ heap w'' !! g2 = Some tg2 /\ t_shape tg2 = [b; n; c2]
           /\ (forall l t, heap w' !! l = Some t -> heap w'' !! l = Some t).
Proof.
  destruct w as [h]. cbn [heap]. intros E1 E2 O1 O2 S1 S2 Hn Hb.
  destruct (forward_enters_kernel l1 l2 h t1 t2 b n 3 c2)
    as (x1 & x2 & ext & K & X1 & X2); try done.
  destruct (conv_float_data t1 O1) as [xs1 D1].
  destruct (conv_float_data t2 O2) as [xs2 D2].
  destruct (kernel_forward_run reg x1 x2 (h ++ ext) b n 3 _ _ xs1 xs2
              eps iters X1 X2) as (ext' & R & _ & A);
    [by rewrite conv_shape|done..|].
  eexists _, _, _, _. split.
  { rewrite (K c eps iters (emd_spec reg)).
    cbn [emd_spec emd_forward]. rewrite R. reflexivity. }
  cbn [heap]. intros lg tg gs gidx Eg Dg.
  set (h' := (h ++ ext) ++ ext') in *.
  assert (Ea : h' !! (length (h ++ ext) + 2)
               = Some (with_data
                         (minus_scalar 1 (zeros_tensor [b; n] Cuda (Some Int32)))
                         (IntData
                            (concat ((fun o => au_assignment (fst o)) <$>
                               solver_results reg b n eps iters xs1 xs2)))))
    by (unfold h'; rewrite lookup_app_add; exact A).
  assert (Sc : t_shape (conv t1) = [b; n; 3]) by (by rewrite conv_shape).
  pose proof (backward_run reg
                (save_for_backward c
                   [ka_xyz1 (solver_args x1 x2 (length (h ++ ext)));
                    ka_xyz2 (solver_args x1 x2 (length (h ++ ext)));
                    ka_assignment (solver_args x1 x2 (length (h ++ ext)))])
                lg gidx h' x1 x2 (length (h ++ ext) + 2)
                (conv t1) (conv t2) _ tg b n 3 xs1 xs2 _ gs eq_refl
                (lookup_app_l_Some _ _ _ _ X1)
                (lookup_app_l_Some _ _ _ _ X2) Ea Eg Sc D1 D2 eq_refl Dg)
    as Rb.
  cbn zeta in Rb.
  eexists _, _, _, _, _. split; [exact Rb|]. cbn [heap].
  set (k := h' ++ (if t_contig tg then [] else [as_contiguous tg])).
  assert (Hk : length h' <= length k) by (unfold k; rewrite length_app; lia).
  split; [done|]. split; [lia|]. split; [lia|].
  split; [by rewrite lookup_app_len|]. split; [reflexivity|].
  split; [by rewrite lookup_app_add|].
  split; [cbn; by rewrite conv_shape|].
  intros l t E. by do 2 apply lookup_app_l_Some.
Qed.

End MoreProofs.

(** * Properties of [log_analyzer.py], of the checkpoint functions and of
    the tree decoder *)

(** ** Strings *)

Section StringFacts.

Lemma st_bind {S A B} (m : St S A) (f : A -> St S B) (st : S) :
  (m ≫= f) st =
  match m st with
  | (Done a, st') => f a st'
  | (Raise e, st') => (Raise e, st')
  | (OutOfFuel, st') => (OutOfFuel, st')
  end.
Proof. reflexivity. Qed.

Lemma split_on_nonempty sep s : split_on sep s <> [].
Proof.
  destruct s as [|c r]; [done|]. cbn.
  destruct (Ascii.eqb c sep); [done|]. by destruct (split_on sep r).
Qed.

Lemma first_part_before_newline s :
  first_part (split_on newline s) = LogAnalyzer.before_newline s.
Proof.
  induction s as [|c r IH]; [done|]. cbn.
  destruct (Ascii.eqb c newline); [done|].
  destruct (split_on newline r) as [|p ps] eqn:E.
  - by destruct (split_on_nonempty newline r).
  - cbn in *. by rewrite <- IH.
Qed.

Lemma readline_lines s :
  s <> EmptyString ->
  LogAnalyzer.lines s = fst (readline s) :: LogAnalyzer.lines (snd (readline s))
  /\ fst (readline s) <> EmptyString
  /\ String.length (snd (readline s)) < String.length s.
Proof.
  induction s as [|c r IH]; [done|]. intros _. cbn.
  destruct (Ascii.eqb c newline); cbn; [by auto with lia|].
  destruct r as [|c' r'].
  - cbn. auto with lia.
  - destruct IH as (-> & _ & Hlen); [done|]. auto with lia.
Qed.

Lemma append_cons c p x : (String c p +:+ x)%string = String c (p +:+ x).
Proof. reflexivity. Qed.

Lemma append_nil x : (EmptyString +:+ x)%string = x.
Proof. reflexivity. Qed.

Lemma last_cons_nonempty {A} (x : A) (l : list A) :
  l <> [] -> last (x :: l) = last l.
Proof. by destruct l. Qed.

(** Either the separator does not occur and [split] returns the string
    itself, or the last part is what follows the last separator. *)
Lemma split_on_last sep s :
  split_on sep s = [s]
  \/ exists p, s = (p +:+ String sep (last_part (split_on sep s)))
               /\ 2 <= length (split_on sep s).
Proof.
  induction s as [|c r IH]; [by left|]. cbn [split_on].
  destruct (Ascii.eqb_spec c sep) as [->|Hc].
  - right. unfold last_part.
    rewrite last_cons_nonempty by apply split_on_nonempty.
    pose proof (split_on_nonempty sep r) as Hne.
    assert (Hlen : 2 <= length (EmptyString :: split_on sep r))
      by (destruct (split_on sep r); [done|cbn; lia]).
    destruct IH as [E|(p & E & _)].
    + exists EmptyString. split; [|done]. by rewrite E.
    + exists (String sep p). split; [|done].
      unfold last_part in *. rewrite append_cons. f_equal. exact E.
  - destruct IH as [E|(p & E & Hlen)].
    + left. by rewrite E.
    + right. destruct (split_on sep r) as [|x [|y ys]] eqn:Es;
        [cbn in Hlen; lia..|].
      exists (String c p). split; [|cbn; lia].
      unfold last_part in *. rewrite append_cons. f_equal. exact E.
Qed.

Lemma split_on_free sep s : occurs sep s = false -> split_on sep s = [s].
Proof.
  induction s as [|c r IH]; [done|]. cbn.
  intros [Hc Hr]%orb_false_iff. rewrite Hc, IH; done.
Qed.

Lemma split_on_app sep p q :
  occurs sep q = false ->
  last_part (split_on sep (p +:+ String sep q)) = q
  /\ 2 <= length (split_on sep (p +:+ String sep q)).
Proof.
  intros Hq. induction p as [|c p IH].
  - rewrite append_nil. cbn [split_on].
    rewrite Ascii.eqb_refl, (split_on_free _ _ Hq). cbn. auto.
  - rewrite append_cons. cbn [split_on]. destruct IH as [IH Hlen].
    destruct (Ascii.eqb c sep).
    + unfold last_part in *.
      rewrite last_cons_nonempty by apply split_on_nonempty.
      split; [done|cbn; lia].
    + destruct (split_on sep (p +:+ String sep q)) as [|x [|y ys]];
        [cbn in Hlen; lia..|].
      split; [exact IH|cbn; lia].
Qed.

End StringFacts.

(** ** [begin_analyze] *)

Module LogAnalyzerFacts.
Import LogAnalyzer.

Section Facts.
Variable re_compile_error : string -> option py_error.
Variable re_match : string -> string -> bool.

Lemma scan_some fuel filename patten line rest flag records :
  re_compile_error patten = None ->
  String.length rest + 2 <= fuel -> line <> EmptyString ->
  scan re_compile_error re_match fuel filename patten line rest flag (Some records)
  = (Done tt,
     Some (records ++
       let ms := before_newline <$>
                   filter (fun l => re_match patten l = true)
                     (line :: lines rest) in
       if flag then ms
       else match ms with [] => [] | _ => EmptyString :: filename :: ms end)).
Proof.
  intros Hcomp. revert line rest flag records.
  induction fuel as [|fuel IH]; intros line rest flag records Hfuel Hline;
    [lia|].
  cbn [scan]. destruct (decide (line = EmptyString)) as [|_]; [done|].
  rewrite st_bind. unfold py_re_match at 1. rewrite Hcomp.
  cbn [mret St_ret]. rewrite st_bind.
  assert (Next : forall flag' records',
    scan re_compile_error re_match fuel filename patten (fst (readline rest))
      (snd (readline rest)) flag' (Some records')
    = (Done tt,
       Some (records' ++
         let ms := before_newline <$>
                     filter (fun l => re_match patten l = true) (lines rest) in
         if flag' then ms
         else match ms with [] => [] | _ => EmptyString :: filename :: ms end))).
  { intros flag' records'. destruct (decide (rest = EmptyString)) as [->|Hrest].
    - destruct fuel as [|fuel']; [cbn in Hfuel; lia|].
      cbn. destruct flag'; by rewrite app_nil_r.
    - destruct (readline_lines rest Hrest) as (-> & Hne & Hlen).
      apply IH; [lia|done]. }
  rewrite filter_cons.
  destruct (re_match patten line) eqn:Hm.
  - rewrite decide_True by done.
    rewrite fmap_cons, <- first_part_before_newline.
    destruct flag.
    + cbv [mbind St_bind mret St_ret logger_info].
      rewrite Next. cbn zeta. by rewrite <- app_assoc.
    + cbv [mbind St_bind mret St_ret logger_info].
      rewrite Next. cbn zeta. by rewrite <- !app_assoc.
  - rewrite decide_False by done.
    cbn [mret St_ret]. by rewrite Next.
Qed.

Lemma analyze_file_some filename patten text records :
  re_compile_error patten = None ->
  analyze_file re_compile_error re_match filename patten text (Some records)
  = (Done tt, Some (records ++ file_report re_match filename patten text)).
Proof.
  intros Hcomp. unfold analyze_file, file_report, matches.
  destruct (decide (text = EmptyString)) as [->|Htext].
  - cbn. by rewrite app_nil_r.
  - destruct (readline_lines text Htext) as (El & Hne & Hlen).
    rewrite scan_some by (done || lia). rewrite <- El. cbn zeta.
    by destruct (before_newline <$> _).
Qed.

Lemma scan_none fuel filename patten line rest flag :
  re_compile_error patten = None ->
  String.length rest + 2 <= fuel -> line <> EmptyString ->
  scan re_compile_error re_match fuel filename patten line rest flag None
  = (match filter (fun l => re_match patten l = true) (line :: lines rest) with
     | [] => Done tt
     | _ => Raise AttributeError
     end, None).
Proof.
  intros Hcomp. revert line rest flag.
  induction fuel as [|fuel IH]; intros line rest flag Hfuel Hline; [lia|].
  cbn [scan]. destruct (decide (line = EmptyString)) as [|_]; [done|].
  rewrite st_bind. unfold py_re_match at 1. rewrite Hcomp.
  cbn [mret St_ret]. rewrite st_bind, filter_cons.
  destruct (re_match patten line) eqn:Hm.
  - rewrite decide_True by done. by destruct flag.
  - rewrite decide_False by done. cbn [mret St_ret].
    destruct (decide (rest = EmptyString)) as [->|Hrest].
    + destruct fuel as [|fuel']; [cbn in Hfuel; lia|]. done.
    + destruct (readline_lines rest Hrest) as (-> & Hne & Hlen).
      apply IH; [lia|done].
Qed.

Lemma analyze_file_none filename patten text :
  re_compile_error patten = None ->
  analyze_file re_compile_error re_match filename patten text None
  = (match file_report re_match filename patten text with
     | [] => Done tt
     | _ => Raise AttributeError
     end, None).
Proof.
  intros Hcomp. unfold analyze_file, file_report, matches.
  destruct (decide (text = EmptyString)) as [->|Htext]; [done|].
  destruct (readline_lines text Htext) as (El & Hne & Hlen).
  rewrite scan_none by (done || lia). rewrite <- El.
  by destruct (filter _ (lines text)).
Qed.

(** X5: a file is analysed when its name is [log] or ends in [.log],
    and only then. *)
Theorem selected_iff filename :
  selected filename = true
  <-> filename = "log"%string
      \/ exists p, filename = (p +:+ ".log")%string.
Proof.
  unfold selected. rewrite bool_decide_eq_true. split.
  - intros Hl. destruct (split_on_last "." filename) as [E|(p & E & _)].
    + left. rewrite E in Hl. exact Hl.
    + right. exists p. by rewrite Hl in E.
  - intros [->|[p ->]]; [done|].
    by apply (split_on_app "." p "log").
Qed.

(** X6: for a pattern that compiles, with a logger, and when no selected
    entry is a directory, [begin_analyze] returns and appends the report of
    the directory to the records: for each selected file with a matching
    line, in the order of the listing, an empty record, the name of the
    file and the matching lines without their newline. *)
Theorem begin_analyze_report log_dir patten records :
  re_compile_error patten = None ->
  Forall (fun e => selected (fst e) = true -> snd e <> Directory) log_dir ->
  begin_analyze re_compile_error re_match log_dir patten (Some records)
  = (Done tt, Some (records ++ report re_match log_dir patten)).
Proof.
  intros Hcomp Hdir. revert records.
  induction Hdir as [|[filename e] more He _ IH]; intros records.
  - cbn. by rewrite app_nil_r.
  - cbn [begin_analyze]. rewrite st_bind.
    unfold report. rewrite fmap_cons. cbn [concat].
    fold (report re_match more patten).
    unfold entry_report. cbn [fst snd] in *.
    destruct (selected filename) eqn:Hs; cbn [negb].
    + destruct e as [text|]; [|by destruct He].
      rewrite analyze_file_some, IH by done. by rewrite <- app_assoc.
    + cbn [mret St_ret]. rewrite IH. by destruct e.
Qed.


(** X8: for a pattern that compiles, and without a logger, the run still
    completes when nothing is to be reported, and fails with
    [AttributeError] at the first matching line otherwise. *)
Theorem begin_analyze_no_logger log_dir patten :
  re_compile_error patten = None ->
  Forall (fun e => selected (fst e) = true -> snd e <> Directory) log_dir ->
  begin_analyze re_compile_error re_match log_dir patten None
  = (match report re_match log_dir patten with
     | [] => Done tt
     | _ => Raise AttributeError
     end, None).
Proof.
  intros Hcomp.
  induction 1 as [|[filename e] more He _ IH]; [done|].
  cbn [begin_analyze]. rewrite st_bind.
  unfold report. rewrite fmap_cons. cbn [concat].
  fold (report re_match more patten).
  unfold entry_report. cbn [fst snd] in *.
  destruct (selected filename) eqn:Hs; cbn [negb].
  - destruct e as [text|]; [|by destruct He].
    rewrite analyze_file_none by done.
    destruct (file_report re_match filename patten text); [|done].
    by rewrite IH.
  - cbn [mret St_ret]. rewrite IH. by destruct e.
Qed.

Lemma analyze_file_bad_pattern filename patten text e lg :
  re_compile_error patten = Some e -> text <> EmptyString ->
  analyze_file re_compile_error re_match filename patten text lg
  = (Raise e, lg).
Proof.
  intros Hcomp Htext. unfold analyze_file. cbn [scan].
  destruct (readline_lines text Htext) as (_ & Hne & _).
  rewrite decide_False by done.
  rewrite st_bind. unfold py_re_match. by rewrite Hcomp.
Qed.

(** X20: for a pattern that does not compile, the run raises the
    exception of [re.match] at the first line of the first selected file
    that is not empty; nothing has been logged up to there, with or
    without a logger, and no later entry is read. *)
Theorem begin_analyze_bad_pattern
    before filename text after patten e lg :
  re_compile_error patten = Some e ->
  Forall (fun en => selected (fst en) = true ->
                    snd en = RegularFile EmptyString) before ->
  selected filename = true -> text <> EmptyString ->
  begin_analyze re_compile_error re_match
    (before ++ (filename, RegularFile text) :: after) patten lg
  = (Raise e, lg).
Proof.
  intros Hcomp Hempty Hs Htext.
  induction Hempty as [|[name en] more He _ IH].
  - cbn [app begin_analyze]. rewrite st_bind, Hs. cbn [negb].
    by rewrite (analyze_file_bad_pattern _ _ _ e).
  - cbn [app begin_analyze]. rewrite st_bind. cbn [fst snd] in He.
    destruct (selected name) eqn:Hn; cbn [negb].
    + rewrite (He eq_refl). cbn. exact IH.
    + cbn [mret St_ret]. exact IH.
Qed.

End Facts.
End LogAnalyzerFacts.


Module CheckpointFacts.
Import Checkpoint.

(** ** Names and paths as strings *)

Lemma split_on_snoc sep p q :
  occurs sep q = false ->
  split_on sep (p +:+ String sep q) = split_on sep p ++ [q].
Proof.
  intros Hq. induction p as [|c p IH].
  - rewrite append_nil. cbn [split_on].
    by rewrite Ascii.eqb_refl, (split_on_free _ _ Hq).
  - rewrite append_cons. cbn [split_on]. rewrite IH.
    destruct (Ascii.eqb c sep); [done|].
    destruct (split_on sep p) as [|x xs] eqn:E; [|done].
    by destruct (split_on_nonempty sep p).
Qed.

Lemma ends_with_sep_inv a :
  ends_with_sep a = true -> exists a', a = a' +:+ "/".
Proof.
  induction a as [|c r IH]; [done|]. cbn [ends_with_sep].
  destruct r as [|c' r'].
  - intros ->%Ascii.eqb_eq. by exists EmptyString.
  - intros [a' ->]%IH. by exists (String c a').
Qed.

Lemma starts_with_sep_app a b :
  a <> EmptyString -> starts_with_sep (a +:+ b) = starts_with_sep a.
Proof. by destruct a. Qed.

Lemma append_eq_empty a b : a +:+ b = EmptyString -> a = EmptyString.
Proof. by destruct a. Qed.

Lemma plain_spec name :
  plain name = true ->
  occurs "/" name = false
  /\ String.eqb name EmptyString = false
  /\ String.eqb name "." = false /\ String.eqb name ".." = false.
Proof.
  unfold plain. rewrite !andb_true_iff, !negb_true_iff. tauto.
Qed.

Lemma occurs_append c a b : occurs c (a +:+ b) = occurs c a || occurs c b.
Proof.
  induction a as [|x a IH]; [done|].
  rewrite append_cons. cbn [occurs]. by rewrite IH, orb_assoc.
Qed.

Lemma pretty_N_char_no_sep n : Ascii.eqb (pretty_N_char n) "/" = false.
Proof. unfold pretty_N_char. by repeat case_match. Qed.

Lemma pretty_N_go_no_sep x s :
  occurs "/" s = false -> occurs "/" (pretty_N_go x s) = false.
Proof.
  revert s. induction (N.lt_wf_0 x) as [x _ IH]; intros s Hs.
  destruct (decide (0 < x)%N) as [Hx|Hx].
  - rewrite pretty_N_go_step by done.
    apply IH; [by apply N.div_lt|].
    cbn [occurs]. by rewrite pretty_N_char_no_sep.
  - by replace x with 0%N by lia.
Qed.

Lemma pretty_N_no_sep (x : N) : occurs "/" (pretty x) = false.
Proof.
  unfold pretty, pretty_N. case_decide; [done|].
  by apply pretty_N_go_no_sep.
Qed.

Lemma pretty_Z_no_sep (z : Z) : occurs "/" (pretty z) = false.
Proof.
  destruct z as [|p|p]; [done|apply pretty_N_no_sep|].
  unfold pretty, pretty_Z. rewrite occurs_append.
  apply orb_false_iff. split; [done|apply (pretty_N_no_sep (N.pos p))].
Qed.

Lemma epoch_file_plain (z : Z) : plain (epoch_file (pretty z)) = true.
Proof.
  unfold plain, epoch_file.
  rewrite !occurs_append, pretty_Z_no_sep. done.
Qed.

Lemma append_length a b :
  String.length (a +:+ b) = String.length a + String.length b.
Proof.
  induction a as [|c a IH]; [done|]. rewrite append_cons. cbn. by rewrite IH.
Qed.

Lemma append_cancel_r a b s : a +:+ s = b +:+ s -> a = b.
Proof.
  revert b. induction a as [|c a IH]; intros [|c' b] E.
  - done.
  - apply (f_equal String.length) in E.
    rewrite append_nil, append_cons in E. cbn in E.
    rewrite append_length in E. lia.
  - apply (f_equal String.length) in E.
    rewrite append_nil, append_cons in E. cbn in E.
    rewrite append_length in E. lia.
  - rewrite !append_cons in E. injection E as -> E. f_equal. by apply IH.
Qed.

Lemma epoch_file_inj (z1 z2 : Z) :
  epoch_file (pretty z1) = epoch_file (pretty z2) -> z1 = z2.
Proof.
  unfold epoch_file. intros E.
  apply (inj (String.append "epoch_")) in E.
  apply append_cancel_r in E. by apply (inj pretty).
Qed.

Lemma removelast_snoc {A} (l : list A) (x : A) : removelast (l ++ [x]) = l.
Proof. apply removelast_last. Qed.

Lemma path_join_nonempty d t : d <> EmptyString -> plain t = true ->
  path_join d t <> EmptyString.
Proof.
  intros Hd (Hocc & _)%plain_spec. unfold path_join.
  replace (starts_with_sep t) with false
    by (destruct t as [|c r]; [done|]; cbn in *;
        by apply orb_false_iff in Hocc as [-> _]).
  destruct (_ || _); by destruct d.
Qed.

Section Facts.
Context {SD : Type} {Obj : Type}.
Variable state_dict : Obj -> SD.
Variable torch_map : string -> checkpoint (SD:=SD) -> outcome (checkpoint (SD:=SD)).
Variable py_repr : json -> string.
Implicit Types (st : os_state (SD:=SD)) (f : gmap (list string) (fnode (SD:=SD))).

(** ** Paths *)

Lemma walk_mono f f' cur comps p :
  (forall k, f !! k = Some FDir -> f' !! k = Some FDir) ->
  walk f cur comps = Done p -> walk f' cur comps = Done p.
Proof.
  intros Hdir. revert cur.
  induction comps as [|c cs IH]; intros cur; [done|]. cbn [walk].
  destruct (String.eqb c EmptyString); [apply IH|].
  destruct (f !! cur) as [[|d]|] eqn:E; [|done..].
  rewrite (Hdir _ E). apply IH.
Qed.

Lemma resolve_mono st st' path p :
  cwd st' = cwd st ->
  (forall k, fs st !! k = Some FDir -> fs st' !! k = Some FDir) ->
  resolve st path = Done p -> resolve st' path = Done p.
Proof.
  unfold resolve. intros -> Hdir.
  destruct (String.eqb path EmptyString); [done|]. by apply walk_mono.
Qed.

Lemma walk_app f cur cs cs' :
  walk f cur (cs ++ cs')
  = match walk f cur cs with
    | Done p => walk f p cs'
    | Raise e => Raise e
    | OutOfFuel => OutOfFuel
    end.
Proof.
  revert cur. induction cs as [|c cs IH]; intros cur; [done|].
  cbn [app walk]. destruct (String.eqb c EmptyString); [apply IH|].
  destruct (f !! cur) as [[|d]|]; [apply IH|done..].
Qed.

(** Resolving [join(dir, name)] is resolving [dir] and going one entry
    down. *)
Lemma resolve_join st dir name :
  dir <> EmptyString -> plain name = true ->
  resolve st (path_join dir name)
  = match resolve st dir with
    | Done dp =>
        match fs st !! dp with
        | Some FDir => Done (dp ++ [name])
        | Some (FFile _) => Raise NotADirectoryError
        | None => Raise FileNotFoundError
        end
    | Raise e => Raise e
    | OutOfFuel => OutOfFuel
    end.
Proof.
  intros Hdir (Hocc & Hne & Hdot & Hdotdot)%plain_spec.
  assert (Hstart : starts_with_sep name = false).
  { destruct name as [|c r]; [done|]. cbn in *.
    by apply orb_false_iff in Hocc as [-> _]. }
  assert (Hd : String.eqb dir EmptyString = false)
    by (by apply String.eqb_neq).
  assert (Hlast : forall cur,
            walk (fs st) cur [name]
            = match fs st !! cur with
              | Some FDir => Done (cur ++ [name])
              | Some (FFile _) => Raise NotADirectoryError
              | None => Raise FileNotFoundError
              end).
  { intros cur. cbn [walk]. rewrite Hne, Hdot, Hdotdot.
    by destruct (fs st !! cur) as [[|?]|]. }
  unfold path_join, resolve. rewrite Hstart, Hd. cbn [orb].
  destruct (ends_with_sep dir) eqn:He.
  - destruct (ends_with_sep_inv _ He) as [a' ->].
    replace (String.eqb ((a' +:+ "/") +:+ name) EmptyString) with false
      by (by destruct a').
    rewrite starts_with_sep_app by done.
    replace ((a' +:+ "/") +:+ name) with (a' +:+ String "/" name)
      by (clear; induction a' as [|c a' IH]; [done|];
          by rewrite !append_cons, IH).
    rewrite split_on_snoc by done.
    rewrite (split_on_snoc "/" a' EmptyString) by done.
    rewrite !walk_app.
    destruct (walk (fs st) _ (split_on "/" a')) as [p| |]; [|done..].
    cbn [walk String.eqb]. apply Hlast.
  - replace (String.eqb (dir +:+ String "/" name) EmptyString) with false
      by (by destruct dir).
    rewrite starts_with_sep_app by done.
    rewrite split_on_snoc, walk_app by done.
    destruct (walk (fs st) _ (split_on "/" dir)) as [p| |]; [|done..].
    apply Hlast.
Qed.

(** ** The name of a checkpoint file *)

(** ** [save_model] *)

Lemma with_fs_same st : with_fs st (fs st) = st.
Proof. by destruct st. Qed.

Lemma resolve_empty st : resolve st EmptyString = Raise FileNotFoundError.
Proof. done. Qed.

(** What a successful [save_model] has done. *)
Lemma save_model_inv specs model lr_schedule optimizer epoch st st' :
  save_model state_dict specs model lr_schedule optimizer epoch st
  = (Done tt, st') ->
  exists kvs d t dp f1,
    specs = JObj kvs
    /\ assoc "ParaSaveDir" kvs = JStr d /\ assoc "TAG" kvs = JStr t
    /\ path_join d t <> EmptyString
    /\ (f1 = fs st \/ (fs st !! dp = None /\ f1 = <[dp := FDir]> (fs st)))
    /\ resolve (with_fs st f1) (path_join d t) = Done dp
    /\ f1 !! dp = Some FDir
    /\ f1 !! (dp ++ [epoch_file (pretty epoch)]) <> Some FDir
    /\ st' = with_fs st
               (<[dp ++ [epoch_file (pretty epoch)] :=
                    FFile (Pickled
                      {| ck_epoch := epoch; ck_model := state_dict model;
                         ck_lr_schedule := state_dict lr_schedule;
                         ck_optimizer := state_dict optimizer |})]> f1).
Proof.
  unfold save_model.
  destruct specs as [| | | | | |kvs]; try done.
  do 2 (rewrite st_bind; cbn [py_get mret St_ret]).
  rewrite st_bind.
  destruct (assoc "ParaSaveDir" kvs) as [| | | |d| |] eqn:Ed; try done.
  destruct (assoc "TAG" kvs) as [| | | |t| |] eqn:Et; try done.
  cbn [os_path_join mret St_ret]. rewrite st_bind.
  remember (path_join d t) as P1 eqn:EP1.
  set (name := epoch_file (pretty epoch)).
  set (ck := {| ck_epoch := epoch |}).
  assert (Hjoin : forall st1 dp,
            P1 <> EmptyString -> resolve st1 P1 = Done dp ->
            fs st1 !! dp = Some FDir ->
            resolve st1 (path_join P1 name) = Done (dp ++ [name])).
  { intros st1 dp HP R Hd.
    rewrite resolve_join, R, Hd by (done || apply epoch_file_plain). done. }
  assert (Hsave : forall st1 dp,
            P1 <> EmptyString -> resolve st1 P1 = Done dp ->
            fs st1 !! dp = Some FDir ->
            torch_save ck (path_join P1 name) st1 = (Done tt, st') ->
            fs st1 !! (dp ++ [name]) <> Some FDir
            /\ st' = with_fs st1 (<[dp ++ [name] := FFile (Pickled ck)]> (fs st1))).
  { intros st1 dp HP R Hd. unfold torch_save.
    rewrite (Hjoin st1 dp HP R Hd), removelast_snoc, Hd.
    destruct (fs st1 !! (dp ++ [name])) as [[|x]|]; [done|..];
      intros [= <-]; done. }
  unfold os_path_isdir.
  destruct (decide (P1 = EmptyString)) as [HP|HP].
  { rewrite HP, resolve_empty. cbn [negb]. rewrite st_bind.
    unfold os_mkdir. rewrite resolve_empty. done. }
  destruct (resolve st P1) as [dp| |] eqn:R.
  - destruct (fs st !! dp) as [[|x]|] eqn:Hd; cbn [negb].
    + rewrite st_bind. cbn [mret St_ret]. intros Hs.
      destruct (Hsave st dp HP R Hd Hs) as [Hn ->].
      subst P1. exists kvs, d, t, dp, (fs st). rewrite with_fs_same.
      repeat split; auto.
    + rewrite st_bind. unfold os_mkdir. rewrite R, Hd. done.
    + rewrite st_bind. unfold os_mkdir. rewrite R, Hd.
      destruct (fs st !! removelast dp) as [[|x]|] eqn:Hp; [|done..].
      intros Hs.
      set (st1 := with_fs st (<[dp := FDir]> (fs st))) in *.
      assert (R1 : resolve st1 P1 = Done dp).
      { apply (resolve_mono st); [done| |done].
        intros k Hk. cbn. rewrite lookup_insert_ne; [done|].
        intros <-. by rewrite Hd in Hk. }
      assert (Hd1 : fs st1 !! dp = Some FDir) by apply lookup_insert_eq.
      destruct (Hsave st1 dp HP R1 Hd1 Hs) as [Hn ->].
      subst P1. exists kvs, d, t, dp, (<[dp := FDir]> (fs st)).
      repeat split; auto.
  - cbn [negb]. rewrite st_bind. unfold os_mkdir. by rewrite R.
  - cbn [negb]. rewrite st_bind. unfold os_mkdir. by rewrite R.
Qed.

(** X9: the first [save_model] of a run, with a [ParaSaveDir] that
    exists and a [TAG] that names an entry which does not exist yet,
    creates the directory of the run and writes the checkpoint of the
    epoch into it; nothing else changes. *)
Theorem save_model_first_epoch
    specs kvs d t model lr_schedule optimizer epoch st pd :
  specs = JObj kvs ->
  assoc "ParaSaveDir" kvs = JStr d -> assoc "TAG" kvs = JStr t ->
  d <> EmptyString -> plain t = true ->
  resolve st d = Done pd -> fs st !! pd = Some FDir ->
  fs st !! (pd ++ [t]) = None ->
  fs st !! ((pd ++ [t]) ++ [epoch_file (pretty epoch)]) = None ->
  save_model state_dict specs model lr_schedule optimizer epoch st
  = (Done tt,
     with_fs st
       (<[(pd ++ [t]) ++ [epoch_file (pretty epoch)] :=
            FFile (Pickled
              {| ck_epoch := epoch; ck_model := state_dict model;
                 ck_lr_schedule := state_dict lr_schedule;
                 ck_optimizer := state_dict optimizer |})]>
          (<[pd ++ [t] := FDir]> (fs st)))).
Proof.
  intros -> Ed Et Hd Ht R Hpd Hrun Hfile.
  pose proof (path_join_nonempty d t Hd Ht) as HP.
  unfold save_model.
  do 2 (rewrite st_bind; cbn [py_get mret St_ret]).
  rewrite st_bind, Ed, Et. cbn [os_path_join mret St_ret].
  rewrite st_bind. unfold os_path_isdir.
  rewrite (resolve_join st d t Hd Ht), R, Hpd, Hrun. cbn [negb].
  rewrite st_bind. unfold os_mkdir.
  rewrite (resolve_join st d t Hd Ht), R, Hpd, Hrun, removelast_snoc, Hpd.
  set (st1 := with_fs st (<[pd ++ [t] := FDir]> (fs st))).
  unfold torch_save.
  assert (R1 : resolve st1 (path_join d t) = Done (pd ++ [t])).
  { apply (resolve_mono st); [done| |].
    - intros k Hk. cbn. rewrite lookup_insert_ne; [done|].
      intros <-. by rewrite Hrun in Hk.
    - by rewrite (resolve_join st d t Hd Ht), R, Hpd. }
  rewrite (resolve_join st1 _ _ HP (epoch_file_plain epoch)), R1.
  cbn [fs st1 with_fs]. rewrite lookup_insert_eq.
  rewrite lookup_insert_ne
    by (intros E; apply (f_equal length) in E; rewrite !length_app in E;
        cbn in E; lia).
  by rewrite Hfile, removelast_snoc, lookup_insert_eq.
Qed.

(** X10: [save_model] stops with [FileNotFoundError], and changes
    nothing, when [ParaSaveDir] itself does not exist: it creates one
    directory level only. *)
Theorem save_model_missing_parent
    specs kvs d t model lr_schedule optimizer epoch st pd :
  specs = JObj kvs ->
  assoc "ParaSaveDir" kvs = JStr d -> assoc "TAG" kvs = JStr t ->
  d <> EmptyString -> plain t = true ->
  resolve st d = Done pd -> fs st !! pd = None ->
  save_model state_dict specs model lr_schedule optimizer epoch st
  = (Raise FileNotFoundError, st).
Proof.
  intros -> Ed Et Hd Ht R Hpd.
  unfold save_model.
  do 2 (rewrite st_bind; cbn [py_get mret St_ret]).
  rewrite st_bind, Ed, Et. cbn [os_path_join mret St_ret].
  rewrite st_bind. unfold os_path_isdir.
  rewrite (resolve_join st d t Hd Ht), R, Hpd. cbn [negb].
  rewrite st_bind. unfold os_mkdir.
  by rewrite (resolve_join st d t Hd Ht), R, Hpd.
Qed.

(** X11: what [save_model] leaves untouched: the working directory, the
    log, and every entry of the file system except the checkpoint file of
    the epoch. *)
Theorem save_model_frame specs model lr_schedule optimizer epoch st st' :
  save_model state_dict specs model lr_schedule optimizer epoch st
  = (Done tt, st') ->
  cwd st' = cwd st /\ log st' = log st
  /\ exists fp,
       last fp = Some (epoch_file (pretty epoch))
       /\ fs st' !! fp
          = Some (FFile (Pickled
                    {| ck_epoch := epoch; ck_model := state_dict model;
                       ck_lr_schedule := state_dict lr_schedule;
                       ck_optimizer := state_dict optimizer |}))
       /\ forall k x, k <> fp -> fs st !! k = Some x -> fs st' !! k = Some x.
Proof.
  intros (kvs & d & t & dp & f1 & -> & Ed & Et & HP & Hf1 & R & Hd & Hn & ->)
    %save_model_inv.
  split; [done|]. split; [done|].
  exists (dp ++ [epoch_file (pretty epoch)]).
  split; [by rewrite last_snoc|].
  split; [apply lookup_insert_eq|].
  intros k x Hk E. cbn. rewrite lookup_insert_ne by done.
  destruct Hf1 as [->|[Hnone ->]]; [done|].
  rewrite lookup_insert_ne; [done|]. intros <-. by rewrite Hnone in E.
Qed.

(** ** [get_checkpoint] *)

Lemma get_checkpoint_loads specs kvs topts d t epoch st dp ck records :
  specs = JObj kvs ->
  assoc "TrainOptions" kvs = JObj topts ->
  truthy (assoc "ContinueTrain" topts) = true ->
  assoc "ContinueFromEpoch" topts = JInt epoch ->
  assoc "ParaSaveDir" kvs = JStr d -> assoc "TAG" kvs = JStr t ->
  path_join d t <> EmptyString ->
  resolve st (path_join d t) = Done dp -> fs st !! dp = Some FDir ->
  fs st !! (dp ++ [epoch_file (pretty epoch)]) = Some (FFile (Pickled ck)) ->
  log st = Some records ->
  get_checkpoint torch_map py_repr specs st
  = (match torch_map ("cuda:" +:+ py_str py_repr (assoc "Device" kvs)) ck with
     | Done c => Done (Some c)
     | Raise x => Raise x
     | OutOfFuel => OutOfFuel
     end,
     {| fs := fs st; cwd := cwd st;
        log := Some (records ++
                 ["load checkpoint from "
                  +:+ path_join (path_join d t) (epoch_file (pretty epoch))]) |}).
Proof.
  intros -> Eo Hc Ee Ed Et HP R Hd Hf Hl.
  unfold get_checkpoint.
  do 2 (rewrite st_bind; cbn [py_get mret St_ret]).
  rewrite Eo. rewrite st_bind; cbn [py_get mret St_ret].
  rewrite Hc. cbn [negb].
  do 4 (rewrite st_bind; cbn [py_get mret St_ret]).
  rewrite st_bind, Ed, Et, Ee. cbn [os_path_join mret St_ret py_str].
  rewrite st_bind. unfold logger_info at 1. rewrite Hl.
  rewrite st_bind. unfold torch_load.
  set (st1 := {| fs := fs st |}).
  assert (R1 : resolve st1 (path_join d t) = Done dp)
    by (by apply (resolve_mono st)).
  rewrite (resolve_join st1 _ _ HP (epoch_file_plain epoch)), R1.
  cbn [fs st1]. rewrite Hd, Hf.
  by destruct (torch_map _ ck).
Qed.

(** X12: after [save_model] for an epoch, [get_checkpoint] with
    [ContinueFromEpoch] set to that epoch loads the checkpoint that was
    saved: its epoch and the three state dictionaries of the saved
    objects, as [torch.load] maps them to the device. *)
Theorem save_then_get_checkpoint
    specs kvs topts d t model lr_schedule optimizer epoch st st' records :
  save_model state_dict specs model lr_schedule optimizer epoch st
  = (Done tt, st') ->
  specs = JObj kvs ->
  assoc "TrainOptions" kvs = JObj topts ->
  truthy (assoc "ContinueTrain" topts) = true ->
  assoc "ContinueFromEpoch" topts = JInt epoch ->
  assoc "ParaSaveDir" kvs = JStr d -> assoc "TAG" kvs = JStr t ->
  log st' = Some records ->
  get_checkpoint torch_map py_repr specs st'
  = (match torch_map ("cuda:" +:+ py_str py_repr (assoc "Device" kvs))
             {| ck_epoch := epoch; ck_model := state_dict model;
                ck_lr_schedule := state_dict lr_schedule;
                ck_optimizer := state_dict optimizer |} with
     | Done c => Done (Some c)
     | Raise x => Raise x
     | OutOfFuel => OutOfFuel
     end,
     {| fs := fs st'; cwd := cwd st';
        log := Some (records ++
                 ["load checkpoint from "
                  +:+ path_join (path_join d t) (epoch_file (pretty epoch))]) |}).
Proof.
  intros (kvs' & d' & t' & dp & f1 & E & Ed' & Et' & HP & Hf1 & R & Hd & Hn & ->)
    %save_model_inv -> Eo Hc Ee Ed Et Hl.
  injection E as <-. rewrite Ed in Ed'. rewrite Et in Et'.
  injection Ed' as <-. injection Et' as <-.
  assert (Hne : dp <> dp ++ [epoch_file (pretty epoch)]).
  { intros E. apply (f_equal length) in E. rewrite length_app in E.
    cbn in E. lia. }
  eapply (get_checkpoint_loads _ kvs topts d t epoch _ dp); try done.
  - apply (resolve_mono (with_fs st f1)); [done| |done].
    intros k Hk. cbn in *. rewrite lookup_insert_ne; [done|].
    intros <-. by rewrite Hk in Hn.
  - cbn. by rewrite lookup_insert_ne.
  - cbn. apply lookup_insert_eq.
Qed.

(** X13: saving a later epoch keeps the checkpoints of the other
    epochs: after [save_model] for [e1] and then for a different [e2],
    [get_checkpoint] for [e1] still loads what was saved for [e1]. *)
Theorem save_keeps_other_epochs
    specs kvs topts d t m1 l1 o1 m2 l2 o2 e1 e2 st st1 st2 records :
  save_model state_dict specs m1 l1 o1 e1 st = (Done tt, st1) ->
  save_model state_dict specs m2 l2 o2 e2 st1 = (Done tt, st2) ->
  e1 <> e2 ->
  specs = JObj kvs ->
  assoc "TrainOptions" kvs = JObj topts ->
  truthy (assoc "ContinueTrain" topts) = true ->
  assoc "ContinueFromEpoch" topts = JInt e1 ->
  assoc "ParaSaveDir" kvs = JStr d -> assoc "TAG" kvs = JStr t ->
  log st2 = Some records ->
  get_checkpoint torch_map py_repr specs st2
  = (match torch_map ("cuda:" +:+ py_str py_repr (assoc "Device" kvs))
             {| ck_epoch := e1; ck_model := state_dict m1;
                ck_lr_schedule := state_dict l1;
                ck_optimizer := state_dict o1 |} with
     | Done c => Done (Some c)
     | Raise x => Raise x
     | OutOfFuel => OutOfFuel
     end,
     {| fs := fs st2; cwd := cwd st2;
        log := Some (records ++
                 ["load checkpoint from "
                  +:+ path_join (path_join d t) (epoch_file (pretty e1))]) |}).
Proof.
  intros (kvs' & d' & t' & dp & f1 & E & Ed' & Et' & HP & Hf1 & R & Hd & Hn & ->)
    %save_model_inv.
  intros (kvs2 & d2 & t2 & dp2 & f2 & E2 & Ed2 & Et2 & _ & Hf2 & R2 & Hd2 & Hn2 & ->)
    %save_model_inv Hne -> Eo Hc Ee Ed Et Hl.
  injection E as <-. injection E2 as <-.
  rewrite Ed in Ed', Ed2. rewrite Et in Et', Et2.
  injection Ed' as <-. injection Et' as <-.
  injection Ed2 as <-. injection Et2 as <-.
  set (fp1 := dp ++ [epoch_file (pretty e1)]) in *.
  set (ck1 := {| ck_epoch := e1 |}) in *.
  set (st1 := with_fs st (<[fp1 := FFile (Pickled ck1)]> f1)) in *.
  assert (Hlen : dp <> fp1).
  { intros E. apply (f_equal length) in E. unfold fp1 in E.
    rewrite length_app in E. cbn in E. lia. }
  assert (R1 : resolve st1 (path_join d t) = Done dp).
  { apply (resolve_mono (with_fs st f1)); [done| |done].
    intros k Hk. cbn in *. rewrite lookup_insert_ne; [done|].
    intros <-. by rewrite Hk in Hn. }
  assert (Hd1 : fs st1 !! dp = Some FDir)
    by (cbn; by rewrite lookup_insert_ne).
  assert (dp2 = dp /\ f2 = fs st1) as [-> ->].
  { destruct Hf2 as [->|[Hnone ->]].
    - rewrite with_fs_same in R2. rewrite R1 in R2. by injection R2.
    - assert (R3 : resolve (with_fs st1 (<[dp2 := FDir]> (fs st1)))
                     (path_join d t) = Done dp).
      { apply (resolve_mono st1); [done| |done].
        intros k Hk. cbn. rewrite lookup_insert_ne; [done|].
        intros <-. cbn in Hnone, Hk. congruence. }
      rewrite R3 in R2. injection R2 as <-. by rewrite Hd1 in Hnone. }
  assert (Hfp : fp1 <> dp ++ [epoch_file (pretty e2)]).
  { unfold fp1. intros E. apply app_inv_head in E.
    assert (E' : epoch_file (pretty e1) = epoch_file (pretty e2))
      by congruence.
    by apply epoch_file_inj in E'. }
  eapply (get_checkpoint_loads _ kvs topts d t e1 _ dp); try done.
  - apply (resolve_mono st1); [done| |done].
    intros k Hk. cbn. rewrite lookup_insert_ne; [done|].
    intros <-. by rewrite Hk in Hn2.
  - cbn. rewrite lookup_insert_ne; [done|].
    intros E. apply (f_equal length) in E. rewrite length_app in E.
    cbn in E. lia.
  - cbn. rewrite lookup_insert_ne by done. apply lookup_insert_eq.
Qed.

(** X14: [get_checkpoint] for an epoch whose file is not in the
    directory of the run stops with [FileNotFoundError]; the record
    [load checkpoint from ...] is in the log all the same, as it is
    written before the file is opened. *)
Theorem get_checkpoint_missing_epoch
    specs kvs topts d t epoch st dp records :
  specs = JObj kvs ->
  assoc "TrainOptions" kvs = JObj topts ->
  truthy (assoc "ContinueTrain" topts) = true ->
  assoc "ContinueFromEpoch" topts = JInt epoch ->
  assoc "ParaSaveDir" kvs = JStr d -> assoc "TAG" kvs = JStr t ->
  path_join d t <> EmptyString ->
  resolve st (path_join d t) = Done dp -> fs st !! dp = Some FDir ->
  fs st !! (dp ++ [epoch_file (pretty epoch)]) = None ->
  log st = Some records ->
  get_checkpoint torch_map py_repr specs st
  = (Raise FileNotFoundError,
     {| fs := fs st; cwd := cwd st;
        log := Some (records ++
                 ["load checkpoint from "
                  +:+ path_join (path_join d t) (epoch_file (pretty epoch))]) |}).
Proof.
  intros -> Eo Hc Ee Ed Et HP R Hd Hf Hl.
  unfold get_checkpoint.
  do 2 (rewrite st_bind; cbn [py_get mret St_ret]).
  rewrite Eo. rewrite st_bind; cbn [py_get mret St_ret].
  rewrite Hc. cbn [negb].
  do 4 (rewrite st_bind; cbn [py_get mret St_ret]).
  rewrite st_bind, Ed, Et, Ee. cbn [os_path_join mret St_ret py_str].
  rewrite st_bind. unfold logger_info at 1. rewrite Hl.
  rewrite st_bind. unfold torch_load.
  set (st1 := {| fs := fs st |}).
  assert (R1 : resolve st1 (path_join d t) = Done dp)
    by (by apply (resolve_mono st)).
  rewrite (resolve_join st1 _ _ HP (epoch_file_plain epoch)), R1.
  cbn [fs st1]. by rewrite Hd, Hf.
Qed.

(** *** Every way through [get_checkpoint] *)

Lemma torch_load_state path ml st :
  snd (torch_load torch_map path ml st) = st.
Proof.
  unfold torch_load. destruct (resolve st path); [|done..].
  by destruct (fs st !! a) as [[|[?|?]]|].
Qed.

Lemma get_checkpoint_no_dict specs st :
  (forall kvs, specs <> JObj kvs) ->
  get_checkpoint torch_map py_repr specs st = (Raise AttributeError, st).
Proof.
  intros Hno. unfold get_checkpoint. rewrite st_bind.
  destruct specs as [| | | | | |kvs]; try done. by destruct (Hno kvs).
Qed.

Lemma get_checkpoint_no_options kvs st :
  (forall topts, assoc "TrainOptions" kvs <> JObj topts) ->
  get_checkpoint torch_map py_repr (JObj kvs) st = (Raise AttributeError, st).
Proof.
  intros Hno. unfold get_checkpoint.
  do 2 (rewrite st_bind; cbn [py_get mret St_ret]). rewrite st_bind.
  destruct (assoc "TrainOptions" kvs) as [| | | | | |topts]; try done.
  by destruct (Hno topts).
Qed.

Lemma get_checkpoint_fresh kvs topts st :
  assoc "TrainOptions" kvs = JObj topts ->
  truthy (assoc "ContinueTrain" topts) = false ->
  get_checkpoint torch_map py_repr (JObj kvs) st = (Done None, st).
Proof.
  intros Eo Hc. unfold get_checkpoint.
  do 2 (rewrite st_bind; cbn [py_get mret St_ret]).
  rewrite Eo. rewrite st_bind; cbn [py_get mret St_ret].
  by rewrite Hc.
Qed.

Lemma get_checkpoint_continue kvs topts st :
  assoc "TrainOptions" kvs = JObj topts ->
  truthy (assoc "ContinueTrain" topts) = true ->
  get_checkpoint torch_map py_repr (JObj kvs) st
  = match assoc "ParaSaveDir" kvs, assoc "TAG" kvs with
    | JStr d, JStr t =>
        let path :=
          path_join (path_join d t)
            (epoch_file (py_str py_repr (assoc "ContinueFromEpoch" topts))) in
        match log st with
        | None => (Raise AttributeError, st)
        | Some records =>
            match torch_load torch_map path
                    ("cuda:" +:+ py_str py_repr (assoc "Device" kvs))
                    {| fs := fs st; cwd := cwd st;
                       log := Some (records
                                    ++ ["load checkpoint from " +:+ path]) |}
            with
            | (Done c, s) => (Done (Some c), s)
            | (Raise e, s) => (Raise e, s)
            | (OutOfFuel, s) => (OutOfFuel, s)
            end
        end
    | _, _ => (Raise TypeError, st)
    end.
Proof.
  intros Eo Hc. unfold get_checkpoint.
  do 2 (rewrite st_bind; cbn [py_get mret St_ret]).
  rewrite Eo. rewrite st_bind; cbn [py_get mret St_ret].
  rewrite Hc. cbn [negb].
  do 4 (rewrite st_bind; cbn [py_get mret St_ret]).
  rewrite st_bind.
  destruct (assoc "ParaSaveDir" kvs) as [| | | |d| |]; try done.
  destruct (assoc "TAG" kvs) as [| | | |t| |]; try done.
  cbn [os_path_join mret St_ret]. cbn zeta.
  rewrite st_bind. unfold logger_info at 1.
  destruct (log st) as [records|]; [|done].
  rewrite st_bind.
  by destruct (torch_load _ _ _ _) as [[c|e|] s].
Qed.

(** X15: [get_checkpoint] returns [None] exactly when [TrainOptions] is
    a dictionary in which [ContinueTrain] is absent or false, and then it
    leaves the state as it was: it needs no [ParaSaveDir], no [TAG], no
    logger and no file, and a run that is to continue never returns
    [None]. *)
Theorem get_checkpoint_none_iff specs st st' :
  get_checkpoint torch_map py_repr specs st = (Done None, st')
  <-> st' = st
      /\ exists kvs topts,
           specs = JObj kvs /\ assoc "TrainOptions" kvs = JObj topts
           /\ truthy (assoc "ContinueTrain" topts) = false.
Proof.
  split.
  - intros Hrun.
    destruct specs as [| | | | | |kvs];
      try (by rewrite get_checkpoint_no_dict in Hrun).
    destruct (assoc "TrainOptions" kvs) as [| | | | | |topts] eqn:Eo;
      try (by rewrite get_checkpoint_no_options in Hrun
             by (intros ?; by rewrite Eo)).
    destruct (truthy (assoc "ContinueTrain" topts)) eqn:Hc.
    + rewrite (get_checkpoint_continue _ _ _ Eo Hc) in Hrun.
      destruct (assoc "ParaSaveDir" kvs); try done.
      destruct (assoc "TAG" kvs); try done.
      cbn zeta in Hrun. destruct (log st); [|done].
      by destruct (torch_load _ _ _ _) as [[c|e|] s1].
    + rewrite (get_checkpoint_fresh _ _ _ Eo Hc) in Hrun.
      injection Hrun as <-. split; [done|]. by exists kvs, topts.
  - intros [-> (kvs & topts & -> & Eo & Hc)].
    by apply get_checkpoint_fresh with topts.
Qed.

(** X16: when [get_checkpoint] returns a checkpoint, the run is one
    that continues, the logger is configured and has received exactly one
    record, naming the path [ParaSaveDir/TAG/epoch_<ContinueFromEpoch>.pth];
    a file with a pickled dictionary is at that path, and the result is
    what [torch.load] makes of it for [cuda:<Device>]; the file system and
    the working directory are as before. *)
Theorem get_checkpoint_some_inv specs st ck' st' :
  get_checkpoint torch_map py_repr specs st = (Done (Some ck'), st') ->
  exists kvs topts d t records p ck,
    let path :=
      path_join (path_join d t)
        (epoch_file (py_str py_repr (assoc "ContinueFromEpoch" topts))) in
    specs = JObj kvs /\ assoc "TrainOptions" kvs = JObj topts
    /\ truthy (assoc "ContinueTrain" topts) = true
    /\ assoc "ParaSaveDir" kvs = JStr d /\ assoc "TAG" kvs = JStr t
    /\ log st = Some records
    /\ st' = {| fs := fs st; cwd := cwd st;
                log := Some (records ++ ["load checkpoint from " +:+ path]) |}
    /\ resolve st path = Done p
    /\ fs st !! p = Some (FFile (Pickled ck))
    /\ torch_map ("cuda:" +:+ py_str py_repr (assoc "Device" kvs)) ck
       = Done ck'.
Proof.
  intros Hrun.
  destruct specs as [| | | | | |kvs];
    try (by rewrite get_checkpoint_no_dict in Hrun).
  destruct (assoc "TrainOptions" kvs) as [| | | | | |topts] eqn:Eo;
    try (by rewrite get_checkpoint_no_options in Hrun
           by (intros ?; by rewrite Eo)).
  destruct (truthy (assoc "ContinueTrain" topts)) eqn:Hc.
  2: { by rewrite (get_checkpoint_fresh _ _ _ Eo Hc) in Hrun. }
  rewrite (get_checkpoint_continue _ _ _ Eo Hc) in Hrun.
  destruct (assoc "ParaSaveDir" kvs) as [| | | |d| |] eqn:Ed; try done.
  destruct (assoc "TAG" kvs) as [| | | |t| |] eqn:Et; try done.
  cbn zeta in Hrun.
  destruct (log st) as [records|] eqn:Hl; [|done].
  set (path := path_join _ _) in *.
  set (st1 := {| fs := fs st |}) in *.
  unfold torch_load in Hrun.
  assert (R : resolve st1 path = resolve st path) by done.
  rewrite R in Hrun.
  destruct (resolve st path) as [p| |] eqn:Rp; try done.
  cbn [fs st1] in Hrun.
  destruct (fs st !! p) as [[|[ck|b]]|] eqn:Hp; try done.
  destruct (torch_map _ ck) as [c| |] eqn:Hm; try done.
  injection Hrun as <- <-.
  by exists kvs, topts, d, t, records, p, ck.
Qed.

(** X17: whatever its outcome, [get_checkpoint] leaves the file system
    and the working directory as they were, and gives the logger one
    record at most. *)
Theorem get_checkpoint_read_only specs st :
  let st' := snd (get_checkpoint torch_map py_repr specs st) in
  fs st' = fs st /\ cwd st' = cwd st
  /\ (log st' = log st
      \/ exists records msg,
           log st = Some records /\ log st' = Some (records ++ [msg])).
Proof.
  cbn zeta.
  destruct specs as [| | | | | |kvs];
    try (rewrite get_checkpoint_no_dict by done; by auto).
  destruct (assoc "TrainOptions" kvs) as [| | | | | |topts] eqn:Eo;
    try (rewrite get_checkpoint_no_options by (intros ?; by rewrite Eo);
         by auto).
  destruct (truthy (assoc "ContinueTrain" topts)) eqn:Hc.
  2: { rewrite (get_checkpoint_fresh _ _ _ Eo Hc). by auto. }
  rewrite (get_checkpoint_continue _ _ _ Eo Hc).
  destruct (assoc "ParaSaveDir" kvs) as [| | | |d| |]; try by auto.
  destruct (assoc "TAG" kvs) as [| | | |t| |]; try by auto.
  cbn zeta. destruct (log st) as [records|] eqn:Hl; [|by auto].
  match goal with
  | |- context [torch_load torch_map ?p ?m ?s] =>
      pose proof (torch_load_state p m s) as Hs;
      destruct (torch_load torch_map p m s) as [[c|e|] s']
  end; cbn [snd] in *; subst s'; cbn [fs cwd log];
    (split; [done|]; split; [done|]; right; by eexists _, _).
Qed.

End Facts.
End CheckpointFacts.

(** ** The tree decoder *)

Module TopNetFacts.
Import TopNet.

Section Facts.
Context {T : Type}.
Variable torch_cat : list T -> nat -> outcome T.
Variable mlp : nat -> nat -> nat -> net (T:=T).
Variable final_mlp : nat -> nat -> nat -> net (T:=T).
Implicit Types (body : net (T:=T) -> T -> outcome T) (level : list (net (T:=T))).

Lemma outcome_bind_inv {A B} (m : outcome A) (f : A -> outcome B) b :
  m ≫= f = Done b -> exists a, m = Done a /\ f a = Done b.
Proof. destruct m as [a| |]; [|done..]. intros E. by exists a. Qed.

Lemma children_inv body level feat cs :
  children body level feat = Done cs ->
  length cs = length level
  /\ forall j n, level !! j = Some n ->
       exists c, cs !! j = Some c /\ body n feat = Done c.
Proof.
  revert cs. induction level as [|n more IH]; intros cs; cbn [children].
  - intros [= <-]. by split.
  - intros (c & Ec & (cs' & Ecs & [= <-])%outcome_bind_inv)%outcome_bind_inv.
    destruct (IH _ Ecs) as [Hl Hc]. split; [cbn; by rewrite Hl|].
    intros [|j] n' Hj; cbn in *.
    + injection Hj as <-. by exists c.
    + by apply Hc.
Qed.

Lemma expand_inv body level features out :
  expand body level features = Done out ->
  length out = length features * length level
  /\ forall i feat j n, features !! i = Some feat -> level !! j = Some n ->
       exists c, out !! (i * length level + j) = Some c
                 /\ body n feat = Done c.
Proof.
  revert out. induction features as [|feat more IH]; intros out;
    cbn [expand].
  - intros [= <-]. by split.
  - intros (cs & Ecs & (rest & Er & [= <-])%outcome_bind_inv)
      %outcome_bind_inv.
    destruct (children_inv _ _ _ _ Ecs) as [Hl Hc].
    destruct (IH _ Er) as [Hlr Hr]. split.
    + rewrite length_app, Hl, Hlr. cbn. lia.
    + intros [|i] feat' j n Hi Hj; cbn in Hi.
      * injection Hi as <-. destruct (Hc j n Hj) as (c & Ej & Eb).
        exists c. split; [|done]. cbn. by apply lookup_app_l_Some.
      * destruct (Hr i feat' j n Hi Hj) as (c & Ej & Eb).
        exists c. split; [|done].
        rewrite lookup_app_r by (rewrite Hl; cbn; lia).
        rewrite Hl. rewrite <- Ej. f_equal. cbn. lia.
Qed.

(** X18: the leaves of the tree.  When [forward] returns, its result is
    the concatenation along dimension 2 of as many tensors as the product
    of the sizes of the four levels, and the tensor at position
    [((i1 * n2 + i2) * n3 + i3) * n4 + i4] is the one computed along the
    path that takes module [i1] of level 1, [i2] of level 2, [i3] of level
    3 and [i4] of level 4; the modules of a level are shared by all nodes
    of the level above, and the input [x] is appended again at each inner
    node. *)
Theorem forward_leaves (d : decoder (T:=T)) x pc :
  forward torch_cat d x = Done pc ->
  exists features_4,
    torch_cat features_4 2 = Done pc
    /\ length features_4
       = length (level_1 d) * length (level_2 d) * length (level_3 d)
         * length (level_4 d)
    /\ forall i1 i2 i3 i4 m1 m2 m3 m4,
         level_1 d !! i1 = Some m1 -> level_2 d !! i2 = Some m2 ->
         level_3 d !! i3 = Some m3 -> level_4 d !! i4 = Some m4 ->
         exists c1 c2 c3 p,
           node torch_cat x m1 x = Done c1
           /\ node torch_cat x m2 c1 = Done c2
           /\ node torch_cat x m3 c2 = Done c3
           /\ m4 c3 = Done p
           /\ features_4 !! (((i1 * length (level_2 d) + i2)
                                * length (level_3 d) + i3)
                             * length (level_4 d) + i4) = Some p.
Proof.
  unfold forward.
  intros (f1 & E1 & (f2 & E2 & (f3 & E3 & (f4 & E4 & Ec)%outcome_bind_inv)
    %outcome_bind_inv)%outcome_bind_inv)%outcome_bind_inv.
  destruct (children_inv _ _ _ _ E1) as [L1 H1].
  destruct (expand_inv _ _ _ _ E2) as [L2 H2].
  destruct (expand_inv _ _ _ _ E3) as [L3 H3].
  destruct (expand_inv _ _ _ _ E4) as [L4 H4].
  exists f4. split; [done|]. split; [by rewrite L4, L3, L2, L1|].
  intros i1 i2 i3 i4 m1 m2 m3 m4 Hm1 Hm2 Hm3 Hm4.
  destruct (H1 i1 m1 Hm1) as (c1 & Ec1 & Eb1).
  destruct (H2 i1 c1 i2 m2 Ec1 Hm2) as (c2 & Ec2 & Eb2).
  destruct (H3 _ c2 i3 m3 Ec2 Hm3) as (c3 & Ec3 & Eb3).
  destruct (H4 _ c3 i4 m4 Ec3 Hm4) as (p & Ep & Eb4).
  by exists c1, c2, c3, p.
Qed.

Lemma modules_length (make : nat -> net (T:=T)) created n :
  length (modules make created n) = Z.to_nat n.
Proof. unfold modules. by rewrite length_fmap, length_seq. Qed.

Lemma item_inv (a : list Z) k z : item a k = Done z -> a !! k = Some z.
Proof. unfold item. destruct (a !! k); [|done]. by intros [= ->]. Qed.

(** X19: a decoder that [__init__] builds from [arch] yields, when
    [forward] returns, [arch[0] * arch[1] * arch[2] * arch[3]] leaf tensors
    (an entry below zero counts as zero); [arch] has to have four entries
    at least, and further entries are not used. *)
Theorem init_forward_leaves a d x pc :
  init mlp final_mlp a = Done d ->
  forward torch_cat d x = Done pc ->
  exists a0 a1 a2 a3 more features_4,
    a = a0 :: a1 :: a2 :: a3 :: more
    /\ torch_cat features_4 2 = Done pc
    /\ length features_4
       = Z.to_nat a0 * Z.to_nat a1 * Z.to_nat a2 * Z.to_nat a3.
Proof.
  unfold init.
  intros (a0 & E0 & (a1 & E1 & (a2 & E2 & (a3 & E3 & [= <-])
    %outcome_bind_inv)%outcome_bind_inv)%outcome_bind_inv)%outcome_bind_inv.
  apply item_inv in E0, E1, E2, E3.
  intros (f4 & Ec & Hl & _)%forward_leaves. cbn in Hl.
  rewrite !modules_length in Hl.
  destruct a as [|b0 [|b1 [|b2 [|b3 more]]]]; try done.
  cbn in E0, E1, E2, E3. simplify_eq.
  by exists a0, a1, a2, a3, more, f4.
Qed.

End Facts.
End TopNetFacts.

(** * The further properties on concrete inputs *)

Lemma forward_input_aliasing_witness :
  exists a w1 x1,
    (forall c eps iters,
       enters_kernel c 0 1 eps iters ex_double_world a eps iters w1)
    /\ heap w1 !! 0 = Some ex_double_points
    /\ heap w1 !! 1 = Some (ex_points 0 1 1024 false)
    /\ ka_xyz2 a = 1
    /\ 2 <= ka_xyz1 a
    /\ heap w1 !! ka_xyz1 a = Some x1
    /\ t_requires_grad x1 = false
    /\ t_contig x1 = true /\ t_dtype x1 = Float32 /\ t_device x1 = Cuda.
Proof.
  destruct (forward_input_aliasing 0 1 ex_double_world
              ex_double_points (ex_points 0 1 1024 false)
              1 1024 3 3 eq_refl eq_refl eq_refl eq_refl eq_refl
              ltac:(unfold max_batch; lia))
    as (a & w1 & x1 & x2 & Hk & H1 & H2 & K1 & _ & _ & _ & _ & A2 & N1
        & _ & Hf & _).
  exists a, w1, x1.
  destruct (N1 eq_refl) as [Hl Hg].
  apply Forall_cons_1 in Hf as [(Hc & Hd & Hv) _].
  repeat split; [exact Hk|exact H1|exact H2|exact (A2 eq_refl)|exact Hl
                |exact K1|exact Hg|exact Hc|exact Hd|exact Hv].
Defined.

Lemma forward_rejects_rank_witness :
  run (emdFunction_forward (emd_spec ex_reg) ex_ctx 0 2 (5 # 1000)%Q 50%Z)
      ex_backward_world
  = (Err ValueError, ex_backward_world).
Proof.
  refine (forward_rejects_rank (emd_spec ex_reg) ex_ctx 0 2 (5 # 1000)%Q 50%Z
            ex_backward_world (ex_points 1 1 1024 true) ex_assignment
            eq_refl eq_refl _).
  right. cbn. lia.
Defined.

Lemma emd_loss_rejects_witness :
  run (emd_loss (emd_spec ex_reg) 0 1) ex_mismatch_world
  = (Err (AssertionError None), ex_mismatch_world).
Proof.
  refine (emd_loss_rejects (emd_spec ex_reg) 0 1 ex_mismatch_world
            (ex_points 1 1 1024 true) (ex_points 0 1 2048 false)
            1 1024 3 1 2048 3 eq_refl eq_refl eq_refl eq_refl _).
  left. lia.
Defined.

Lemma forward_then_backward_witness :
  exists c' ld la w',
    run (emdFunction_forward (emd_spec ex_reg) ex_ctx 0 1 (5 # 1000)%Q 50%Z)
        ex_valid_world
    = (Ok (c', (ld, la)), w')
    /\ forall lg tg gs gidx,
         heap w' !! lg = Some tg -> t_data tg = FloatData gs ->
         exists g1 g2 w'' tg1 tg2,
           run (emdFunction_backward (emd_spec ex_reg) c' lg gidx) w'
           = (Ok (g1, g2, None, None), w'')
           /\ length (heap w') <= g1 /\ length (heap w') <= g2 /\ g1 <> g2
           /\ heap w'' !! g1 = Some tg1 /\ t_shape tg1 = [1; 1024; 3]
           /\ heap w'' !! g2 = Some tg2 /\ t_shape tg2 = [1; 1024; 3]
           /\ (forall l t, heap w' !! l = Some t -> heap w'' !! l = Some t).
Proof.
  refine (forward_then_backward ex_reg ex_ctx 0 1 (5 # 1000)%Q 50%Z
            ex_valid_world (ex_points 1 1 1024 true)
            (ex_points 0 1 1024 false) 1 1024 3
            eq_refl eq_refl _ _ eq_refl eq_refl eq_refl _);
    try (vm_compute; reflexivity).
  unfold max_batch. lia.
Defined.

Lemma begin_analyze_report_witness :
  LogAnalyzer.begin_analyze ex_compile_error literal_match ex_log_dir "ERROR" (Some [])
  = (Done tt, Some [""; "a.log"; "ERROR x"; "ERROR y"]%string).
Proof.
  refine (LogAnalyzerFacts.begin_analyze_report ex_compile_error
            literal_match ex_log_dir "ERROR" [] eq_refl _).
  repeat first [apply List.Forall_nil | apply List.Forall_cons];
    intros Hs Hd; (discriminate Hd || (vm_compute in Hs; discriminate Hs)).
Defined.


Lemma begin_analyze_no_logger_witness :
  LogAnalyzer.begin_analyze ex_compile_error literal_match ex_log_dir "ERROR" None
  = (Raise AttributeError, None)
  /\ LogAnalyzer.begin_analyze ex_compile_error literal_match ex_log_dir "WARNING" None
     = (Done tt, None).
Proof.
  assert (Hdir : Forall (fun e => LogAnalyzer.selected (fst e) = true ->
                                  snd e <> LogAnalyzer.Directory) ex_log_dir).
  { repeat first [apply List.Forall_nil | apply List.Forall_cons];
      intros Hs Hd; (discriminate Hd || (vm_compute in Hs; discriminate Hs)). }
  split.
  - exact (LogAnalyzerFacts.begin_analyze_no_logger ex_compile_error
             literal_match ex_log_dir "ERROR" eq_refl Hdir).
  - exact (LogAnalyzerFacts.begin_analyze_no_logger ex_compile_error
             literal_match ex_log_dir "WARNING" eq_refl Hdir).
Defined.

Lemma begin_analyze_bad_pattern_witness :
  LogAnalyzer.begin_analyze ex_compile_error literal_match
    (ex_log_empty
     ++ ("a.log"%string, LogAnalyzer.RegularFile (ex_text ["ok"%string]))
        :: ex_log_after)
    "(" (Some [])
  = (Raise ReError, Some []).
Proof.
  refine (LogAnalyzerFacts.begin_analyze_bad_pattern ex_compile_error
            literal_match ex_log_empty "a.log" (ex_text ["ok"%string])
            ex_log_after "(" ReError (Some []) eq_refl _ _ _).
  - repeat first [apply List.Forall_nil | apply List.Forall_cons];
      intros Hs; (reflexivity || (vm_compute in Hs; discriminate Hs)).
  - vm_compute. reflexivity.
  - discriminate.
Defined.

Lemma save_model_first_epoch_witness :
  Checkpoint.save_model ex_state_dict (Checkpoint.JObj ex_config)
    "net" "sched" "adam" 3%Z ex_os
  = (Done tt,
     Checkpoint.with_fs ex_os
       (<[ ["home"; "ckpt"; "run1"; "epoch_3.pth"]%string :=
             Checkpoint.FFile (Checkpoint.Pickled
               {| Checkpoint.ck_epoch := 3%Z;
                  Checkpoint.ck_model := "state of net"%string;
                  Checkpoint.ck_lr_schedule := "state of sched"%string;
                  Checkpoint.ck_optimizer := "state of adam"%string |}) ]>
          (<[ ["home"; "ckpt"; "run1"]%string := Checkpoint.FDir ]>
             (Checkpoint.fs ex_os)))).
Proof.
  refine (CheckpointFacts.save_model_first_epoch ex_state_dict
            (Checkpoint.JObj ex_config) ex_config "ckpt" "run1"
            "net" "sched" "adam" 3%Z ex_os ["home"; "ckpt"]%string
            eq_refl eq_refl eq_refl _ eq_refl _ _ _ _);
    try (vm_compute; reflexivity).
  discriminate.
Defined.

Lemma save_model_missing_parent_witness :
  Checkpoint.save_model ex_state_dict (Checkpoint.JObj ex_config)
    "net" "sched" "adam" 3%Z ex_os_bare
  = (Raise FileNotFoundError, ex_os_bare).
Proof.
  refine (CheckpointFacts.save_model_missing_parent ex_state_dict
            (Checkpoint.JObj ex_config) ex_config "ckpt" "run1"
            "net" "sched" "adam" 3%Z ex_os_bare ["home"; "ckpt"]%string
            eq_refl eq_refl eq_refl _ eq_refl _ _);
    try (vm_compute; reflexivity).
  discriminate.
Defined.

Lemma save_model_frame_witness :
  Checkpoint.cwd ex_os_saved = Checkpoint.cwd ex_os
  /\ Checkpoint.log ex_os_saved = Checkpoint.log ex_os
  /\ exists fp,
       last fp = Some (Checkpoint.epoch_file (pretty 3%Z))
       /\ Checkpoint.fs ex_os_saved !! fp
          = Some (Checkpoint.FFile (Checkpoint.Pickled
                    {| Checkpoint.ck_epoch := 3%Z;
                       Checkpoint.ck_model := ex_state_dict "net";
                       Checkpoint.ck_lr_schedule := ex_state_dict "sched";
                       Checkpoint.ck_optimizer := ex_state_dict "adam" |}))
       /\ forall k x, k <> fp -> Checkpoint.fs ex_os !! k = Some x ->
                      Checkpoint.fs ex_os_saved !! k = Some x.
Proof.
  refine (CheckpointFacts.save_model_frame ex_state_dict
            (Checkpoint.JObj ex_config) "net" "sched" "adam" 3%Z
            ex_os ex_os_saved _).
  vm_compute. reflexivity.
Defined.

Lemma save_then_get_checkpoint_witness :
  Checkpoint.get_checkpoint ex_torch_map ex_py_repr
    (Checkpoint.JObj ex_config) ex_os_saved
  = (Done (Some {| Checkpoint.ck_epoch := 3%Z;
                   Checkpoint.ck_model := "state of net"%string;
                   Checkpoint.ck_lr_schedule := "state of sched"%string;
                   Checkpoint.ck_optimizer := "state of adam"%string |}),
     {| Checkpoint.fs := Checkpoint.fs ex_os_saved;
        Checkpoint.cwd := Checkpoint.cwd ex_os_saved;
        Checkpoint.log :=
          Some ["load checkpoint from ckpt/run1/epoch_3.pth"%string] |}).
Proof.
  refine (CheckpointFacts.save_then_get_checkpoint ex_state_dict ex_torch_map
            ex_py_repr (Checkpoint.JObj ex_config) ex_config
            [ ("ContinueTrain"%string, Checkpoint.JBool true);
              ("ContinueFromEpoch"%string, Checkpoint.JInt 3) ]
            "ckpt" "run1" "net" "sched" "adam" 3%Z ex_os ex_os_saved []
            _ eq_refl eq_refl eq_refl eq_refl eq_refl eq_refl _);
    vm_compute; reflexivity.
Defined.

Lemma save_keeps_other_epochs_witness :
  Checkpoint.get_checkpoint ex_torch_map ex_py_repr
    (Checkpoint.JObj ex_config) ex_os_saved_twice
  = (Done (Some {| Checkpoint.ck_epoch := 3%Z;
                   Checkpoint.ck_model := "state of net"%string;
                   Checkpoint.ck_lr_schedule := "state of sched"%string;
                   Checkpoint.ck_optimizer := "state of adam"%string |}),
     {| Checkpoint.fs := Checkpoint.fs ex_os_saved_twice;
        Checkpoint.cwd := Checkpoint.cwd ex_os_saved_twice;
        Checkpoint.log :=
          Some ["load checkpoint from ckpt/run1/epoch_3.pth"%string] |}).
Proof.
  refine (CheckpointFacts.save_keeps_other_epochs ex_state_dict ex_torch_map
            ex_py_repr (Checkpoint.JObj ex_config) ex_config
            [ ("ContinueTrain"%string, Checkpoint.JBool true);
              ("ContinueFromEpoch"%string, Checkpoint.JInt 3) ]
            "ckpt" "run1" "net" "sched" "adam" "net4" "sched4" "adam4"
            3%Z 4%Z ex_os ex_os_saved ex_os_saved_twice []
            _ _ _ eq_refl eq_refl eq_refl eq_refl eq_refl eq_refl _);
    try (vm_compute; reflexivity).
  lia.
Defined.

Lemma get_checkpoint_missing_epoch_witness :
  Checkpoint.get_checkpoint ex_torch_map ex_py_repr
    (Checkpoint.JObj ex_config) ex_os_run
  = (Raise FileNotFoundError,
     {| Checkpoint.fs := Checkpoint.fs ex_os_run;
        Checkpoint.cwd := Checkpoint.cwd ex_os_run;
        Checkpoint.log :=
          Some ["load checkpoint from ckpt/run1/epoch_3.pth"%string] |}).
Proof.
  refine (CheckpointFacts.get_checkpoint_missing_epoch ex_torch_map ex_py_repr
            (Checkpoint.JObj ex_config) ex_config
            [ ("ContinueTrain"%string, Checkpoint.JBool true);
              ("ContinueFromEpoch"%string, Checkpoint.JInt 3) ]
            "ckpt" "run1" 3%Z ex_os_run
            ["home"; "ckpt"; "run1"]%string []
            eq_refl eq_refl eq_refl eq_refl eq_refl eq_refl _ _ _ _ _);
    try (vm_compute; reflexivity).
  discriminate.
Defined.

Lemma get_checkpoint_some_inv_witness :
  exists kvs topts d t records p ck,
    let path :=
      Checkpoint.path_join (Checkpoint.path_join d t)
        (Checkpoint.epoch_file
           (Checkpoint.py_str ex_py_repr
              (Checkpoint.assoc "ContinueFromEpoch" topts))) in
    Checkpoint.JObj ex_config = Checkpoint.JObj kvs
    /\ Checkpoint.assoc "TrainOptions" kvs = Checkpoint.JObj topts
    /\ Checkpoint.truthy (Checkpoint.assoc "ContinueTrain" topts) = true
    /\ Checkpoint.assoc "ParaSaveDir" kvs = Checkpoint.JStr d
    /\ Checkpoint.assoc "TAG" kvs = Checkpoint.JStr t
    /\ Checkpoint.log ex_os_saved = Some records
    /\ ex_os_loaded
       = {| Checkpoint.fs := Checkpoint.fs ex_os_saved;
            Checkpoint.cwd := Checkpoint.cwd ex_os_saved;
            Checkpoint.log :=
              Some (records ++ ["load checkpoint from " +:+ path]) |}
    /\ Checkpoint.resolve ex_os_saved path = Done p
    /\ Checkpoint.fs ex_os_saved !! p
       = Some (Checkpoint.FFile (Checkpoint.Pickled ck))
    /\ ex_torch_map
         ("cuda:" +:+ Checkpoint.py_str ex_py_repr
                        (Checkpoint.assoc "Device" kvs)) ck
       = Done ex_checkpoint.
Proof.
  refine (CheckpointFacts.get_checkpoint_some_inv ex_torch_map ex_py_repr
            (Checkpoint.JObj ex_config) ex_os_saved ex_checkpoint
            ex_os_loaded _).
  vm_compute. reflexivity.
Defined.

Lemma forward_leaves_witness :
  exists features_4,
    ex_cat features_4 2 = Done [2; 3; 2048]
    /\ length features_4
       = length (TopNet.level_1 ex_decoder) * length (TopNet.level_2 ex_decoder)
         * length (TopNet.level_3 ex_decoder)
         * length (TopNet.level_4 ex_decoder)
    /\ forall i1 i2 i3 i4 m1 m2 m3 m4,
         TopNet.level_1 ex_decoder !! i1 = Some m1 ->
         TopNet.level_2 ex_decoder !! i2 = Some m2 ->
         TopNet.level_3 ex_decoder !! i3 = Some m3 ->
         TopNet.level_4 ex_decoder !! i4 = Some m4 ->
         exists c1 c2 c3 p,
           TopNet.node ex_cat ex_feature m1 ex_feature = Done c1
           /\ TopNet.node ex_cat ex_feature m2 c1 = Done c2
           /\ TopNet.node ex_cat ex_feature m3 c2 = Done c3
           /\ m4 c3 = Done p
           /\ features_4 !! (((i1 * length (TopNet.level_2 ex_decoder) + i2)
                                * length (TopNet.level_3 ex_decoder) + i3)
                             * length (TopNet.level_4 ex_decoder) + i4)
              = Some p.
Proof.
  refine (TopNetFacts.forward_leaves ex_cat ex_decoder ex_feature
            [2; 3; 2048] _).
  vm_compute. reflexivity.
Defined.

Lemma init_forward_leaves_witness :
  exists a0 a1 a2 a3 more features_4,
    TopNet.default_arch_no_ibs = a0 :: a1 :: a2 :: a3 :: more
    /\ ex_cat features_4 2 = Done [2; 3; 2048]
    /\ length features_4
       = Z.to_nat a0 * Z.to_nat a1 * Z.to_nat a2 * Z.to_nat a3.
Proof.
  refine (TopNetFacts.init_forward_leaves ex_cat ex_mlp ex_mlp
            TopNet.default_arch_no_ibs ex_decoder ex_feature [2; 3; 2048]
            _ _);
    vm_compute; reflexivity.
Defined.

(** With the default [arch] of [networks/models.py] the decoder yields
    1024 points for each batch element. *)
Example default_arch_points :
  (d ← TopNet.init ex_mlp ex_mlp TopNet.default_arch;
   TopNet.forward ex_cat d ex_feature)
  = Done [2; 3; 1024].
Proof. vm_compute. reflexivity. Qed.
